(** * Titan Automation: routing rules, filename generation and routing engine

    A shallow embedding of the core of the print-shop automation tool:
    - [src/titan_automation/models/job.py]          ([Job])
    - [src/models/routing_rule.py]                  ([RoutingRule])
    - [src/core/filename_generator.py]              ([FilenameGenerator])
    - [src/titan_automation/config/manager.py]      ([ConfigManager])
    - [src/titan_automation/core/routing_engine.py] ([RoutingEngine])
    together with the part of Python's [difflib.SequenceMatcher] that the
    routing engine calls.

    Python [str] values are modelled as [string]: a character stands for
    the code point of the same number, so the strings of the model are the
    Python strings whose code points lie below 256.  Dictionaries are
    modelled as [gmap], [None] as [option]. *)

From Stdlib Require Import String Ascii QArith Qcanon.
From stdpp Require Import gmap strings list fin_maps sorting.

(** ** Python string primitives used by the sources

    A character is a code point below 256; white space and case mapping
    are those of Python on that range. *)

Module Py.

(** the capital letters below 256: A-Z, and U+00C0-U+00DE without the
    multiplication sign U+00D7 *)
Definition is_upper (c : ascii) : bool :=
  let n := nat_of_ascii c in
  ((65 <=? n)%nat && (n <=? 90)%nat)
  || ((192 <=? n)%nat && (n <=? 222)%nat && negb (n =? 215)%nat).

(** the small letters below 256 whose capital is a single code point
    below 256: a-z, and U+00E0-U+00FE without the division sign U+00F7 *)
Definition is_lower (c : ascii) : bool :=
  let n := nat_of_ascii c in
  ((97 <=? n)%nat && (n <=? 122)%nat)
  || ((224 <=? n)%nat && (n <=? 254)%nat && negb (n =? 247)%nat).

Definition lower_char (c : ascii) : ascii :=
  if is_upper c then ascii_of_nat (nat_of_ascii c + 32) else c.

Definition upper_char (c : ascii) : ascii :=
  if is_lower c then ascii_of_nat (nat_of_ascii c - 32) else c.

(** [str.lower()] and [str.upper()] *)
Fixpoint lower (s : string) : string :=
  match s with
  | EmptyString => EmptyString
  | String c s' => String (lower_char c) (lower s')
  end.

(** [upper] turns the sharp s (U+00DF) into "SS", as Python does.  The
    capitals of the micro sign (U+00B5) and of y with diaeresis (U+00FF)
    are U+039C and U+0178, outside the range of the model: these two
    characters are left as they are.  The sources use [upper] only to
    compare a name with the reserved names, in which neither the
    characters nor their capitals occur. *)
Fixpoint upper (s : string) : string :=
  match s with
  | EmptyString => EmptyString
  | String c s' =>
      if (nat_of_ascii c =? 223)%nat then String "S" (String "S" (upper s'))
      else String (upper_char c) (upper s')
  end.

(** the characters [str.strip()] removes: tab, LF, VT, FF, CR, FS, GS,
    RS, US, the space, NEL (U+0085) and the no-break space (U+00A0) *)
Definition is_space (c : ascii) : bool :=
  let n := nat_of_ascii c in
  ((9 <=? n)%nat && (n <=? 13)%nat) || ((28 <=? n)%nat && (n <=? 32)%nat)
  || (n =? 133)%nat || (n =? 160)%nat.

Fixpoint lstrip (s : string) : string :=
  match s with
  | EmptyString => EmptyString
  | String c s' => if is_space c then lstrip s' else s
  end.

Definition rstrip (s : string) : string := String.rev (lstrip (String.rev s)).

(** [str.strip()] *)
Definition strip (s : string) : string := rstrip (lstrip s).

(** a string that is empty or made of such characters only *)
Fixpoint all_space (s : string) : bool :=
  match s with
  | EmptyString => true
  | String c s' => is_space c && all_space s'
  end.

(** [s.startswith(p)] *)
Fixpoint startswith (p s : string) : bool :=
  match p, s with
  | EmptyString, _ => true
  | String _ _, EmptyString => false
  | String a p', String b s' => if decide (a = b) then startswith p' s' else false
  end.

(** [sub in s] *)
Fixpoint contains (sub s : string) : bool :=
  startswith sub s ||
  match s with
  | EmptyString => false
  | String _ s' => contains sub s'
  end.

(** [s.replace(old, new)] for a non-empty [old]: every occurrence, found
    scanning left to right without overlap.  [skip] counts the characters
    of the occurrence just replaced that are still to be dropped. *)
Fixpoint replace_go (old new : string) (skip : nat) (s : string) : string :=
  match s with
  | EmptyString => EmptyString
  | String c s' =>
      match skip with
      | S k => replace_go old new k s'
      | O =>
          if startswith old s
          then new +:+ replace_go old new (String.length old - 1) s'
          else String c (replace_go old new 0 s')
      end
  end.

Definition replace (old new s : string) : string := replace_go old new 0 s.

(** [sep.join(parts)] *)
Fixpoint join (sep : string) (parts : list string) : string :=
  match parts with
  | [] => EmptyString
  | [p] => p
  | p :: rest => p +:+ sep +:+ join sep rest
  end.

(** truthiness of a [str]: the empty string is falsy *)
Definition truthy (s : string) : bool := negb (bool_decide (s = EmptyString)).

(** [len(s)] *)
Definition len (s : string) : nat := String.length s.

(** [s.lstrip(c)], [s.rstrip(c)] and [s.strip(c)] for a one-character
    argument *)
Fixpoint lstrip_char (c : ascii) (s : string) : string :=
  match s with
  | EmptyString => EmptyString
  | String x s' => if decide (x = c) then lstrip_char c s' else s
  end.

Fixpoint rstrip_char (c : ascii) (s : string) : string :=
  match s with
  | EmptyString => EmptyString
  | String x s' =>
      match rstrip_char c s' with
      | EmptyString => if decide (x = c) then EmptyString else String x EmptyString
      | String y r => String x (String y r)
      end
  end.

Definition strip_char (c : ascii) (s : string) : string :=
  rstrip_char c (lstrip_char c s).

(** [s.split(c)] for a one-character separator: never an empty list *)
Fixpoint split_char (c : ascii) (s : string) : list string :=
  match s with
  | EmptyString => [EmptyString]
  | String x s' =>
      if decide (x = c) then EmptyString :: split_char c s'
      else
        match split_char c s' with
        | p :: ps => String x p :: ps
        | [] => [String x EmptyString]
        end
  end.

End Py.

(** ** [Job]  (src/titan_automation/models/job.py) *)

Module Job.

Record t := mk {
  job_prefix : string;
  job_suffix : string;
  client : string;
  file_path : string;
  size_w : string;
  size_h : string;
  quantity : string;
  printer : string;
  print_mode : string;
  ssds_mode : string;
  media_group : string;
  media : string;
  job_type : string;
  bleed : string;
  registration : string;
  rotation : string;
  finish : string;
  grommets : string;
  pole_pockets : string;
  mirror : string;
  custom_text : string;
  inject_metadata : bool;
  quickset_override : bool;
  quickset : string
}.

(** the dataclass defaults *)
Definition default : t :=
  {| job_prefix := "TIT"; job_suffix := ""; client := ""; file_path := "";
     size_w := "24"; size_h := "36"; quantity := "1";
     printer := ""; print_mode := "Roll"; ssds_mode := "SS";
     media_group := "Vinyl"; media := "Glossy"; job_type := "Standard";
     bleed := "None"; registration := "None"; rotation := "None";
     finish := "Glossy"; grommets := "None"; pole_pockets := "None";
     mirror := "No"; custom_text := "";
     inject_metadata := true; quickset_override := false;
     quickset := "QuickSet1" |}.

(** the test of the final comprehension,
    [v and v not in ["None", "No", ""]] *)
Definition kept_value (v : string) : bool :=
  Py.truthy v && negb (bool_decide (v ∈ ["None"; "No"; ""])).

Definition get_routing_criteria (j : t) : gmap string string :=
  let criteria : gmap string string :=
    list_to_map
      [ ("Print Mode", print_mode j);
        ("Media Group", media_group j);
        ("Job Type", job_type j);
        ("Bleed", bleed j);
        ("Registration", registration j);
        ("Rotation", rotation j);
        ("Finish", finish j);
        ("Grommets", grommets j);
        ("Pole Pockets", pole_pockets j);
        ("Mirror", mirror j) ] in
  let criteria :=
    if decide (print_mode j = "Flatbed")
    then <["SSDS Mode" := ssds_mode j]> criteria
    else criteria in
  filter (λ kv, kept_value kv.2 = true) criteria.

Definition get_job_number (j : t) : string := job_prefix j +:+ job_suffix j.

Definition get_size_string (j : t) : string := size_w j +:+ "x" +:+ size_h j.

Section validation.
(** whether [float(s)] and [int(s)] return rather than raise [ValueError] *)
Variables parses_float parses_int : string → bool.

(** [validate]: the flag and the list of error messages *)
Definition validate (j : t) : bool * list string :=
  let errors : list string := [] in
  let errors :=
    if Py.truthy (file_path j) then errors
    else errors ++ ["No file selected"] in
  let errors :=
    if Py.truthy (Py.strip (client j)) then errors
    else errors ++ ["Client name is required"] in
  let errors :=
    if Py.truthy (printer j) then errors
    else errors ++ ["Printer must be selected"] in
  let errors :=
    if parses_float (size_w j) && parses_float (size_h j) then errors
    else errors ++ ["Size dimensions must be numeric"] in
  let errors :=
    if parses_int (quantity j) then errors
    else errors ++ ["Quantity must be a number"] in
  (bool_decide (length errors = 0), errors).

End validation.

End Job.

(** ** [RoutingRule]  (src/models/routing_rule.py) *)

Module RoutingRule.

Record t := mk {
  target_folder : string;
  priority : string;
  criteria : gmap string string;
  auto_generated : bool
}.

(** A rule as stored in the configuration document: a dictionary in
    which each of the keys may be missing. *)
Record data := mk_data {
  d_target_folder : option string;
  d_priority : option string;
  d_criteria : option (gmap string string);
  d_auto_generated : option bool
}.

Definition from_dict (d : data) : t :=
  {| target_folder := default "" (d_target_folder d);
     priority := default "Normal" (d_priority d);
     criteria := default ∅ (d_criteria d);
     auto_generated := default false (d_auto_generated d) |}.

(** the loop of [matches_job] over [self.criteria.items()] *)
Fixpoint criteria_loop (job_criteria : gmap string string)
    (items : list (string * string)) : bool :=
  match items with
  | [] => true
  | (rule_key, rule_value) :: rest =>
      let job_value := job_criteria !! rule_key in
      if decide (job_value ≠ Some rule_value) then false
      else criteria_loop job_criteria rest
  end.

Definition matches_job (r : t) (j : Job.t) : bool :=
  if decide (criteria r = ∅) then false
  else
    let job_criteria := Job.get_routing_criteria j in
    criteria_loop job_criteria (map_to_list (criteria r)).

Definition get_priority_weight (r : t) : nat :=
  let priority_weights : gmap string nat :=
    list_to_map [("High", 3); ("Normal", 2); ("Low", 1)] in
  default 2 (priority_weights !! priority r).

(** [validate]: the flag and the list of error messages.  [items] is
    [self.criteria.items()]: the entries of the mapping in the insertion
    order of the dictionary, which the mapping itself does not record. *)
Definition validate_items (items : list (string * string)) (r : t)
  : bool * list string :=
  let errors := [] in
  let errors :=
    if Py.truthy (Py.strip (target_folder r)) then errors
    else errors ++ ["Target folder is required"] in
  let errors :=
    if decide (criteria r = ∅)
    then errors ++ ["At least one criteria is required"] else errors in
  let errors :=
    if bool_decide (priority r ∈ ["High"; "Normal"; "Low"]) then errors
    else errors ++ ["Priority must be High, Normal, or Low"] in
  let errors :=
    foldl (λ errs kv,
             if negb (Py.truthy kv.2) || bool_decide (Py.strip kv.2 = "")
             then errs ++ ["Criteria '" +:+ kv.1 +:+ "' has empty value"]
             else errs)
          errors items in
  (bool_decide (length errors = 0), errors).

(** [validate] with the entries taken in the order of their keys.  Another
    order of the entries gives the same flag and the same messages, those
    on criteria in that other order. *)
Definition validate (r : t) : bool * list string :=
  validate_items (map_to_list (criteria r)) r.

Definition get_criteria_count (r : t) : nat := size (criteria r).

Definition is_specific (r : t) : bool := (3 <=? size (criteria r))%nat.

(** the loop of [conflicts_with] over the common keys *)
Fixpoint common_loop (c1 c2 : gmap string string) (keys : list string) : bool :=
  match keys with
  | [] => true
  | key :: rest =>
      if decide (c1 !! key ≠ c2 !! key) then false
      else common_loop c1 c2 rest
  end.

(** [conflicts_with], for an argument that is a [RoutingRule] *)
Definition conflicts_with (r other_rule : t) : bool :=
  if decide (target_folder r = target_folder other_rule) then false
  else
    let common_criteria : gset string :=
      dom (criteria r) ∩ dom (criteria other_rule) in
    if decide (common_criteria = ∅) then false
    else common_loop (criteria r) (criteria other_rule) (elements common_criteria).

End RoutingRule.

(** ** [FilenameGenerator]  (src/core/filename_generator.py) *)

Module FilenameGenerator.

Definition default_extension : string := ".pdf".

(** [get_value] inside [_build_parts_map]:
    [str(job_data.get(key, default)).strip()] *)
Definition get_value (job_data : gmap string string) (key default_ : string)
  : string :=
  Py.strip (default default_ (job_data !! key)).

(** [_build_parts_map]; [today] is [datetime.now().strftime("%m-%d-%y")]. *)
Definition build_parts_map (today : string) (job_data : gmap string string)
  : gmap string string :=
  list_to_map
    [ ("job_number",
        get_value job_data "job_prefix" "TIT" +:+ get_value job_data "job_suffix" "");
      ("client", get_value job_data "client" "");
      ("size",
        get_value job_data "size_w" "" +:+ "x" +:+ get_value job_data "size_h" "");
      ("quantity", "QTY" +:+ get_value job_data "quantity" "1");
      ("finish", get_value job_data "finish" "");
      ("bleed", get_value job_data "bleed" "");
      ("rotation", get_value job_data "rotation" "");
      ("registration", get_value job_data "registration" "");
      ("grommets", get_value job_data "grommets" "");
      ("pole_pockets", get_value job_data "pole_pockets" "");
      ("mirror", get_value job_data "mirror" "");
      ("date", today);
      ("custom_text", get_value job_data "custom_text" "") ].

(** [str(part).replace(" ", "_").replace("&", "and")] *)
Definition clean_part (part : string) : string :=
  Py.replace "&" "and" (Py.replace " " "_" part).

(** one iteration of the loop over [components_order] *)
Definition generate_step (parts_map : gmap string string)
    (include_flags : gmap string bool)
    (ordered_parts : list string) (component_key : string) : list string :=
  if negb (default true (include_flags !! component_key)) then ordered_parts
  else
    let part := default "" (parts_map !! component_key) in
    if negb (Py.truthy part) || bool_decide (Py.lower part ∈ ["none"; "no"; ""])
    then ordered_parts
    else if bool_decide (component_key = "size") && bool_decide (part = "x")
    then ordered_parts
    else ordered_parts ++ [clean_part part].

Definition generate (today : string) (job_data : gmap string string)
    (components_order : list string) (include_flags : gmap string bool)
  : string :=
  let parts_map := build_parts_map today job_data in
  let ordered_parts :=
    foldl (generate_step parts_map include_flags) [] components_order in
  match ordered_parts with
  | [] => "untitled" +:+ default_extension
  | _ :: _ => Py.join "_" ordered_parts +:+ default_extension
  end.

(** *** The rule of the specification, for comparison with [generate] *)

(** the value a component key resolves to *)
Definition resolved (today : string) (job_data : gmap string string)
    (key : string) : string :=
  default "" (build_parts_map today job_data !! key).

(** a component survives when its flag is true (true when absent), its
    value is non-empty and is not "none" or "no" whatever the case, and
    it is not the size component with value "x" *)
Definition spec_survives (today : string) (job_data : gmap string string)
    (include_flags : gmap string bool) (key : string) : bool :=
  let value := resolved today job_data key in
  bool_decide (default true (include_flags !! key) = true)
  && bool_decide (value ≠ "")
  && bool_decide (Py.lower value ≠ "none")
  && bool_decide (Py.lower value ≠ "no")
  && negb (bool_decide (key = "size" ∧ value = "x")).

Definition spec_generate (today : string) (job_data : gmap string string)
    (components_order : list string) (include_flags : gmap string bool)
  : string :=
  let survivors :=
    List.filter (spec_survives today job_data include_flags) components_order in
  match survivors with
  | [] => "untitled.pdf"
  | _ :: _ =>
      Py.join "_"
        (map (λ key, Py.replace "&" "and"
                       (Py.replace " " "_" (resolved today job_data key)))
             survivors)
      +:+ ".pdf"
  end.

(** *** [validate_filename] *)

(** the characters of the string [invalid_chars]; "034" is the double
    quote and "092" the backslash *)
Definition invalid_chars : list ascii :=
  ["<"; ">"; ":"; "034"; "/"; "092"; "|"; "?"; "*"]%char.

Definition char_str (c : ascii) : string := String c EmptyString.

(** [str(i)] for a digit [i] *)
Definition digit_str (i : nat) : string := char_str (ascii_of_nat (48 + i)).

Definition reserved_names : list string :=
  ["CON"; "PRN"; "AUX"; "NUL"]
  ++ map (λ i, "COM" +:+ digit_str i) (seq 1 9)
  ++ map (λ i, "LPT" +:+ digit_str i) (seq 1 9).

Definition msg_empty : string := "Filename is empty".
Definition msg_only_extension : string := "Filename contains only extension".
Definition msg_invalid_char (c : ascii) : string :=
  "Contains invalid character: '" +:+ char_str c +:+ "'".
Definition msg_too_long : string := "Filename is too long (>200 characters)".
Definition msg_reserved (base_name : string) : string :=
  "'" +:+ base_name +:+ "' is a reserved filename".
Definition msg_double_underscore : string :=
  "Contains double underscores (possible missing data)".

Definition validate_filename (filename : string) : bool * list string :=
  let issues : list string := [] in
  if negb (Py.truthy filename) then
    let issues := issues ++ [msg_empty] in
    (false, issues)
  else
    let issues :=
      if bool_decide (filename = default_extension)
      then issues ++ [msg_only_extension] else issues in
    let issues :=
      foldl (λ issues char,
               if Py.contains (char_str char) filename
               then issues ++ [msg_invalid_char char] else issues)
            issues invalid_chars in
    let issues :=
      if (200 <? Py.len filename)%nat
      then issues ++ [msg_too_long] else issues in
    let base_name := Py.upper (Py.replace default_extension "" filename) in
    let issues :=
      if bool_decide (base_name ∈ reserved_names)
      then issues ++ [msg_reserved base_name] else issues in
    let issues :=
      if Py.contains "__" filename
      then issues ++ [msg_double_underscore] else issues in
    (bool_decide (length issues = 0), issues).

(** *** The flags of the specification, for comparison with
    [validate_filename] *)

(** [s.endswith(suffix)] *)
Definition endswith (suffix s : string) : bool :=
  Py.startswith (String.rev suffix) (String.rev s).

(** the name with its extension stripped: a trailing ".pdf" removed *)
Definition spec_base_name (filename : string) : string :=
  if endswith ".pdf" filename
  then String.substring 0 (String.length filename - 4) filename
  else filename.

Definition spec_issues (filename : string) : list string :=
  (if bool_decide (filename = "") then [msg_empty] else [])
  ++ (if bool_decide (filename = ".pdf") then [msg_only_extension] else [])
  ++ map msg_invalid_char
       (List.filter (λ c, Py.contains (char_str c) filename) invalid_chars)
  ++ (if (200 <? String.length filename)%nat then [msg_too_long] else [])
  ++ (if bool_decide (Py.upper (spec_base_name filename) ∈ reserved_names)
      then [msg_reserved (Py.upper (spec_base_name filename))] else [])
  ++ (if Py.contains "__" filename then [msg_double_underscore] else []).

(** the flags as the code computes them: the fifth one on the name with
    every occurrence of ".pdf" removed *)
Definition code_issues (filename : string) : list string :=
  (if bool_decide (filename = "") then [msg_empty] else [])
  ++ (if bool_decide (filename = ".pdf") then [msg_only_extension] else [])
  ++ map msg_invalid_char
       (List.filter (λ c, Py.contains (char_str c) filename) invalid_chars)
  ++ (if (200 <? String.length filename)%nat then [msg_too_long] else [])
  ++ (if bool_decide (Py.upper (Py.replace ".pdf" "" filename) ∈ reserved_names)
      then [msg_reserved (Py.upper (Py.replace ".pdf" "" filename))] else [])
  ++ (if Py.contains "__" filename then [msg_double_underscore] else []).

(** *** [sanitize_component] *)

(** the table [replacements], in insertion order *)
Definition replacements : list (string * string) :=
  [ (" ", "_"); ("&", "and"); ("/", "-"); (char_str "092", "-"); (":", "-");
    ("*", ""); ("?", ""); (char_str "034", ""); ("<", ""); (">", "");
    ("|", "-") ].

(** [while '__' in clean: clean = clean.replace('__', '_')], at most
    [fuel] iterations *)
Fixpoint collapse_underscores (fuel : nat) (clean : string) : string :=
  match fuel with
  | O => clean
  | S fuel' =>
      if Py.contains "__" clean
      then collapse_underscores fuel' (Py.replace "__" "_" clean)
      else clean
  end.

Definition sanitize_component (component : string) : string :=
  if negb (Py.truthy component) then ""
  else
    let clean := Py.strip component in
    let clean :=
      foldl (λ clean on, Py.replace on.1 on.2 clean) clean replacements in
    let clean := collapse_underscores (String.length clean) clean in
    let clean := Py.strip_char "_" clean in
    clean.

(** *** [preview_filename] and [analyze_filename] *)

Definition preview_filename (today : string) (job_data : gmap string string)
    (components_order : list string) (include_flags : gmap string bool)
  : string :=
  generate today job_data components_order include_flags.

(** an entry of [components]: index, value and type *)
Record component_info := mk_component {
  index : nat;
  value : string;
  type : string
}.

Record analysis := mk_analysis {
  a_filename : string;
  a_is_valid : bool;
  a_issues : list string;
  a_components : list component_info;
  a_estimated_parts : list string
}.

(** the chain of tests that types one part *)
Definition part_type (part : string) : string :=
  if Py.startswith "QTY" part then "quantity"
  else if Py.contains "x" part && (length (Py.split_char "x" part) =? 2)%nat
  then "size"
  else if bool_decide (part ∈ ["Glossy"; "Matte"; "Satin"]) then "finish"
  else if bool_decide (part ∈ ["Bleed"; "None"]) then "bleed"
  else if (Py.len part =? 8)%nat && Py.contains "-" part then "date"
  else if Py.startswith "TIT" part then "job_number"
  else "unknown".

Definition analyze_filename (filename : string) : analysis :=
  let '(is_valid, issues) := validate_filename filename in
  if negb (Py.truthy filename) then
    {| a_filename := filename; a_is_valid := is_valid; a_issues := issues;
       a_components := []; a_estimated_parts := [] |}
  else
    let base_name := Py.replace default_extension "" filename in
    let parts := Py.split_char "_" base_name in
    {| a_filename := filename; a_is_valid := is_valid; a_issues := issues;
       a_components :=
         imap (λ i part, {| index := i; value := part; type := part_type part |})
              parts;
       a_estimated_parts := parts |}.

End FilenameGenerator.

(** ** [difflib.SequenceMatcher]  (Python standard library)

    The matcher as the routing engine builds it, [SequenceMatcher(None, a, b)]:
    no junk predicate, the automatic junk heuristic left on.  Indices and
    sizes are natural numbers.  The float [2.0 * matches / length] is the
    exact rational: the division is correctly rounded, so equal quotients
    give equal floats and the comparisons the callers make ([>] between two
    ratios, [>] against the literal [0.6]) come out as on the rationals for
    any sequences of realistic length. *)

Module Difflib.

(** a [Match(a, b, size)] triple and a queue entry [(alo, ahi, blo, bhi)] *)
Definition Match : Type := nat * nat * nat.
Definition Region : Type := nat * nat * nat * nat.

Definition size_of (m : Match) : nat := m.2.

Section matcher.
Variables a b : list ascii.

(** [__chain_b]: for each element of [b] the increasing list of its
    positions ... *)
Definition b2j_index : gmap ascii (list nat) :=
  foldl (λ b2j ie, <[ie.2 := default [] (b2j !! ie.2) ++ [ie.1]]> b2j)
        ∅ (imap pair b).

(** ... no junk, as [isjunk] is [None] ... *)
Definition bjunk : gset ascii := ∅.
Definition isbjunk (elt : ascii) : bool := bool_decide (elt ∈ bjunk).

(** ... and the popular elements purged when [b] has 200 elements or
    more. *)
Definition b2j : gmap ascii (list nat) :=
  let n := length b in
  if (200 <=? n)%nat then
    let ntest := (n / 100 + 1)%nat in
    filter (λ kv, length kv.2 ≤ ntest) b2j_index
  else b2j_index.

(** [j2len.get(j-1, 0)]: the key [-1] is never in the dictionary *)
Definition j2lenget_pred (j2len : gmap nat nat) (j : nat) : nat :=
  match j with
  | O => 0
  | S j' => default 0 (j2len !! j')
  end.

(** the loop [for j in b2j.get(a[i], nothing)] with its [continue]
    and [break] *)
Fixpoint scan_js (blo bhi i : nat) (j2len : gmap nat nat) (js : list nat)
    (newj2len : gmap nat nat) (best : Match) : gmap nat nat * Match :=
  match js with
  | [] => (newj2len, best)
  | j :: js' =>
      if (j <? blo)%nat then scan_js blo bhi i j2len js' newj2len best
      else if (bhi <=? j)%nat then (newj2len, best)
      else
        let k := (j2lenget_pred j2len j + 1)%nat in
        let newj2len := <[j := k]> newj2len in
        let best :=
          if (size_of best <? k)%nat then (i + 1 - k, j + 1 - k, k)%nat
          else best in
        scan_js blo bhi i j2len js' newj2len best
  end.

(** the body of [for i in range(alo, ahi)] *)
Definition scan_row (blo bhi : nat) (st : gmap nat nat * Match) (i : nat)
  : gmap nat nat * Match :=
  let js :=
    match a !! i with
    | Some elt => default [] (b2j !! elt)
    | None => []
    end in
  scan_js blo bhi i st.1 js ∅ st.2.

Definition same_elt (i j : nat) : bool :=
  match a !! i, b !! j with
  | Some x, Some y => bool_decide (x = y)
  | _, _ => false
  end.

Definition junk_at (j : nat) : bool :=
  match b !! j with
  | Some y => isbjunk y
  | None => false
  end.

(** [while besti > alo and bestj > blo and (not) isbjunk(b[bestj-1])
    and a[besti-1] == b[bestj-1]]; [junk] tells which of the two
    loops it is *)
Fixpoint extend_left (junk : bool) (alo blo besti bestj bestsize : nat)
  : Match :=
  match besti, bestj with
  | S i', S j' =>
      if (alo <? besti)%nat && (blo <? bestj)%nat
         && bool_decide (junk_at j' = junk) && same_elt i' j'
      then extend_left junk alo blo i' j' (S bestsize)
      else (besti, bestj, bestsize)
  | _, _ => (besti, bestj, bestsize)
  end.

(** [while besti+bestsize < ahi and bestj+bestsize < bhi and ...];
    [room] is [ahi - (besti + bestsize)] *)
Fixpoint extend_right_go (room : nat) (junk : bool)
    (bhi besti bestj bestsize : nat) : nat :=
  match room with
  | O => bestsize
  | S room' =>
      if (bestj + bestsize <? bhi)%nat
         && bool_decide (junk_at (bestj + bestsize) = junk)
         && same_elt (besti + bestsize) (bestj + bestsize)
      then extend_right_go room' junk bhi besti bestj (S bestsize)
      else bestsize
  end.

Definition extend_right (junk : bool) (ahi bhi besti bestj bestsize : nat)
  : nat :=
  extend_right_go (ahi - (besti + bestsize)) junk bhi besti bestj bestsize.

Definition find_longest_match (alo ahi blo bhi : nat) : Match :=
  let st := foldl (scan_row blo bhi) (∅, (alo, blo, 0)) (seq alo (ahi - alo)) in
  let '(besti, bestj, bestsize) := st.2 in
  let '(besti, bestj, bestsize) :=
    extend_left false alo blo besti bestj bestsize in
  let bestsize := extend_right false ahi bhi besti bestj bestsize in
  let '(besti, bestj, bestsize) :=
    extend_left true alo blo besti bestj bestsize in
  let bestsize := extend_right true ahi bhi besti bestj bestsize in
  (besti, bestj, bestsize).

(** the [while queue] loop of [get_matching_blocks].  The queue is kept
    with its last element first, so that [pop()] takes the head and
    [append] is a cons.  [None] when [fuel] iterations do not empty the
    queue. *)
Fixpoint blocks_loop (fuel : nat) (queue : list Region)
    (matching_blocks : list Match) : option (list Match) :=
  match queue with
  | [] => Some matching_blocks
  | (alo, ahi, blo, bhi) :: queue =>
      match fuel with
      | O => None
      | S fuel' =>
          let '(i, j, k) := find_longest_match alo ahi blo bhi in
          if (k =? 0)%nat then blocks_loop fuel' queue matching_blocks
          else
            let matching_blocks := matching_blocks ++ [(i, j, k)] in
            let queue :=
              if (alo <? i)%nat && (blo <? j)%nat
              then (alo, i, blo, j) :: queue else queue in
            let queue :=
              if (i + k <? ahi)%nat && (j + k <? bhi)%nat
              then (i + k, ahi, j + k, bhi)%nat :: queue else queue in
            blocks_loop fuel' queue matching_blocks
      end
  end.

(** the order of Python tuples, for [matching_blocks.sort()] *)
Definition match_le (x y : Match) : Prop :=
  let '(i1, j1, k1) := x in
  let '(i2, j2, k2) := y in
  i1 < i2 ∨ (i1 = i2 ∧ (j1 < j2 ∨ (j1 = j2 ∧ k1 ≤ k2))).

#[global] Instance match_le_dec : RelDecision match_le.
Proof. intros [[i1 j1] k1] [[i2 j2] k2]. unfold match_le. apply _. Defined.

(** one iteration of the loop that merges adjacent blocks; the state is
    the block [(i1, j1, k1)] and the list [non_adjacent] *)
Definition collapse_step (st : Match * list Match) (m : Match)
  : Match * list Match :=
  let '((i1, j1, k1), non_adjacent) := st in
  let '(i2, j2, k2) := m in
  if (i1 + k1 =? i2)%nat && (j1 + k1 =? j2)%nat
  then ((i1, j1, k1 + k2), non_adjacent)
  else ((i2, j2, k2),
        if (0 <? k1)%nat then non_adjacent ++ [(i1, j1, k1)]
        else non_adjacent).

(** the blocks found by the queue loop, before sorting *)
Definition found_blocks : list Match :=
  let la := length a in
  let lb := length b in
  default [] (blocks_loop (2 * la + 1) [(0, la, 0, lb)] []).

Definition get_matching_blocks : list Match :=
  let la := length a in
  let lb := length b in
  let matching_blocks := merge_sort match_le found_blocks in
  let '((i1, j1, k1), non_adjacent) :=
    foldl collapse_step ((0, 0, 0), []) matching_blocks in
  let non_adjacent :=
    if (0 <? k1)%nat then non_adjacent ++ [(i1, j1, k1)] else non_adjacent in
  non_adjacent ++ [(la, lb, 0)].

(** [_calculate_ratio] *)
Definition calculate_ratio (matches length : nat) : Qc :=
  if (0 <? length)%nat
  then Q2Qc (Qmake (Z.of_nat (2 * matches)) (Pos.of_nat length))
  else 1%Qc.

Definition ratio : Qc :=
  let matches := sum_list_with size_of get_matching_blocks in
  calculate_ratio matches (length a + length b).

End matcher.

(** [SequenceMatcher(None, a, b).ratio()] on strings *)
Definition str_ratio (a b : string) : Qc :=
  ratio (list_ascii_of_string a) (list_ascii_of_string b).

End Difflib.

(** ** [ConfigManager]  (src/titan_automation/config/manager.py)

    The loaded configuration is the stored document merged over the
    defaults, so every recognised key is present. *)

Module ConfigManager.

(** an entry of the [printers] mapping *)
Record printer_data := mk_printer {
  display_name : option string;
  types : list string;
  active : option bool
}.

Record t := mk {
  client_list : list string;
  (** [printers], in the iteration order of the dictionary *)
  printers : list (string * printer_data);
  hotfolder_root : string;
  art_root_path : string;
  client_art_folders : gmap string string;
  enable_art_copy : bool;
  routing_rules : gmap string (list RoutingRule.data)
}.

Fixpoint printer_folder_loop (items : list (string * printer_data))
    (name : string) : string :=
  match items with
  | [] => name
  | (folder_name, pdata) :: rest =>
      if bool_decide (default folder_name (display_name pdata) = name)
      then folder_name
      else printer_folder_loop rest name
  end.

Definition get_printer_folder_name (cfg : t) (name : string) : string :=
  printer_folder_loop (printers cfg) name.

Definition get_client_art_folders (cfg : t) : gmap string string :=
  client_art_folders cfg.

(** What [get_routing_rules] returns: the rule list of one printer, or,
    for a falsy printer name, the whole mapping. *)
Inductive rules_result :=
| PrinterRules (rules : list RoutingRule.data)
| AllRules (rules : gmap string (list RoutingRule.data)).

Definition get_routing_rules (cfg : t) (printer : string) : rules_result :=
  let rules := routing_rules cfg in
  if Py.truthy printer then PrinterRules (default [] (rules !! printer))
  else AllRules rules.

Definition is_art_copy_enabled (cfg : t) : bool := enable_art_copy cfg.
Definition get_hotfolder_root (cfg : t) : string := hotfolder_root cfg.
Definition get_art_root_path (cfg : t) : string := art_root_path cfg.

(** [get_active_printers]: the display names of the printers that are
    active (active when the key is missing) *)
Definition get_active_printers (cfg : t) : list string :=
  omap (λ np : string * printer_data,
          if default true (active np.2)
          then Some (default np.1 (display_name np.2)) else None)
       (printers cfg).

(** [add_routing_rule]: the configuration after the call *)
Definition add_routing_rule (cfg : t) (printer : string)
    (rule : RoutingRule.data) : t :=
  let rules := routing_rules cfg in
  let rules :=
    match rules !! printer with
    | Some _ => rules
    | None => <[printer := []]> rules
    end in
  {| client_list := client_list cfg;
     printers := printers cfg;
     hotfolder_root := hotfolder_root cfg;
     art_root_path := art_root_path cfg;
     client_art_folders := client_art_folders cfg;
     enable_art_copy := enable_art_copy cfg;
     routing_rules := alter (λ l, l ++ [rule]) printer rules |}.

(** the media keys of the configuration document: [media_config], a
    mapping from media group to media types in its iteration order, and
    the per-printer overrides [printer_media_config] *)
Record media := mk_media {
  media_config : list (string * list string);
  printer_media_config : gmap string (list (string * list string))
}.

Definition get_media_config (m : media) (printer : string)
  : list (string * list string) :=
  if Py.truthy printer then
    match printer_media_config m !! printer with
    | Some printer_media => printer_media
    | None => media_config m
    end
  else media_config m.

End ConfigManager.

(** ** The operating system as the routing engine uses it *)

(** an exception raised by a file operation, with its [str(e)] *)
Inductive os_error :=
| PermissionError (msg : string)
| OtherError (msg : string).

Definition error_text (e : os_error) : string :=
  match e with
  | PermissionError msg => msg
  | OtherError msg => msg
  end.

(** [os.path.exists], [os.makedirs(path, exist_ok=True)] and [shutil.copy2]
    over a state [FS] of the file system; an operation that raises returns
    the exception next to the state it leaves. *)
Class FileSystem (FS : Type) := {
  path_exists : FS → string → bool;
  makedirs : FS → string → option os_error * FS;
  copy2 : FS → string → string → option os_error * FS
}.

(** ** [RoutingEngine]  (src/titan_automation/core/routing_engine.py) *)

Module RoutingEngine.

(** a [{"success": ..., "path": ..., "error": ...}] dictionary; [None] is
    Python's [None] *)
Record step_result := mk_step {
  success : option bool;
  path : option string;
  error : option string
}.

Record process_result := mk_result {
  overall_success : option bool;
  hotfolder : step_result;
  art_copy : step_result;
  filename : string
}.

(** truthiness of [None], [False] and [True], and Python's [x or y] *)
Definition py_truthy (x : option bool) : bool :=
  match x with
  | Some true => true
  | _ => false
  end.

Definition py_or (x y : option bool) : option bool :=
  if py_truthy x then x else y.

(** *** [determine_target_folder] *)

Definition weight_of (x : nat * RoutingRule.t) : nat :=
  RoutingRule.get_priority_weight x.2.

(** [matching_rules.sort(key=..., reverse=True)]: Python's sort is stable,
    also with [reverse=True]; elements of equal weight keep their order. *)
Fixpoint insert_by_weight (x : nat * RoutingRule.t)
    (l : list (nat * RoutingRule.t)) : list (nat * RoutingRule.t) :=
  match l with
  | [] => [x]
  | y :: l' =>
      if (weight_of x <? weight_of y)%nat then y :: insert_by_weight x l'
      else x :: l
  end.

Definition sort_by_priority (l : list (nat * RoutingRule.t))
  : list (nat * RoutingRule.t) :=
  foldr insert_by_weight [] l.

(** the loop [for i, rule in enumerate(routing_rules)] *)
Definition find_matching_rules (routing_rules : list RoutingRule.t)
    (job : Job.t) : list (nat * RoutingRule.t) :=
  foldl (λ matching_rules ir,
           if RoutingRule.matches_job ir.2 job
           then matching_rules ++ [ir] else matching_rules)
        [] (imap pair routing_rules).

Definition determine_target_folder (cfg : ConfigManager.t) (job : Job.t)
  : option string :=
  match ConfigManager.get_routing_rules cfg (Job.printer job) with
  | ConfigManager.AllRules rules =>
      (* an empty mapping is falsy; otherwise the comprehension calls
         [from_dict] on the keys of the mapping, which raises on a [str],
         and the handler returns [None] *)
      if decide (rules = ∅) then None else None
  | ConfigManager.PrinterRules routing_rules_data =>
      match routing_rules_data with
      | [] => None
      | _ :: _ =>
          let routing_rules := map RoutingRule.from_dict routing_rules_data in
          let matching_rules := find_matching_rules routing_rules job in
          match matching_rules with
          | [] => None
          | _ :: _ =>
              let matching_rules :=
                if (1 <? length matching_rules)%nat
                then sort_by_priority matching_rules
                else matching_rules in
              match matching_rules with
              | (rule_index, selected_rule) :: _ =>
                  Some (RoutingRule.target_folder selected_rule)
              | [] => None
              end
          end
      end
  end.

(** the fallback of [route_to_hotfolder]: [if not target_folder] *)
Definition target_or_default (target_folder : option string) : string :=
  match target_folder with
  | Some folder => if Py.truthy folder then folder else "Default"
  | None => "Default"
  end.

Definition failed (msg : string) : step_result :=
  {| success := Some false; error := Some msg; path := None |}.

Definition not_applicable : step_result :=
  {| success := None; path := None; error := None |}.

Section file_operations.
Context {FS : Type} `{!FileSystem FS}.
(** [os.path.join] *)
Variable path_join : string → string → string.

Definition route_to_hotfolder (cfg : ConfigManager.t) (fs : FS)
    (file_path filename : string) (job : Job.t) : step_result * FS :=
  let hotfolder_root := ConfigManager.get_hotfolder_root cfg in
  if negb (Py.truthy hotfolder_root) || negb (path_exists fs hotfolder_root)
  then (failed "Hotfolder root not set or doesn't exist", fs)
  else
    let printer_folder :=
      ConfigManager.get_printer_folder_name cfg (Job.printer job) in
    let printer_path := path_join hotfolder_root printer_folder in
    if negb (path_exists fs printer_path)
    then (failed ("Printer folder doesn't exist: " +:+ printer_path), fs)
    else
      let target_folder := determine_target_folder cfg job in
      let target_folder := target_or_default target_folder in
      let target_path := path_join printer_path target_folder in
      match makedirs fs target_path with
      | (Some e, fs) =>
          (failed ("Hotfolder routing failed: " +:+ error_text e), fs)
      | (None, fs) =>
          let dest_file := path_join target_path filename in
          match copy2 fs file_path dest_file with
          | (Some e, fs) =>
              (failed ("Hotfolder routing failed: " +:+ error_text e), fs)
          | (None, fs) =>
              ({| success := Some true; path := Some target_path;
                  error := None |}, fs)
          end
      end.

Definition copy_to_client_art_folder (cfg : ConfigManager.t) (fs : FS)
    (file_path filename : string) (job : Job.t) : step_result * FS :=
  if negb (Py.truthy (Job.client job))
     || negb (Py.truthy (Py.strip (Job.client job)))
  then (not_applicable, fs)
  else
    let art_folders := ConfigManager.get_client_art_folders cfg in
    match art_folders !! Job.client job with
    | None => (not_applicable, fs)
    | Some art_folder =>
        if negb (path_exists fs art_folder)
        then
          ({| success := Some false; path := None;
              error := Some ("Client art folder doesn't exist: " +:+ art_folder) |},
           fs)
        else
          let dest_file := path_join art_folder filename in
          match copy2 fs file_path dest_file with
          | (Some (PermissionError msg), fs) =>
              ({| success := Some false; path := None;
                  error := Some ("Permission denied accessing art folder: " +:+ msg) |},
               fs)
          | (Some (OtherError msg), fs) =>
              ({| success := Some false; path := None;
                  error := Some ("Art folder copy failed: " +:+ msg) |},
               fs)
          | (None, fs) =>
              ({| success := Some true; path := Some art_folder;
                  error := None |}, fs)
          end
    end.

(** Both steps catch every exception they can raise, so the handler of
    [process_file] itself is never entered. *)
Definition process_file (cfg : ConfigManager.t) (fs : FS)
    (file_path filename : string) (job : Job.t) : process_result * FS :=
  let results_art_copy := not_applicable in
  let '(hotfolder_result, fs) :=
    route_to_hotfolder cfg fs file_path filename job in
  let results_hotfolder := hotfolder_result in
  let '(results_art_copy, fs) :=
    if ConfigManager.is_art_copy_enabled cfg
    then copy_to_client_art_folder cfg fs file_path filename job
    else (results_art_copy, fs) in
  let results_success :=
    py_or (success results_hotfolder) (success results_art_copy) in
  ({| overall_success := results_success;
      hotfolder := results_hotfolder;
      art_copy := results_art_copy;
      filename := filename |}, fs).

End file_operations.

(** *** [auto_match_clients] *)

Record match_info := mk_match {
  folder : string;
  ratio : Qc;
  full_path : string
}.

(** the literal [0.6] *)
Definition threshold : Qc := Q2Qc (Qmake 6 10).

(** the loop [for folder in folder_list], for any scoring of the folders;
    the state is [(best_match, best_ratio)] *)
Definition best_match_step (score : string → Qc) (st : option string * Qc)
    (folder : string) : option string * Qc :=
  let '(best_match, best_ratio) := st in
  let ratio := score folder in
  if bool_decide (best_ratio < ratio)%Qc && bool_decide (threshold < ratio)%Qc
  then (Some folder, ratio)
  else (best_match, best_ratio).

Definition best_match_loop (score : string → Qc) (folder_list : list string)
  : option string * Qc :=
  foldl (best_match_step score) (None, 0%Qc) folder_list.

(** [SequenceMatcher(None, client.lower(), folder.lower()).ratio()] *)
Definition similarity (client folder : string) : Qc :=
  Difflib.str_ratio (Py.lower client) (Py.lower folder).

Section auto_match.
(** [os.path.join] *)
Variable path_join : string → string → string.

(** the body of the loop [for client in client_list] *)
Definition auto_match_step (cfg : ConfigManager.t)
    (folder_list : list string) (matches : gmap string match_info)
    (client : string) : gmap string match_info :=
  let existing_mappings := ConfigManager.get_client_art_folders cfg in
  if bool_decide (is_Some (existing_mappings !! client)) then matches
  else
    let '(best_match, best_ratio) :=
      best_match_loop (similarity client) folder_list in
    match best_match with
    | Some best =>
        if Py.truthy best then
          let art_root := ConfigManager.get_art_root_path cfg in
          <[client := {| folder := best; ratio := best_ratio;
                         full_path := path_join art_root best |}]> matches
        else matches
    | None => matches
    end.

Definition auto_match_clients (cfg : ConfigManager.t)
    (client_list folder_list : list string) : gmap string match_info :=
  foldl (auto_match_step cfg folder_list) ∅ client_list.

End auto_match.

(** *** [test_job_routing] *)

(** an entry of [matching_rules] *)
Record matching_rule := mk_matching_rule {
  m_index : nat;
  m_target_folder : string;
  m_criteria : gmap string string;
  m_priority : string
}.

Record routing_test := mk_routing_test {
  t_job_criteria : gmap string string;
  t_target_folder : option string;
  t_matching_rules : list matching_rule;
  t_printer : string;
  t_success : bool
}.

(** the loop that collects the matching rules *)
Definition matching_rule_infos (routing_rules : list RoutingRule.t)
    (job : Job.t) : list matching_rule :=
  foldl (λ infos ir,
           if RoutingRule.matches_job ir.2 job
           then infos ++ [{| m_index := ir.1;
                             m_target_folder := RoutingRule.target_folder ir.2;
                             m_criteria := RoutingRule.criteria ir.2;
                             m_priority := RoutingRule.priority ir.2 |}]
           else infos)
        [] (imap pair routing_rules).

(** [test_job_routing]; [None] is the dictionary with an ["error"] that the
    handler returns *)
Definition test_job_routing (cfg : ConfigManager.t) (job : Job.t)
  : option routing_test :=
  let target_folder := determine_target_folder cfg job in
  let result matching :=
    {| t_job_criteria := Job.get_routing_criteria job;
       t_target_folder := target_folder;
       t_matching_rules := matching;
       t_printer := Job.printer job;
       t_success := bool_decide (target_folder ≠ None) |} in
  match ConfigManager.get_routing_rules cfg (Job.printer job) with
  | ConfigManager.AllRules rules =>
      (* a non-empty mapping is truthy and [from_dict] raises on its keys *)
      if decide (rules = ∅) then Some (result []) else None
  | ConfigManager.PrinterRules routing_rules_data =>
      match routing_rules_data with
      | [] => Some (result [])
      | _ :: _ =>
          let routing_rules := map RoutingRule.from_dict routing_rules_data in
          Some (result (matching_rule_infos routing_rules job))
      end
  end.

(** *** [detect_folder_attributes] and [create_auto_routing_rule] *)

(** the loop over [media_keywords], with its [break] *)
Fixpoint media_loop (folder_lower : string) (keywords : list (string * string))
    (detected : gmap string string) : gmap string string :=
  match keywords with
  | [] => detected
  | (keyword, media_group) :: rest =>
      if Py.contains keyword folder_lower
      then <["Media Group" := media_group]> detected
      else media_loop folder_lower rest detected
  end.

Definition media_keywords : list (string * string) :=
  [ ("vinyl", "Vinyl"); ("banner", "Banner"); ("scrim", "Banner");
    ("mesh", "Banner"); ("paper", "Paper"); ("canvas", "Paper") ].

Definition detect_folder_attributes (folder_name : string)
  : gmap string string :=
  let folder_lower := Py.lower folder_name in
  let has (keyword : string) : bool := Py.contains keyword folder_lower in
  let detected : gmap string string := ∅ in
  let detected :=
    if has "bleed" then <["Bleed" := "Bleed"]> detected else detected in
  let detected :=
    if has "90" || has "rotated" || has "rotate"
    then <["Rotation" := "90 CW"]> detected else detected in
  let detected :=
    if has "icut" then <["Registration" := "iCut"]> detected
    else if has "graphtec" then <["Registration" := "Graphtec"]> detected
    else detected in
  let detected :=
    if has "matte" then <["Finish" := "Matte"]> detected
    else if has "glossy" then <["Finish" := "Glossy"]> detected
    else detected in
  let detected :=
    if has "grommet" then
      if has "corner" then <["Grommets" := "Corners"]> detected
      else if has "top" then <["Grommets" := "Top"]> detected
      else if has "bottom" then <["Grommets" := "Bottom"]> detected
      else if has "side" then <["Grommets" := "Sides"]> detected
      else <["Grommets" := "All"]> detected
    else detected in
  let detected :=
    if has "pole" || has "pocket" then
      if has "top" && has "bottom"
      then <["Pole Pockets" := "Top & Bottom"]> detected
      else if has "top" then <["Pole Pockets" := "Top"]> detected
      else if has "bottom" then <["Pole Pockets" := "Bottom"]> detected
      else if has "side" then <["Pole Pockets" := "Sides"]> detected
      else <["Pole Pockets" := "Top & Bottom"]> detected
    else detected in
  let detected :=
    if has "mirror" then <["Mirror" := "Yes"]> detected else detected in
  let detected :=
    if has "flatbed" then <["Print Mode" := "Flatbed"]> detected
    else if has "roll" then <["Print Mode" := "Roll"]> detected
    else detected in
  let detected :=
    if has "rush" then <["Job Type" := "Rush"]> detected else detected in
  media_loop folder_lower media_keywords detected.

Definition create_auto_routing_rule (folder_name : string)
    (detected_attributes : gmap string string) : bool :=
  if decide (detected_attributes = ∅) then false
  else
    let rule :=
      {| RoutingRule.target_folder := folder_name;
         RoutingRule.criteria := detected_attributes;
         RoutingRule.priority := "Normal";
         RoutingRule.auto_generated := true |} in
    let '(is_valid, errors) := RoutingRule.validate rule in
    if is_valid then true else false.

(** *** [find_coverage_gaps] and [analyze_routing_setup] *)

Record gap := mk_gap {
  gap_type : string;
  gap_value : string;
  gap_description : string
}.

(** the loops that fill [covered_media_groups] and [covered_job_types] *)
Definition covered_values (key : string) (routing_rules : list RoutingRule.t)
  : gset string :=
  foldl (λ covered rule,
           match RoutingRule.criteria rule !! key with
           | Some v => if Py.truthy v then {[v]} ∪ covered else covered
           | None => covered
           end)
        ∅ routing_rules.

(** the loops that append a gap for each value that is not covered *)
Definition gaps_loop (type prefix : string) (covered : gset string)
    (values : list string) (gaps : list gap) : list gap :=
  foldl (λ gaps v,
           if decide (v ∈ covered) then gaps
           else gaps ++ [{| gap_type := type; gap_value := v;
                            gap_description := prefix +:+ v +:+ "'" |}])
        gaps values.

Definition find_coverage_gaps (m : ConfigManager.media)
    (routing_rules : list RoutingRule.t) (printer : string) : list gap :=
  let gaps : list gap := [] in
  let media_config := ConfigManager.get_media_config m printer in
  let media_groups := map fst media_config in
  let covered_media_groups := covered_values "Media Group" routing_rules in
  let gaps :=
    gaps_loop "Media Group" "No routing rules for media group '"
      covered_media_groups media_groups gaps in
  let job_types := ["Standard"; "Rush"; "Reprint"] in
  let covered_job_types := covered_values "Job Type" routing_rules in
  let gaps :=
    gaps_loop "Job Type" "No routing rules for job type '"
      covered_job_types job_types gaps in
  gaps.

Record folder_info := mk_folder_info {
  f_folder : string;
  f_rules : nat;
  f_detected : gmap string string
}.

Record rule_quality := mk_quality { good : nat; fair : nat; poor : nat }.

Record routing_analysis := mk_routing_analysis {
  an_printer : string;
  total_folders : nat;
  total_rules : nat;
  mapped_folders : list folder_info;
  unmapped_folders : list string;
  auto_detected_folders : list folder_info;
  conflicting_rules : list (string * nat);
  coverage_gaps : list gap;
  quality : rule_quality
}.

(** the state of the loop over the folders: mapped, unmapped,
    auto-detected, conflicting *)
Definition folders_state : Type :=
  list folder_info * list string * list folder_info * list (string * nat).

Definition folder_step (routing_rules : list RoutingRule.t)
    (st : folders_state) (name : string) : folders_state :=
  let '(mapped, unmapped, auto_detected, conflicting) := st in
  let folder_rules :=
    List.filter (λ rule, bool_decide (RoutingRule.target_folder rule = name))
      routing_rules in
  let detected_attrs := detect_folder_attributes name in
  let info :=
    {| f_folder := name; f_rules := length folder_rules;
       f_detected := detected_attrs |} in
  if (length folder_rules =? 0)%nat then
    if decide (detected_attrs = ∅)
    then (mapped, unmapped ++ [name], auto_detected, conflicting)
    else (mapped, unmapped, auto_detected ++ [info], conflicting)
  else
    (mapped ++ [info], unmapped, auto_detected,
     if (1 <? length folder_rules)%nat
     then conflicting ++ [(name, length folder_rules)] else conflicting).

Definition quality_step (q : rule_quality) (rule : RoutingRule.t)
  : rule_quality :=
  let criteria_count := RoutingRule.get_criteria_count rule in
  if (3 <=? criteria_count)%nat
  then {| good := good q + 1; fair := fair q; poor := poor q |}
  else if (1 <=? criteria_count)%nat
  then {| good := good q; fair := fair q + 1; poor := poor q |}
  else {| good := good q; fair := fair q; poor := poor q + 1 |}.

(** [analyze_routing_setup]; [None] is the dictionary with only an
    ["error"] that the handler returns *)
Definition analyze_routing_setup (cfg : ConfigManager.t)
    (m : ConfigManager.media) (printer : string) (folders : list string)
  : option routing_analysis :=
  let routing_rules_opt :=
    match ConfigManager.get_routing_rules cfg printer with
    | ConfigManager.PrinterRules routing_rules_data =>
        Some (map RoutingRule.from_dict routing_rules_data)
    | ConfigManager.AllRules rules =>
        (* iterating the mapping yields its keys, on which [from_dict]
           raises *)
        if decide (rules = ∅) then Some [] else None
    end in
  match routing_rules_opt with
  | None => None
  | Some routing_rules =>
      let '(mapped, unmapped, auto_detected, conflicting) :=
        foldl (folder_step routing_rules) ([], [], [], []) folders in
      Some
        {| an_printer := printer;
           total_folders := length folders;
           total_rules := length routing_rules;
           mapped_folders := mapped;
           unmapped_folders := unmapped;
           auto_detected_folders := auto_detected;
           conflicting_rules := conflicting;
           coverage_gaps := find_coverage_gaps m routing_rules printer;
           quality :=
             foldl quality_step {| good := 0; fair := 0; poor := 0 |}
               routing_rules |}
  end.

End RoutingEngine.

(** ** A concrete file system and configuration, for examples

    The state is the set of paths that exist; [makedirs] adds the path,
    [copy2] fails when the source is missing and adds the destination
    otherwise; paths are joined with a slash. *)

Module Example.

#[global] Instance set_fs : FileSystem (gset string) := {|
  path_exists fs p := bool_decide (p ∈ fs);
  makedirs fs p := (None, {[p]} ∪ fs);
  copy2 fs src dst :=
    if bool_decide (src ∈ fs) then (None, {[dst]} ∪ fs)
    else (Some (OtherError "No such file or directory"), fs)
|}.

Definition join (a b : string) : string := a +:+ "/" +:+ b.

Definition rule (target priority : string) (criteria : list (string * string))
  : RoutingRule.data :=
  {| RoutingRule.d_target_folder := Some target;
     RoutingRule.d_priority := Some priority;
     RoutingRule.d_criteria := Some (list_to_map criteria);
     RoutingRule.d_auto_generated := None |}.

Definition matte_job : Job.t :=
  {| Job.job_prefix := "TIT"; Job.job_suffix := "1001";
     Job.client := "Acme Corp"; Job.file_path := "/in/art.pdf";
     Job.size_w := "24"; Job.size_h := "36"; Job.quantity := "1";
     Job.printer := "Canon"; Job.print_mode := "Roll"; Job.ssds_mode := "SS";
     Job.media_group := "Vinyl"; Job.media := "Glossy";
     Job.job_type := "Standard";
     Job.bleed := "None"; Job.registration := "None"; Job.rotation := "None";
     Job.finish := "Matte"; Job.grommets := "None";
     Job.pole_pockets := "None"; Job.mirror := "No"; Job.custom_text := "";
     Job.inject_metadata := true; Job.quickset_override := false;
     Job.quickset := "QuickSet1" |}.

Definition config (rules : list RoutingRule.data) (art : list (string * string))
    (enable : bool) : ConfigManager.t :=
  {| ConfigManager.client_list := ["Acme Corp"];
     ConfigManager.printers :=
       [("Canon", {| ConfigManager.display_name := Some "Canon";
                     ConfigManager.types := ["Roll"; "Flatbed"];
                     ConfigManager.active := Some true |})];
     ConfigManager.hotfolder_root := "/hot";
     ConfigManager.art_root_path := "/art";
     ConfigManager.client_art_folders := list_to_map art;
     ConfigManager.enable_art_copy := enable;
     ConfigManager.routing_rules := {["Canon" := rules]} |}.

End Example.

(** ** Predicates and measures used in the statements *)

(** the rules that match, with their positions, in configured order *)
Definition matching_of (rules : list RoutingRule.data) (job : Job.t)
  : list (nat * RoutingRule.t) :=
  List.filter (λ ir, RoutingRule.matches_job ir.2 job)
    (imap pair (map RoutingRule.from_dict rules)).

Section block_predicates.
Variables a b : list ascii.

(** [a[i:i+k] == b[j:j+k]], both slices in range *)
Definition is_match (i j k : nat) : Prop :=
  ∀ d, d < k → ∃ x, a !! (i + d) = Some x ∧ b !! (j + d) = Some x.

(** a block lying inside the region [(alo, ahi, blo, bhi)] *)
Definition good_block (alo ahi blo bhi : nat) (m : Difflib.Match) : Prop :=
  alo ≤ m.1.1 ∧ m.1.1 + m.2 ≤ ahi ∧ blo ≤ m.1.2 ∧ m.1.2 + m.2 ≤ bhi
  ∧ is_match m.1.1 m.1.2 m.2.

(** the entries of [j2len]: matches ending just before position [i] of [a] *)
Definition row_ok (alo blo bhi i : nat) (j2len : gmap nat nat) : Prop :=
  ∀ j k, j2len !! j = Some k →
    1 ≤ k ∧ alo + k ≤ i ∧ blo + k ≤ j + 1 ∧ j < bhi
    ∧ is_match (i - k) (j + 1 - k) k.

(** [a[alo:ahi] == b[blo:bhi]] *)
Definition same_slices (r : Difflib.Region) : Prop :=
  let '(alo, ahi, blo, bhi) := r in
  ahi - alo = bhi - blo
  ∧ ∀ d, d < ahi - alo → a !! (alo + d) = b !! (blo + d).

End block_predicates.

(** the lengths of the two slices of a queue entry, what the entry can
    hold at most, and what filling it entirely takes *)
Definition span_a (r : Difflib.Region) : nat := let '(alo, ahi, blo, bhi) := r in ahi - alo.
Definition span_b (r : Difflib.Region) : nat := let '(alo, ahi, blo, bhi) := r in bhi - blo.
Definition cap (r : Difflib.Region) : nat := span_a r `min` span_b r.
Definition need (r : Difflib.Region) : nat := span_a r `max` span_b r.

Definition region_wf (r : Difflib.Region) : Prop :=
  let '(alo, ahi, blo, bhi) := r in alo ≤ ahi ∧ blo ≤ bhi.

Definition total (ms : list Difflib.Match) : nat := sum_list_with Difflib.size_of ms.

(** what the loop over the folders has established after [processed] *)
Definition loop_inv (score : string → Qc) (processed : list string) (st : option string * Qc) : Prop :=
  match st.1 with
  | None => st.2 = 0%Qc ∧ ∀ f, f ∈ processed → (score f ≤ RoutingEngine.threshold)%Qc
  | Some b =>
      st.2 = score b ∧ (RoutingEngine.threshold < score b)%Qc
      ∧ ∃ pre post,
          processed = pre ++ b :: post
          ∧ (∀ f, f ∈ pre → (score f < score b)%Qc)
          ∧ (∀ f, f ∈ post → (score f ≤ score b)%Qc)
  end.

(** what the body of the client loop records for one client *)
Definition client_entry (path_join : string → string → string)
    (cfg : ConfigManager.t) (folders : list string)
    (client : string) : option RoutingEngine.match_info :=
  if bool_decide (is_Some (ConfigManager.client_art_folders cfg !! client))
  then None
  else
    match RoutingEngine.best_match_loop (RoutingEngine.similarity client) folders with
    | (Some best, best_ratio) =>
        if Py.truthy best
        then Some {| RoutingEngine.folder := best; RoutingEngine.ratio := best_ratio;
                     RoutingEngine.full_path := path_join (ConfigManager.art_root_path cfg) best |}
        else None
    | (None, _) => None
    end.

(** ** Terms used in the statements on configuration, dry run, analysis,
    sanitizing and detection *)

Section statement_terms.
Import ConfigManager RoutingEngine.

(** the display name of an entry of [printers] *)
Definition display_of (fp : string * printer_data) : string :=
  default fp.1 (display_name fp.2).

(** the ten criteria every job offers, before the unset ones are dropped *)
Definition base_criteria (j : Job.t) : list (string * string) :=
  [ ("Print Mode", Job.print_mode j); ("Media Group", Job.media_group j);
    ("Job Type", Job.job_type j); ("Bleed", Job.bleed j);
    ("Registration", Job.registration j); ("Rotation", Job.rotation j);
    ("Finish", Job.finish j); ("Grommets", Job.grommets j);
    ("Pole Pockets", Job.pole_pockets j); ("Mirror", Job.mirror j) ].

(** the entry of [matching_rules] for a rule and its position *)
Definition info_of (ir : nat * RoutingRule.t) : matching_rule :=
  {| m_index := ir.1;
     m_target_folder := RoutingRule.target_folder ir.2;
     m_criteria := RoutingRule.criteria ir.2;
     m_priority := RoutingRule.priority ir.2 |}.

(** the number of rules that target a folder, and the entry the folder
    loop builds for it *)
Definition rules_for (rules : list RoutingRule.t) (name : string) : nat :=
  length (List.filter
            (λ rule, bool_decide (RoutingRule.target_folder rule = name)) rules).

Definition info_for (rules : list RoutingRule.t) (name : string) : folder_info :=
  {| f_folder := name; f_rules := rules_for rules name;
     f_detected := detect_folder_attributes name |}.

(** what [analyze_routing_setup] reports, given the rules it read *)
Definition describes (m : ConfigManager.media) (printer : string)
    (folders : list string) (rules : list RoutingRule.t)
    (a : routing_analysis) : Prop :=
  total_rules a = length rules
  ∧ total_folders a = length folders
  ∧ length (mapped_folders a) + length (unmapped_folders a)
    + length (auto_detected_folders a) = total_folders a
  ∧ mapped_folders a =
      map (info_for rules)
        (List.filter (λ n, negb (rules_for rules n =? 0)%nat) folders)
  ∧ unmapped_folders a =
      List.filter (λ n, (rules_for rules n =? 0)%nat
                        && bool_decide (detect_folder_attributes n = ∅))
        folders
  ∧ auto_detected_folders a =
      map (info_for rules)
        (List.filter
           (λ n, (rules_for rules n =? 0)%nat
                 && negb (bool_decide (detect_folder_attributes n = ∅)))
           folders)
  ∧ conflicting_rules a =
      map (λ n, (n, rules_for rules n))
        (List.filter (λ n, (1 <? rules_for rules n)%nat) folders)
  ∧ good (quality a) + fair (quality a) + poor (quality a)
    = total_rules a
  ∧ good (quality a) = length (List.filter RoutingRule.is_specific rules)
  ∧ poor (quality a) =
      length (List.filter
                (λ r, bool_decide (RoutingRule.criteria r = ∅)) rules)
  ∧ coverage_gaps a = find_coverage_gaps m rules printer.

(** the characters that [sanitize_component] replaces *)
Definition replaced_chars : list ascii :=
  [" "; "&"; "/"; "092"; ":"; "*"; "?"; "034"; "<"; ">"; "|"]%char.

(** the attribute pairs that [detect_folder_attributes] can produce *)
Definition detectable : list (string * string) :=
  [ ("Bleed", "Bleed"); ("Rotation", "90 CW");
    ("Registration", "iCut"); ("Registration", "Graphtec");
    ("Finish", "Matte"); ("Finish", "Glossy");
    ("Grommets", "Corners"); ("Grommets", "Top"); ("Grommets", "Bottom");
    ("Grommets", "Sides"); ("Grommets", "All");
    ("Pole Pockets", "Top & Bottom"); ("Pole Pockets", "Top");
    ("Pole Pockets", "Bottom"); ("Pole Pockets", "Sides");
    ("Mirror", "Yes");
    ("Print Mode", "Flatbed"); ("Print Mode", "Roll");
    ("Job Type", "Rush");
    ("Media Group", "Vinyl"); ("Media Group", "Banner");
    ("Media Group", "Paper") ].

(** a job whose attributes are those of the mapping, the others keeping
    the defaults of [Job] *)
Definition job_with (attrs : gmap string string) : Job.t :=
  {| Job.job_prefix := Job.job_prefix Job.default;
     Job.job_suffix := Job.job_suffix Job.default;
     Job.client := Job.client Job.default;
     Job.file_path := Job.file_path Job.default;
     Job.size_w := Job.size_w Job.default;
     Job.size_h := Job.size_h Job.default;
     Job.quantity := Job.quantity Job.default;
     Job.printer := Job.printer Job.default;
     Job.print_mode := default "Roll" (attrs !! "Print Mode");
     Job.ssds_mode := Job.ssds_mode Job.default;
     Job.media_group := default "Vinyl" (attrs !! "Media Group");
     Job.media := Job.media Job.default;
     Job.job_type := default "Standard" (attrs !! "Job Type");
     Job.bleed := default "None" (attrs !! "Bleed");
     Job.registration := default "None" (attrs !! "Registration");
     Job.rotation := default "None" (attrs !! "Rotation");
     Job.finish := default "Glossy" (attrs !! "Finish");
     Job.grommets := default "None" (attrs !! "Grommets");
     Job.pole_pockets := default "None" (attrs !! "Pole Pockets");
     Job.mirror := default "No" (attrs !! "Mirror");
     Job.custom_text := Job.custom_text Job.default;
     Job.inject_metadata := Job.inject_metadata Job.default;
     Job.quickset_override := Job.quickset_override Job.default;
     Job.quickset := Job.quickset Job.default |}.

(** the messages of [validate] that do not depend on the entries of the
    criteria, and the message on an entry *)
Definition validate_head_errors (r : RoutingRule.t) : list string :=
  ((if Py.all_space (RoutingRule.target_folder r)
    then ["Target folder is required"] else [])
   ++ (if decide (RoutingRule.criteria r = ∅)
       then ["At least one criteria is required"] else []))
  ++ (if bool_decide (RoutingRule.priority r ∈ ["High"; "Normal"; "Low"])
      then [] else ["Priority must be High, Normal, or Low"]).

Definition msg_empty_value (k : string) : string :=
  "Criteria '" +:+ k +:+ "' has empty value".

End statement_terms.

(** * Theorems *)

Section routing_rule_facts.
Implicit Types (r : RoutingRule.t) (j : Job.t).

Lemma criteria_loop_spec (jc : gmap string string) items :
  RoutingRule.criteria_loop jc items = true ↔
  ∀ k v, (k, v) ∈ items → jc !! k = Some v.
Proof.
  induction items as [|[k v] rest IH]; simpl.
  - split; [intros _ k v H; inversion H | done].
  - destruct (decide (jc !! k ≠ Some v)) as [Hne|Heq].
    + split; [done|]. intros H. exfalso. apply Hne, H. left.
    + apply dec_stable in Heq. rewrite IH. split.
      * intros H k' v' Hin. apply elem_of_cons in Hin as [[= -> ->]|Hin]; auto.
      * intros H k' v' Hin. apply H. by right.
Qed.

Lemma matches_job_spec r j :
  RoutingRule.matches_job r j = true ↔
  RoutingRule.criteria r ≠ ∅ ∧
  ∀ k v, RoutingRule.criteria r !! k = Some v →
         Job.get_routing_criteria j !! k = Some v.
Proof.
unfold RoutingRule.matches_job.
destruct (decide (RoutingRule.criteria r = ∅)) as [He|Hne].
- split; [done | by intros [? _]].
- rewrite criteria_loop_spec. split.
  + intros H. split; [done|]. intros k v Hkv.
    apply H. by apply elem_of_map_to_list.
  + intros [_ H] k v Hin. apply H. by apply elem_of_map_to_list.
Qed.

(** C1: a rule matches a job iff its criteria mapping is non-empty and each
    of its entries occurs, with the same value, in the job's derived
    criteria; what else the job's criteria contain plays no role, and a
    rule without criteria matches no job. *)
Theorem matches_job_iff_subset r j :
  (RoutingRule.matches_job r j = true ↔
     RoutingRule.criteria r ≠ ∅ ∧
     ∀ k v, RoutingRule.criteria r !! k = Some v →
            Job.get_routing_criteria j !! k = Some v)
  ∧ (∀ j', (∀ k, is_Some (RoutingRule.criteria r !! k) →
            Job.get_routing_criteria j' !! k = Job.get_routing_criteria j !! k) →
           RoutingRule.matches_job r j' = RoutingRule.matches_job r j)
  ∧ (RoutingRule.criteria r = ∅ → RoutingRule.matches_job r j = false).
Proof.
split; [apply matches_job_spec|]. split.
- intros j' Hagree.
  destruct (RoutingRule.matches_job r j) eqn:Hm.
  + apply matches_job_spec. apply matches_job_spec in Hm as [Hne Hm].
    split; [done|]. intros k v Hkv. rewrite Hagree by eauto. auto.
  + destruct (RoutingRule.matches_job r j') eqn:Hm'; [|done].
    rewrite <- Hm. symmetry. apply matches_job_spec.
    apply matches_job_spec in Hm' as [Hne Hm'].
    split; [done|]. intros k v Hkv. rewrite <- Hagree by eauto. auto.
- intros He. unfold RoutingRule.matches_job. by rewrite decide_True.
Qed.

End routing_rule_facts.




Section sentinel_values.
Implicit Types (r : RoutingRule.t) (j : Job.t).

Lemma kept_value_not_sentinel v :
  Job.kept_value v = true → v ∉ ["None"; "No"; ""].
Proof.
  unfold Job.kept_value. intros [_ H]%andb_prop.
  apply negb_true_iff, bool_decide_eq_false in H. exact H.
Qed.

Lemma get_routing_criteria_kept j k v :
  Job.get_routing_criteria j !! k = Some v → v ∉ ["None"; "No"; ""].
Proof.
  unfold Job.get_routing_criteria. intros H.
  apply map_lookup_filter_Some in H as [_ H]. simpl in H.
  by apply kept_value_not_sentinel.
Qed.

Lemma validate_single_sentinel k v :
  v = "None" ∨ v = "No" →
  RoutingRule.validate
    {| RoutingRule.target_folder := "Folder";
       RoutingRule.priority := "Normal";
       RoutingRule.criteria := {[k := v]};
       RoutingRule.auto_generated := false |} = (true, []).
Proof.
  intros Hv. unfold RoutingRule.validate. simpl.
  rewrite map_to_list_singleton.
  destruct (decide (({[k := v]} : gmap string string) = ∅)) as [He|_].
  { exfalso. by apply (map_non_empty_singleton k v). }
  destruct Hv as [-> | ->]; reflexivity.
Qed.

(** C9: a rule with a criterion whose required value is "None", "No" or
    the empty string matches no job, because the job's derived criteria
    never hold such a value; yet validation accepts a rule whose only
    criterion requires "None" or "No". *)
Theorem sentinel_criterion_never_matches r j k v :
  RoutingRule.criteria r !! k = Some v →
  v ∈ ["None"; "No"; ""] →
  RoutingRule.matches_job r j = false
  ∧ (∀ k' v', Job.get_routing_criteria j !! k' = Some v' →
              v' ∉ ["None"; "No"; ""])
  ∧ (v ≠ "" →
     RoutingRule.validate
       {| RoutingRule.target_folder := "Folder";
          RoutingRule.priority := "Normal";
          RoutingRule.criteria := {[k := v]};
          RoutingRule.auto_generated := false |} = (true, [])).
Proof.
  intros Hkv Hv. split; [|split].
  - destruct (RoutingRule.matches_job r j) eqn:Hm; [|done].
    apply matches_job_spec in Hm as [_ Hm].
    apply Hm in Hkv. by apply get_routing_criteria_kept in Hkv.
  - apply get_routing_criteria_kept.
  - intros Hne. apply validate_single_sentinel.
    rewrite !elem_of_cons, elem_of_nil in Hv. tauto.
Qed.

Lemma sentinel_criterion_never_matches_witness :
  RoutingRule.matches_job
    (RoutingRule.from_dict (Example.rule "Plain" "High" [("Bleed", "None")]))
    Example.matte_job = false.
Proof.
  refine (proj1 (sentinel_criterion_never_matches _ _ "Bleed" "None" _ _)).
  - vm_compute. reflexivity.
  - repeat constructor.
Defined.

End sentinel_values.

Section filename_facts.
Import FilenameGenerator.

Lemma generate_step_survives today job_data flags acc key :
  generate_step (build_parts_map today job_data) flags acc key =
  if spec_survives today job_data flags key
  then acc ++ [clean_part (resolved today job_data key)]
  else acc.
Proof.
  unfold generate_step, spec_survives, resolved.
  set (part := default "" (build_parts_map today job_data !! key)).
  clearbody part.
  destruct (default true (flags !! key)); simpl; [|done].
  unfold Py.truthy.
  assert (Hlow : Py.lower part = "" → part = "")
    by (destruct part; [done|discriminate]).
  repeat case_bool_decide; simpl; try reflexivity; exfalso;
    repeat match goal with
      | H : _ ∈ _ |- _ => rewrite !elem_of_cons, elem_of_nil in H
      | H : ¬ (_ ∈ _) |- _ => rewrite !elem_of_cons, elem_of_nil in H
      end; tauto.
Qed.

Lemma generate_loop_filter today job_data flags order acc :
  foldl (generate_step (build_parts_map today job_data) flags) acc order =
  acc ++ map (λ key, clean_part (resolved today job_data key))
             (List.filter (spec_survives today job_data flags) order).
Proof.
  revert acc. induction order as [|key order IH]; intros acc; simpl.
  - by rewrite app_nil_r.
  - rewrite generate_step_survives, IH.
    destruct (spec_survives today job_data flags key); simpl; [|done].
    by rewrite <- app_assoc.
Qed.

(** C4: [generate] keeps exactly the components whose include flag is true
    (true when absent), whose value is non-empty and is neither "none" nor
    "no" in any case, and which are not the size component with value "x";
    the kept values, spaces turned into underscores and "&" into "and", are
    joined by single underscores in iteration order and ".pdf" is appended;
    with nothing kept the result is "untitled.pdf". *)
Theorem generate_refines_spec today job_data components_order include_flags :
  generate today job_data components_order include_flags =
  spec_generate today job_data components_order include_flags.
Proof.
  unfold generate, spec_generate.
  rewrite generate_loop_filter. simpl.
  destruct (List.filter _ components_order); reflexivity.
Qed.

End filename_facts.

Section validate_filename_facts.
Import FilenameGenerator.

Lemma invalid_char_loop filename chars issues :
  foldl (λ issues char,
           if Py.contains (char_str char) filename
           then issues ++ [msg_invalid_char char] else issues)
        issues chars =
  issues ++ map msg_invalid_char
              (List.filter (λ c, Py.contains (char_str c) filename) chars).
Proof.
  revert issues. induction chars as [|c chars IH]; intros issues; simpl.
  - by rewrite app_nil_r.
  - rewrite IH. destruct (Py.contains (char_str c) filename); simpl; [|done].
    by rewrite <- app_assoc.
Qed.

(** [validate_filename] returns every flag that applies, in the order of the
    checks, the reserved-name flag being computed on the name with every
    occurrence of ".pdf" removed. *)
Lemma validate_filename_all_issues filename :
  validate_filename filename =
  (bool_decide (code_issues filename = []), code_issues filename).
Proof.
  unfold validate_filename, code_issues, Py.truthy, Py.len, default_extension.
  destruct (decide (filename = "")) as [->|Hne].
  { vm_compute. reflexivity. }
  rewrite !(bool_decide_eq_false_2 (filename = "")) by done. simpl negb. cbv iota.
  rewrite invalid_char_loop.
  set (issues := _ ++ _ ++ _). simpl app at 1.
  assert (Hlen : ∀ l : list string,
             bool_decide (length l = 0) = bool_decide (l = [])).
  { intros [|x l]; reflexivity. }
  rewrite Hlen. f_equal.
  all: subst issues;
    repeat match goal with
      | |- context [if ?b then _ else _] => destruct b
      end;
    simpl; rewrite <- ?app_assoc; simpl; rewrite ?app_nil_r; reflexivity.
Qed.

(** C7 (evaluation at the failing input): on "CO.pdfN.pdf" the code removes
    both occurrences of ".pdf", obtains "CON" and reports a reserved name,
    although the name with its extension stripped is "CO.pdfN" and none of
    the flags of the specification applies. *)
Theorem validate_filename_removes_inner_extension :
  validate_filename "CO.pdfN.pdf" = (false, ["'CON' is a reserved filename"])
  ∧ spec_base_name "CO.pdfN.pdf" = "CO.pdfN"
  ∧ spec_issues "CO.pdfN.pdf" = [].
Proof. vm_compute. auto. Qed.

(** Where removing every occurrence of ".pdf" and stripping the extension
    give the same base name, [validate_filename] returns exactly the flags
    of the specification. *)
Lemma validate_filename_spec_issues filename :
  Py.replace ".pdf" "" filename = spec_base_name filename →
  validate_filename filename =
  (bool_decide (spec_issues filename = []), spec_issues filename).
Proof.
intros Hbase. rewrite validate_filename_all_issues.
unfold code_issues, spec_issues. by rewrite Hbase.
Qed.

(** the examples of the specification *)
Lemma validate_filename_examples :
  (validate_filename "CON.pdf").2 = ["'CON' is a reserved filename"]
  ∧ (validate_filename "a<b.pdf").2 = ["Contains invalid character: '<'"]
  ∧ (validate_filename "a__b?.pdf").2 =
      ["Contains invalid character: '?'";
       "Contains double underscores (possible missing data)"].
Proof. vm_compute. auto. Qed.

End validate_filename_facts.

Section strip_facts.

Lemma lstrip_all_space s : Py.all_space (Py.lstrip s) = Py.all_space s.
Proof.
  induction s as [|c s IH]; simpl; [done|].
  destruct (Py.is_space c) eqn:Hc; simpl; [done|]. by rewrite Hc.
Qed.

Lemma lstrip_empty_iff s : Py.lstrip s = "" ↔ Py.all_space s = true.
Proof.
  induction s as [|c s IH]; simpl; [done|].
  destruct (Py.is_space c); simpl; [done|]. split; discriminate.
Qed.

Lemma rev_app_all_space s acc :
  Py.all_space (String.rev_app s acc) = Py.all_space s && Py.all_space acc.
Proof.
  revert acc. induction s as [|c s IH]; intros acc; simpl; [done|].
  rewrite IH. simpl. destruct (Py.is_space c), (Py.all_space s); done.
Qed.

Lemma rev_app_empty s acc : String.rev_app s acc = "" → s = "" ∧ acc = "".
Proof.
  revert acc. induction s as [|c s IH]; intros acc; simpl; [done|].
  intros H. apply IH in H as [_ H]. discriminate.
Qed.

Lemma rstrip_empty_iff s : Py.rstrip s = "" ↔ Py.all_space s = true.
Proof.
  unfold Py.rstrip, String.rev. split.
  - intros H. apply rev_app_empty in H as [H _].
    apply lstrip_empty_iff in H. rewrite rev_app_all_space in H.
    by apply andb_prop in H as [H _].
  - intros H.
    assert (Hl : Py.lstrip (String.rev_app s "") = "").
    { apply lstrip_empty_iff. rewrite rev_app_all_space, H. done. }
    by rewrite Hl.
Qed.

(** [s.strip()] is empty exactly for an empty or whitespace-only [s] *)
Lemma strip_empty_iff s : Py.strip s = "" ↔ Py.all_space s = true.
Proof.
  unfold Py.strip. rewrite rstrip_empty_iff. by rewrite lstrip_all_space.
Qed.

(** the test [not s or not s.strip()] *)
Lemma blank_test s :
  negb (Py.truthy s) || negb (Py.truthy (Py.strip s)) = Py.all_space s.
Proof.
  unfold Py.truthy. rewrite !negb_involutive.
  destruct (Py.all_space s) eqn:Hs.
  - apply strip_empty_iff in Hs. rewrite (bool_decide_eq_true_2 _ Hs).
    apply orb_true_r.
  - assert (Py.strip s ≠ "").
    { intros H%strip_empty_iff. congruence. }
    assert (s ≠ "") by (intros ->; discriminate).
    by rewrite !bool_decide_eq_false_2.
Qed.

End strip_facts.

Section process_file_facts.
Context {FS : Type} `{!FileSystem FS}.
Variable path_join : string → string → string.
Import RoutingEngine.

Lemma route_to_hotfolder_success cfg (fs : FS) file_path name job :
  ∃ b, success (route_to_hotfolder path_join cfg fs file_path name job).1 = Some b.
Proof.
  unfold route_to_hotfolder.
  repeat match goal with
    | |- context [if ?b then _ else _] => destruct b
    | |- context [match ?x with (_, _) => _ end] => destruct x as [[[]|] ?]
    end; simpl; eauto.
Qed.

Lemma copy_to_client_art_folder_none cfg (fs : FS) file_path name job :
  success (copy_to_client_art_folder path_join cfg fs file_path name job).1 = None
  ↔ Py.all_space (Job.client job) = true
    ∨ ConfigManager.client_art_folders cfg !! Job.client job = None.
Proof.
  unfold copy_to_client_art_folder, ConfigManager.get_client_art_folders.
  rewrite blank_test.
  destruct (Py.all_space (Job.client job)); simpl; [tauto|].
  destruct (ConfigManager.client_art_folders cfg !! Job.client job)
    as [art_folder|]; simpl; [|tauto].
  destruct (path_exists fs art_folder); simpl.
  - destruct (copy2 _ _ _) as [[[]|] ?]; simpl; split; (done || intros [|]; done).
  - split; (done || intros [|]; done).
Qed.

Lemma copy_to_client_art_folder_missing cfg (fs : FS) file_path name job art_folder :
  Py.all_space (Job.client job) = false →
  ConfigManager.client_art_folders cfg !! Job.client job = Some art_folder →
  path_exists fs art_folder = false →
  (copy_to_client_art_folder path_join cfg fs file_path name job).1 =
    {| success := Some false; path := None;
       error := Some ("Client art folder doesn't exist: " +:+ art_folder) |}.
Proof.
  intros Hc Hm He.
  unfold copy_to_client_art_folder, ConfigManager.get_client_art_folders.
  by rewrite blank_test, Hc, Hm, He.
Qed.

(** C5: the art-copy step of [process_file] reports success [None] exactly
    when art copy is disabled (the step is then not run: the reported
    result is the initial one and the file system is the one the hotfolder
    step left), when the client is empty or whitespace-only, or when the
    client has no art-folder mapping; with a mapping to a folder that does
    not exist it reports success [False] and an error message. *)
Theorem art_copy_not_applicable cfg (fs : FS) file_path name job :
  let out := process_file path_join cfg fs file_path name job in
  let fs1 := (route_to_hotfolder path_join cfg fs file_path name job).2 in
  (success (art_copy out.1) = None ↔
     ConfigManager.enable_art_copy cfg = false
     ∨ Py.all_space (Job.client job) = true
     ∨ ConfigManager.client_art_folders cfg !! Job.client job = None)
  ∧ (ConfigManager.enable_art_copy cfg = false →
     art_copy out.1 = not_applicable ∧ out.2 = fs1)
  ∧ (∀ art_folder,
       ConfigManager.enable_art_copy cfg = true →
       Py.all_space (Job.client job) = false →
       ConfigManager.client_art_folders cfg !! Job.client job = Some art_folder →
       path_exists fs1 art_folder = false →
       success (art_copy out.1) = Some false
       ∧ error (art_copy out.1) =
           Some ("Client art folder doesn't exist: " +:+ art_folder)).
Proof.
  unfold process_file, ConfigManager.is_art_copy_enabled.
  destruct (route_to_hotfolder path_join cfg fs file_path name job)
    as [hot fs1] eqn:Hhot.
  destruct (ConfigManager.enable_art_copy cfg) eqn:Hen; simpl.
  - destruct (copy_to_client_art_folder path_join cfg fs1 file_path name job)
      as [art fs2] eqn:Hart. simpl.
    pose proof (copy_to_client_art_folder_none cfg fs1 file_path name job) as Hn.
    rewrite Hart in Hn. simpl in Hn.
    split; [|split].
    + rewrite Hn. split; [tauto|]. intros [|]; [done|tauto].
    + done.
    + intros art_folder _ Hc Hm He.
      pose proof (copy_to_client_art_folder_missing cfg fs1 file_path name job
                    art_folder Hc Hm He) as Hmiss.
      rewrite Hart in Hmiss. simpl in Hmiss. by subst art.
  - split; [|split]; [split; auto | done | done].
Qed.

(** C10: when the hotfolder step reports success [False] and the art-copy
    step is not run or reports [None], the overall success of
    [process_file] is [None], not [False]: it is the value of
    [hotfolder success or art-copy success]. *)
Theorem overall_success_none cfg (fs : FS) file_path name job :
  let r := (process_file path_join cfg fs file_path name job).1 in
  success (hotfolder r) = Some false →
  ConfigManager.enable_art_copy cfg = false ∨ success (art_copy r) = None →
  overall_success r = None
  ∧ overall_success r = py_or (success (hotfolder r)) (success (art_copy r)).
Proof.
  unfold process_file, ConfigManager.is_art_copy_enabled.
  destruct (route_to_hotfolder path_join cfg fs file_path name job)
    as [hot fs1] eqn:Hhot.
  destruct (ConfigManager.enable_art_copy cfg) eqn:Hen; simpl.
  - destruct (copy_to_client_art_folder path_join cfg fs1 file_path name job)
      as [art fs2]. simpl.
    intros -> [ | -> ]; done.
  - intros -> _. done.
Qed.

End process_file_facts.

Lemma overall_success_none_witness :
  RoutingEngine.overall_success
    (RoutingEngine.process_file (FS := gset string) Example.join
       (Example.config [] [] true) {["/in/art.pdf"]}
       "/in/art.pdf" "TIT1001.pdf" Example.matte_job).1 = None.
Proof.
  refine (proj1 (overall_success_none Example.join _ _ _ _ _ _ _)).
  - vm_compute. reflexivity.
  - right. vm_compute. reflexivity.
Defined.


Section priority_sort.
Import RoutingEngine.
Implicit Types (x y : nat * RoutingRule.t) (l : list (nat * RoutingRule.t)).

Lemma insert_by_weight_perm x l : insert_by_weight x l ≡ₚ x :: l.
Proof.
induction l as [|y l IH]; simpl; [done|].
destruct (weight_of x <? weight_of y)%nat; [|done].
rewrite IH. apply Permutation_swap.
Qed.

Lemma sort_by_priority_perm l : sort_by_priority l ≡ₚ l.
Proof.
induction l as [|x l IH]; simpl; [done|].
rewrite insert_by_weight_perm. by rewrite IH.
Qed.

Lemma insert_by_weight_sorted x l :
  StronglySorted (λ a b, weight_of b ≤ weight_of a) l →
  StronglySorted (λ a b, weight_of b ≤ weight_of a) (insert_by_weight x l).
Proof.
induction 1 as [|y l Hs IH Hall]; simpl.
- repeat constructor.
- destruct (weight_of x <? weight_of y)%nat eqn:Hlt.
  + apply Nat.ltb_lt in Hlt. constructor; [done|].
    rewrite insert_by_weight_perm. constructor; [lia|done].
  + apply Nat.ltb_ge in Hlt. constructor; [by constructor|].
    constructor; [done|].
    eapply Forall_impl; [exact Hall|]. simpl. intros z Hz. lia.
Qed.

Lemma sort_by_priority_sorted l :
  StronglySorted (λ a b, weight_of b ≤ weight_of a) (sort_by_priority l).
Proof.
induction l as [|x l IH]; simpl; [constructor|].
by apply insert_by_weight_sorted.
Qed.

Lemma insert_by_weight_filter (w : nat) x l :
  StronglySorted (λ a b, weight_of b ≤ weight_of a) l →
  List.filter (λ y, weight_of y =? w)%nat (insert_by_weight x l) =
  List.filter (λ y, weight_of y =? w)%nat (x :: l).
Proof.
induction 1 as [|y l Hs IH Hall]; [done|].
simpl insert_by_weight.
destruct (weight_of x <? weight_of y)%nat eqn:Hlt; [|done].
apply Nat.ltb_lt in Hlt.
change (List.filter ?f (y :: ?t)) with
  (if f y then y :: List.filter f t else List.filter f t).
rewrite IH. simpl.
destruct (weight_of x =? w)%nat eqn:Hx, (weight_of y =? w)%nat eqn:Hy; try done.
apply Nat.eqb_eq in Hx, Hy. lia.
Qed.

(** [sort_by_priority] is the stable sort by decreasing weight: its result
    is a permutation of its argument, is sorted by decreasing weight, and
    keeps the rules of each weight in their original order. *)
Lemma sort_by_priority_stable l :
  sort_by_priority l ≡ₚ l
  ∧ StronglySorted (λ a b, weight_of b ≤ weight_of a) (sort_by_priority l)
  ∧ ∀ w, List.filter (λ y, weight_of y =? w)%nat (sort_by_priority l) =
         List.filter (λ y, weight_of y =? w)%nat l.
Proof.
split; [apply sort_by_priority_perm|]. split; [apply sort_by_priority_sorted|].
intros w. induction l as [|x l IH]; [done|].
simpl sort_by_priority.
rewrite insert_by_weight_filter; [|apply sort_by_priority_sorted].
simpl. by rewrite IH.
Qed.

Lemma insert_by_weight_head x l :
  head (insert_by_weight x l) =
  match head l with
  | Some y => if (weight_of x <? weight_of y)%nat then Some y else Some x
  | None => Some x
  end.
Proof.
destruct l as [|y l]; simpl; [done|].
by destruct (weight_of x <? weight_of y)%nat.
Qed.

(** the first element of the sorted list is the earliest element of
    greatest weight *)
Lemma sort_by_priority_head l :
  l ≠ [] →
  ∃ pre winner post,
    l = pre ++ winner :: post
    ∧ (∀ y, y ∈ pre → weight_of y < weight_of winner)
    ∧ (∀ y, y ∈ post → weight_of y ≤ weight_of winner)
    ∧ head (sort_by_priority l) = Some winner.
Proof.
induction l as [|x l IH]; [done|]. intros _.
simpl sort_by_priority. rewrite insert_by_weight_head.
destruct l as [|x' l'].
{ exists [], x, []. simpl. split; [done|]. split; [intros ? H; inversion H|].
  split; [intros ? H; inversion H|done]. }
destruct IH as (pre & winner & post & Heq & Hpre & Hpost & Hhd); [done|].
rewrite Hhd.
destruct (weight_of x <? weight_of winner)%nat eqn:Hlt.
- apply Nat.ltb_lt in Hlt.
  exists (x :: pre), winner, post. rewrite Heq. split; [done|].
  split; [|done]. intros y [->|Hy]%elem_of_cons; auto.
- apply Nat.ltb_ge in Hlt.
  exists [], x, (x' :: l'). split; [done|].
  split; [intros ? H; inversion H|]. split; [|done].
  intros y Hy. rewrite Heq in Hy.
  apply elem_of_app in Hy as [Hy|[->|Hy]%elem_of_cons].
  + apply Hpre in Hy. lia.
  + done.
  + apply Hpost in Hy. lia.
Qed.

Lemma find_matching_rules_filter rules job :
  find_matching_rules rules job =
  List.filter (λ ir, RoutingRule.matches_job ir.2 job) (imap pair rules).
Proof.
unfold find_matching_rules.
assert (H : ∀ (items acc : list (nat * RoutingRule.t)),
  foldl (λ matching_rules ir,
           if RoutingRule.matches_job ir.2 job
           then matching_rules ++ [ir] else matching_rules) acc items =
  acc ++ List.filter (λ ir, RoutingRule.matches_job ir.2 job) items).
{ induction items as [|ir items IH]; intros acc; simpl.
  - by rewrite app_nil_r.
  - rewrite IH. destruct (RoutingRule.matches_job ir.2 job); [|done].
    by rewrite <- app_assoc. }
apply H.
Qed.

Lemma get_priority_weight_values r :
  RoutingRule.get_priority_weight r =
  if decide (RoutingRule.priority r = "High") then 3
  else if decide (RoutingRule.priority r = "Low") then 1
  else 2.
Proof.
unfold RoutingRule.get_priority_weight.
destruct (decide (RoutingRule.priority r = "High")) as [->|Hh]; [done|].
destruct (decide (RoutingRule.priority r = "Low")) as [->|Hl]; [done|].
destruct (decide (RoutingRule.priority r = "Normal")) as [->|Hn]; [done|].
simpl. rewrite !lookup_insert_ne by done. by rewrite lookup_empty.
Qed.

End priority_sort.

Section determine_target_folder_facts.
Import RoutingEngine.

Lemma filter_nil_iff {A} (f : A → bool) (l : list A) :
  List.filter f l = [] ↔ ∀ x, x ∈ l → f x = false.
Proof.
induction l as [|y l IH]; simpl.
- split; [intros _ x H; inversion H|done].
- destruct (f y) eqn:Hy.
  + split; [done|]. intros H. specialize (H y (list_elem_of_here _ _)). congruence.
  + rewrite IH. split.
    * intros H x [->|Hx]%elem_of_cons; auto.
    * intros H x Hx. apply H. by right.
Qed.

Lemma determine_target_folder_printer_rules cfg job rules :
  ConfigManager.get_routing_rules cfg (Job.printer job)
    = ConfigManager.PrinterRules rules →
  determine_target_folder cfg job =
  (λ ir : nat * RoutingRule.t, RoutingRule.target_folder ir.2) <$>
    head (if (1 <? length (matching_of rules job))%nat
          then sort_by_priority (matching_of rules job)
          else matching_of rules job).
Proof.
intros Hr. unfold determine_target_folder. rewrite Hr.
destruct rules as [|d rules]; [done|].
rewrite find_matching_rules_filter. fold (matching_of (d :: rules) job).
destruct (matching_of (d :: rules) job) as [|m ms] eqn:Hm; [done|].
destruct (1 <? length (m :: ms))%nat.
- destruct (sort_by_priority (m :: ms)) as [|[i r] rest] eqn:Hs; [|done].
  pose proof (sort_by_priority_perm (m :: ms)) as Hp. rewrite Hs in Hp.
  by apply Permutation_nil_cons in Hp.
- by destruct m.
Qed.

(** For a selected printer (a non-empty name, which both callers of the
    routing engine check first) the configuration manager returns the
    printer's rule list, empty when the printer has none. *)
Lemma get_routing_rules_selected cfg printer :
  printer ≠ "" →
  ConfigManager.get_routing_rules cfg printer =
  ConfigManager.PrinterRules
    (default [] (ConfigManager.routing_rules cfg !! printer)).
Proof.
intros Hp. unfold ConfigManager.get_routing_rules, Py.truthy.
by rewrite bool_decide_eq_false_2.
Qed.

(** With an empty printer name the configuration manager hands out the
    whole mapping instead of a rule list, and no folder is determined. *)
Lemma determine_target_folder_no_printer cfg job :
  Job.printer job = "" → determine_target_folder cfg job = None.
Proof.
intros Hp. unfold determine_target_folder, ConfigManager.get_routing_rules.
rewrite Hp. simpl. by destruct (decide _).
Qed.

(** C2: when more than one rule of the printer's list matches, the result
    is the target folder of the first rule of the matching rules sorted
    stably by decreasing priority weight (High 3, Low 1, Normal and anything
    else 2); this rule is the earliest, in configured order, among the
    matching rules of greatest weight. *)
Theorem determine_target_folder_highest_priority cfg job rules :
  ConfigManager.get_routing_rules cfg (Job.printer job)
    = ConfigManager.PrinterRules rules →
  1 < length (matching_of rules job) →
  determine_target_folder cfg job =
    (λ ir : nat * RoutingRule.t, RoutingRule.target_folder ir.2) <$>
      head (sort_by_priority (matching_of rules job))
  ∧ (sort_by_priority (matching_of rules job) ≡ₚ matching_of rules job
     ∧ StronglySorted (λ a b, weight_of b ≤ weight_of a)
         (sort_by_priority (matching_of rules job))
     ∧ ∀ w, List.filter (λ y, weight_of y =? w)%nat
              (sort_by_priority (matching_of rules job)) =
            List.filter (λ y, weight_of y =? w)%nat (matching_of rules job))
  ∧ (∀ r, RoutingRule.get_priority_weight r =
          if decide (RoutingRule.priority r = "High") then 3
          else if decide (RoutingRule.priority r = "Low") then 1
          else 2)
  ∧ ∃ pre winner post,
      matching_of rules job = pre ++ winner :: post
      ∧ (∀ y, y ∈ pre → weight_of y < weight_of winner)
      ∧ (∀ y, y ∈ post → weight_of y ≤ weight_of winner)
      ∧ determine_target_folder cfg job
          = Some (RoutingRule.target_folder winner.2).
Proof.
intros Hr Hlen.
rewrite (determine_target_folder_printer_rules cfg job rules Hr).
apply Nat.ltb_lt in Hlen as Hlen'. rewrite Hlen'.
split; [done|]. split; [apply sort_by_priority_stable|].
split; [apply get_priority_weight_values|].
destruct (sort_by_priority_head (matching_of rules job))
  as (pre & winner & post & Heq & Hpre & Hpost & Hhd).
{ intros H. rewrite H in Hlen. simpl in Hlen. lia. }
exists pre, winner, post. rewrite Hhd. done.
Qed.

Lemma determine_target_folder_highest_priority_witness :
  determine_target_folder
    (Example.config
       [Example.rule "A" "Normal" [("Finish", "Matte")];
        Example.rule "B" "High" [("Finish", "Matte")]] [] true)
    Example.matte_job = Some "B".
Proof.
pose proof (determine_target_folder_highest_priority
  (Example.config
       [Example.rule "A" "Normal" [("Finish", "Matte")];
        Example.rule "B" "High" [("Finish", "Matte")]] [] true)
  Example.matte_job
  [Example.rule "A" "Normal" [("Finish", "Matte")];
   Example.rule "B" "High" [("Finish", "Matte")]]) as H.
destruct H as [H _].
- vm_compute. reflexivity.
- vm_compute. lia.
- rewrite H. vm_compute. reflexivity.
Defined.

End determine_target_folder_facts.

Section no_match_facts.
Context {FS : Type} `{!FileSystem FS}.
Variable path_join : string → string → string.
Import RoutingEngine.

Lemma matches_job_subset r job :
  RoutingRule.matches_job r job = true ↔
  RoutingRule.criteria r ≠ ∅
  ∧ RoutingRule.criteria r ⊆ Job.get_routing_criteria job.
Proof.
rewrite matches_job_spec.
by rewrite map_subseteq_spec.
Qed.

Lemma matching_of_nil_iff rules job :
  matching_of rules job = [] ↔
  ∀ r, r ∈ map RoutingRule.from_dict rules →
       RoutingRule.matches_job r job = false.
Proof.
unfold matching_of. rewrite filter_nil_iff. split.
- intros H r Hr. apply list_elem_of_lookup in Hr as [i Hi].
  apply (H (i, r)). apply elem_of_lookup_imap. eauto.
- intros H [i r] Hir. apply elem_of_lookup_imap in Hir as (i' & r' & [= -> ->] & Hl).
  simpl. apply H. apply list_elem_of_lookup. eauto.
Qed.

Lemma determine_target_folder_none_iff cfg job rules :
  ConfigManager.get_routing_rules cfg (Job.printer job)
    = ConfigManager.PrinterRules rules →
  determine_target_folder cfg job = None ↔ matching_of rules job = [].
Proof.
intros Hr. rewrite (determine_target_folder_printer_rules cfg job rules Hr).
destruct (matching_of rules job) as [|m ms] eqn:Hm; [done|].
split; [|done].
destruct (1 <? length (m :: ms))%nat; [|done].
destruct (sort_by_priority (m :: ms)) as [|x rest] eqn:Hs; [|done].
pose proof (sort_by_priority_perm (m :: ms)) as Hp. rewrite Hs in Hp.
by apply Permutation_nil_cons in Hp.
Qed.

Lemma route_to_hotfolder_path cfg (fs : FS) file_path name job p :
  path (route_to_hotfolder path_join cfg fs file_path name job).1 = Some p →
  p = path_join
        (path_join (ConfigManager.hotfolder_root cfg)
           (ConfigManager.get_printer_folder_name cfg (Job.printer job)))
        (target_or_default (determine_target_folder cfg job)).
Proof.
unfold route_to_hotfolder, ConfigManager.get_hotfolder_root.
repeat match goal with
  | |- context [if ?b then _ else _] => destruct b
  | |- context [match ?x with (_, _) => _ end] => destruct x as [[[]|] ?]
  end; simpl; congruence.
Qed.

(** C3: for the rule list of the job's printer, [determine_target_folder]
    returns [None] exactly when the list is empty, when the criteria of no
    rule are included in the job's derived criteria, or when every rule
    whose criteria are included has empty criteria; and on [None] the
    hotfolder step uses the folder "Default": whenever it reports a path,
    this is the printer folder joined with "Default". *)
Theorem determine_target_folder_none cfg job rules (fs : FS) file_path name :
  ConfigManager.get_routing_rules cfg (Job.printer job)
    = ConfigManager.PrinterRules rules →
  (determine_target_folder cfg job = None ↔
     rules = []
     ∨ (∀ r, r ∈ map RoutingRule.from_dict rules →
             ¬ RoutingRule.criteria r ⊆ Job.get_routing_criteria job)
     ∨ (∀ r, r ∈ map RoutingRule.from_dict rules →
             RoutingRule.criteria r ⊆ Job.get_routing_criteria job →
             RoutingRule.criteria r = ∅))
  ∧ (determine_target_folder cfg job = None →
     target_or_default (determine_target_folder cfg job) = "Default"
     ∧ ∀ p,
         path (route_to_hotfolder path_join cfg fs file_path name job).1 = Some p →
         p = path_join
               (path_join (ConfigManager.hotfolder_root cfg)
                  (ConfigManager.get_printer_folder_name cfg (Job.printer job)))
               "Default").
Proof.
intros Hr. split.
- rewrite (determine_target_folder_none_iff cfg job rules Hr).
  rewrite matching_of_nil_iff. split.
  + intros H. right. right. intros r Hin Hsub.
    specialize (H r Hin).
    destruct (decide (RoutingRule.criteria r = ∅)) as [|Hne]; [done|].
    assert (RoutingRule.matches_job r job = true) by by apply matches_job_subset.
    congruence.
  + intros [-> | [H | H]] r Hin.
    * inversion Hin.
    * destruct (RoutingRule.matches_job r job) eqn:Hm; [|done].
      apply matches_job_subset in Hm as [_ Hsub]. by apply H in Hsub.
    * destruct (RoutingRule.matches_job r job) eqn:Hm; [|done].
      apply matches_job_subset in Hm as [Hne Hsub]. by apply H in Hsub.
- intros Hnone. rewrite Hnone. split; [done|].
  intros p Hp. apply route_to_hotfolder_path in Hp. by rewrite Hnone in Hp.
Qed.

End no_match_facts.

Lemma determine_target_folder_none_witness :
  RoutingEngine.determine_target_folder
    (Example.config [Example.rule "Gloss" "High" [("Finish", "Glossy")]] [] true)
    Example.matte_job = None
  ∧ RoutingEngine.path
      (RoutingEngine.process_file (FS := gset string) Example.join
         (Example.config [Example.rule "Gloss" "High" [("Finish", "Glossy")]] [] true)
         {["/hot"; "/hot/Canon"; "/in/art.pdf"]}
         "/in/art.pdf" "TIT1001.pdf" Example.matte_job).1.(RoutingEngine.hotfolder)
    = Some "/hot/Canon/Default".
Proof.
pose proof (determine_target_folder_none (FS := gset string) Example.join
  (Example.config [Example.rule "Gloss" "High" [("Finish", "Glossy")]] [] true)
  Example.matte_job
  [Example.rule "Gloss" "High" [("Finish", "Glossy")]]
  {["/hot"; "/hot/Canon"; "/in/art.pdf"]} "/in/art.pdf" "TIT1001.pdf") as H.
destruct H as [H _].
- vm_compute. reflexivity.
- split.
  + apply H. right. left. intros r Hr Hsub.
    apply list_elem_of_singleton in Hr. subst r.
    rewrite map_subseteq_spec in Hsub.
    specialize (Hsub "Finish" "Glossy"). vm_compute in Hsub.
    specialize (Hsub eq_refl). discriminate.
  + vm_compute. reflexivity.
Defined.

Section best_match_facts.
Import RoutingEngine.
Variable score : string → Qc.

Lemma threshold_pos : (0 < threshold)%Qc.
Proof. reflexivity. Qed.

Lemma loop_inv_step processed st f :
  loop_inv score processed st →
  loop_inv score (processed ++ [f]) (best_match_step score st f).
Proof.
destruct st as [bm br]. unfold loop_inv, best_match_step. simpl.
destruct (decide (br < score f)%Qc) as [Hlt|Hge];
  destruct (decide (threshold < score f)%Qc) as [Hth|Hle].
- rewrite !bool_decide_eq_true_2 by done. simpl.
  intros Hinv. split; [done|]. split; [done|].
  exists processed, []. split; [done|]. split; [|intros ? H; inversion H].
  intros g Hg. destruct bm as [b|].
  + destruct Hinv as (-> & _ & pre & post & -> & Hpre & Hpost).
    apply elem_of_app in Hg as [Hg|[->|Hg]%elem_of_cons].
    * eapply Qclt_trans; [by apply Hpre|done].
    * done.
    * eapply Qcle_lt_trans; [by apply Hpost|done].
  + destruct Hinv as [_ Hall]. eapply Qcle_lt_trans; [by apply Hall|done].
- rewrite (bool_decide_eq_false_2 (threshold < score f)%Qc) by done.
  rewrite andb_false_r. apply Qcnot_lt_le in Hle.
  destruct bm as [b|]; simpl.
  + intros (-> & Hb & _). exfalso.
    apply (Qclt_not_le _ _ Hlt).
    eapply Qcle_trans; [exact Hle|by apply Qclt_le_weak].
  + intros [-> Hall]. split; [done|].
    intros g [Hg | ->%list_elem_of_singleton]%elem_of_app; auto.
- rewrite (bool_decide_eq_false_2 (br < score f)%Qc) by done. simpl.
  apply Qcnot_lt_le in Hge.
  destruct bm as [b|]; simpl.
  + intros (-> & Hb & pre & post & -> & Hpre & Hpost).
    split; [done|]. split; [done|].
    exists pre, (post ++ [f]). split; [by rewrite <- app_assoc|].
    split; [done|].
    intros g [Hg | ->%list_elem_of_singleton]%elem_of_app; auto.
  + intros [-> Hall]. exfalso.
    apply (Qcle_not_lt _ _ Hge).
    eapply Qclt_trans; [apply threshold_pos|done].
- rewrite (bool_decide_eq_false_2 (br < score f)%Qc) by done. simpl.
  apply Qcnot_lt_le in Hge, Hle.
  destruct bm as [b|]; simpl.
  + intros (-> & Hb & pre & post & -> & Hpre & Hpost).
    split; [done|]. split; [done|].
    exists pre, (post ++ [f]). split; [by rewrite <- app_assoc|].
    split; [done|].
    intros g [Hg | ->%list_elem_of_singleton]%elem_of_app; auto.
  + intros [-> Hall]. split; [done|].
    intros g [Hg | ->%list_elem_of_singleton]%elem_of_app; auto.
Qed.

Lemma loop_inv_foldl folders processed st :
  loop_inv score processed st →
  loop_inv score (processed ++ folders) (foldl (best_match_step score) st folders).
Proof.
revert processed st. induction folders as [|f folders IH]; intros processed st Hinv.
- by rewrite app_nil_r.
- simpl. replace (processed ++ f :: folders) with ((processed ++ [f]) ++ folders)
    by (by rewrite <- app_assoc).
  apply IH. by apply loop_inv_step.
Qed.

Lemma best_match_loop_inv folders :
  loop_inv score folders (best_match_loop score folders).
Proof.
unfold best_match_loop. apply (loop_inv_foldl folders []).
split; [done|]. intros ? H. inversion H.
Qed.

Lemma best_match_loop_unchanged folders bm br :
  (∀ f, f ∈ folders → (score f ≤ br)%Qc) →
  foldl (best_match_step score) (bm, br) folders = (bm, br).
Proof.
induction folders as [|f folders IH]; intros Hall; [done|].
cbn [foldl].
replace (best_match_step score (bm, br) f) with (bm, br).
- apply IH. intros g Hg. apply Hall. by right.
- unfold best_match_step.
  rewrite (bool_decide_eq_false_2 (br < score f)%Qc); [done|].
  apply Qcle_not_lt. apply Hall. left.
Qed.

(** the loop returns the first folder of greatest score, when that score
    exceeds the threshold *)
Lemma best_match_loop_first_best pre best post :
  (threshold < score best)%Qc →
  (∀ f, f ∈ pre → (score f < score best)%Qc) →
  (∀ f, f ∈ post → (score f ≤ score best)%Qc) →
  best_match_loop score (pre ++ best :: post) = (Some best, score best).
Proof.
intros Hth Hpre Hpost. unfold best_match_loop.
rewrite foldl_app. cbn [foldl].
pose proof (best_match_loop_inv pre) as Hinv. unfold best_match_loop in Hinv.
destruct (foldl (best_match_step score) (None, 0%Qc) pre) as [bm br].
assert (Hbr : (br < score best)%Qc).
{ unfold loop_inv in Hinv. simpl in Hinv. destruct bm as [b|].
  - destruct Hinv as (-> & _ & pre' & post' & -> & _ & _).
    apply Hpre. apply elem_of_app. right. left.
  - destruct Hinv as [-> _]. eapply Qclt_trans; [apply threshold_pos|done]. }
replace (best_match_step score (bm, br) best) with (Some best, score best).
- by apply best_match_loop_unchanged.
- unfold best_match_step. by rewrite !bool_decide_eq_true_2.
Qed.

(** the loop returns nothing when no score exceeds the threshold *)
Lemma best_match_loop_none folders :
  (∀ f, f ∈ folders → (score f ≤ threshold)%Qc) →
  best_match_loop score folders = (None, 0%Qc).
Proof.
intros Hall. pose proof (best_match_loop_inv folders) as Hinv.
destruct (best_match_loop score folders) as [[b|] br];
  unfold loop_inv in Hinv; simpl in Hinv.
- destruct Hinv as (_ & Hb & pre & post & -> & _ & _). exfalso.
  apply (Qclt_not_le _ _ Hb). apply Hall. apply elem_of_app. right. left.
- by destruct Hinv as [-> _].
Qed.

End best_match_facts.

(** ** The matcher finds genuine, disjoint, ordered blocks *)

Section difflib_facts.
Import Difflib.
Variables a b : list ascii.

Lemma is_match_eq i' j' k' i j k :
  is_match a b i' j' k' → i = i' → j = j' → k = k' → is_match a b i j k.
Proof. by intros H -> -> ->. Qed.

Lemma is_match_single i j x :
  a !! i = Some x → b !! j = Some x → is_match a b i j 1.
Proof.
intros Ha Hb d Hd. assert (d = 0) as -> by lia.
rewrite !Nat.add_0_r. eauto.
Qed.

Lemma is_match_extend_right i j k x :
  is_match a b i j k → a !! (i + k) = Some x → b !! (j + k) = Some x →
  is_match a b i j (S k).
Proof.
intros Hm Ha Hb d Hd. destruct (decide (d = k)) as [->|Hne].
- eauto.
- apply Hm. lia.
Qed.

Lemma is_match_extend_left i j k x :
  is_match a b (S i) (S j) k → a !! i = Some x → b !! j = Some x →
  is_match a b i j (S k).
Proof.
intros Hm Ha Hb [|d] Hd.
- rewrite !Nat.add_0_r. eauto.
- destruct (Hm d) as (y & Hy1 & Hy2); [lia|].
  exists y. by rewrite <- !Nat.add_succ_comm.
Qed.

Lemma b2j_index_sound (x : ascii) (js : list nat) (j : nat) :
  b2j_index b !! x = Some js → j ∈ js → b !! j = Some x.
Proof.
unfold b2j_index.
assert (H : ∀ (items : list (nat * ascii)) (m : gmap ascii (list nat)),
  (∀ i e, (i, e) ∈ items → b !! i = Some e) →
  (∀ y ks k, m !! y = Some ks → k ∈ ks → b !! k = Some y) →
  ∀ y ks k,
    foldl (λ b2j ie, <[ie.2 := default [] (b2j !! ie.2) ++ [ie.1]]> b2j) m items
      !! y = Some ks → k ∈ ks → b !! k = Some y).
{ induction items as [|[i e] items IH]; intros m Hitems Hm y ks k; simpl.
  - apply Hm.
  - apply IH.
    + intros i' e' Hin. apply Hitems. by right.
    + intros y' ks' k' Hl Hk. destruct (decide (e = y')) as [->|Hne].
      * rewrite lookup_insert_eq in Hl. injection Hl as <-.
        apply elem_of_app in Hk as [Hk|Hk%list_elem_of_singleton].
        -- destruct (m !! y') as [ks0|] eqn:Hm0; simpl in Hk.
           ++ by eapply Hm.
           ++ inversion Hk.
        -- subst k'. apply Hitems. left.
      * rewrite lookup_insert_ne in Hl by done. by eapply Hm. }
apply H.
- intros i e Hin. apply elem_of_lookup_imap in Hin as (i' & e' & [= -> ->] & Hl).
  done.
- intros y ks k Hl. by rewrite lookup_empty in Hl.
Qed.

Lemma b2j_sound (x : ascii) (js : list nat) (j : nat) :
  b2j b !! x = Some js → j ∈ js → b !! j = Some x.
Proof.
unfold b2j. destruct (200 <=? length b)%nat.
- intros Hl. apply map_lookup_filter_Some in Hl as [Hl _].
  by apply b2j_index_sound.
- apply b2j_index_sound.
Qed.

Lemma scan_js_ok alo ahi blo bhi i x j2len js newj2len best :
  alo ≤ i → i < ahi →
  a !! i = Some x →
  (∀ j, j ∈ js → b !! j = Some x) →
  row_ok a b alo blo bhi i j2len →
  row_ok a b alo blo bhi (S i) newj2len →
  good_block a b alo ahi blo bhi best →
  row_ok a b alo blo bhi (S i) (scan_js blo bhi i j2len js newj2len best).1
  ∧ good_block a b alo ahi blo bhi (scan_js blo bhi i j2len js newj2len best).2.
Proof.
intros Hlo Hhi Ha. revert newj2len best.
induction js as [|j js IH]; intros newj2len best Hjs Hrow Hnew Hbest; simpl.
{ done. }
destruct (j <? blo)%nat eqn:Hjlo.
{ apply IH; auto. intros j' Hj'. apply Hjs. by right. }
apply Nat.ltb_ge in Hjlo.
destruct (bhi <=? j)%nat eqn:Hjhi; [done|].
apply Nat.leb_gt in Hjhi.
assert (Hb : b !! j = Some x) by (apply Hjs; left).
set (k := (j2lenget_pred j2len j + 1)%nat).
assert (Hk : 1 ≤ k ∧ alo + k ≤ S i ∧ blo + k ≤ j + 1
             ∧ is_match a b (S i - k) (j + 1 - k) k).
{ subst k. unfold j2lenget_pred. destruct j as [|j'].
  - repeat split; try lia.
    apply (is_match_eq i 0 1); [|lia..].
    apply (is_match_single _ _ x); done.
  - destruct (j2len !! j') as [k'|] eqn:Hk'; simpl default.
    + destruct (Hrow j' k' Hk') as (H1 & H2 & H3 & H4 & H5).
      repeat split; try lia.
      apply (is_match_eq (i - k') (j' + 1 - k') (S k')); [|lia..].
      apply (is_match_extend_right _ _ _ x); [done| |].
      * by replace (i - k' + k') with i by lia.
      * by replace (j' + 1 - k' + k') with (S j') by lia.
    + repeat split; try lia.
      apply (is_match_eq i (S j') 1); [|lia..].
      apply (is_match_single _ _ x); done. }
destruct Hk as (Hk1 & Hk2 & Hk3 & Hk4).
apply IH.
- intros j' Hj'. apply Hjs. by right.
- done.
- intros j' k' Hl. destruct (decide (j = j')) as [->|Hne].
  + rewrite lookup_insert_eq in Hl. injection Hl as <-.
    repeat split; try lia. done.
  + rewrite lookup_insert_ne in Hl by done. by apply Hnew.
- destruct (size_of best <? k)%nat; [|done].
  unfold good_block. simpl.
  replace (i + 1 - k) with (S i - k) by lia.
  repeat split; try lia. done.
Qed.

Lemma scan_row_ok alo ahi blo bhi i st :
  alo ≤ i → i < ahi →
  row_ok a b alo blo bhi i st.1 →
  good_block a b alo ahi blo bhi st.2 →
  row_ok a b alo blo bhi (S i) (scan_row a b blo bhi st i).1
  ∧ good_block a b alo ahi blo bhi (scan_row a b blo bhi st i).2.
Proof.
intros Hlo Hhi Hrow Hbest. unfold scan_row.
destruct (a !! i) as [x|] eqn:Ha.
- eapply scan_js_ok; eauto.
  + intros j Hj. destruct (b2j b !! x) as [js|] eqn:Hjs; simpl in Hj.
    * by eapply b2j_sound.
    * inversion Hj.
  + intros j k Hl. by rewrite lookup_empty in Hl.
- simpl. split; [|done]. intros j k Hl. by rewrite lookup_empty in Hl.
Qed.

Lemma scan_rows_ok alo ahi blo bhi n i st :
  alo ≤ i → i + n ≤ ahi →
  row_ok a b alo blo bhi i st.1 →
  good_block a b alo ahi blo bhi st.2 →
  good_block a b alo ahi blo bhi
    (foldl (scan_row a b blo bhi) st (seq i n)).2.
Proof.
revert i st. induction n as [|n IH]; intros i st Hlo Hhi Hrow Hbest; simpl.
- done.
- destruct (scan_row_ok alo ahi blo bhi i st) as [Hrow' Hbest']; try done; [lia|].
  apply IH; (done || lia).
Qed.

Lemma same_elt_true i j :
  same_elt a b i j = true → ∃ x, a !! i = Some x ∧ b !! j = Some x.
Proof.
unfold same_elt. destruct (a !! i) as [x|], (b !! j) as [y|]; try done.
intros ->%bool_decide_eq_true. eauto.
Qed.

Lemma extend_left_ok junk alo ahi blo bhi besti bestj bestsize :
  good_block a b alo ahi blo bhi (besti, bestj, bestsize) →
  good_block a b alo ahi blo bhi (extend_left a b junk alo blo besti bestj bestsize).
Proof.
revert bestj bestsize.
induction besti as [|i' IH]; intros bestj bestsize Hgood; simpl; [done|].
destruct bestj as [|j']; [done|].
destruct ((alo <? S i')%nat && (blo <? S j')%nat
          && bool_decide (junk_at b j' = junk) && same_elt a b i' j') eqn:Hc;
  [|done].
apply andb_prop in Hc as [[[Hi Hj]%andb_prop _]%andb_prop Hs].
apply Nat.ltb_lt in Hi, Hj. apply same_elt_true in Hs as (x & Hx1 & Hx2).
destruct Hgood as (H1 & H2 & H3 & H4 & H5). simpl in *.
apply IH. repeat split; simpl; try lia.
by apply (is_match_extend_left _ _ _ x).
Qed.

Lemma extend_right_go_ok room junk alo ahi blo bhi besti bestj bestsize :
  besti + bestsize + room ≤ ahi →
  good_block a b alo ahi blo bhi (besti, bestj, bestsize) →
  good_block a b alo ahi blo bhi
    (besti, bestj, extend_right_go a b room junk bhi besti bestj bestsize).
Proof.
revert bestsize. induction room as [|room IH]; intros bestsize Hroom Hgood;
  simpl; [done|].
destruct ((bestj + bestsize <? bhi)%nat
          && bool_decide (junk_at b (bestj + bestsize) = junk)
          && same_elt a b (besti + bestsize) (bestj + bestsize)) eqn:Hc;
  [|done].
apply andb_prop in Hc as [[Hj _]%andb_prop Hs].
apply Nat.ltb_lt in Hj. apply same_elt_true in Hs as (x & Hx1 & Hx2).
destruct Hgood as (H1 & H2 & H3 & H4 & H5). simpl in *.
apply IH; [lia|]. repeat split; simpl; try lia.
by apply (is_match_extend_right _ _ _ x).
Qed.

Lemma extend_right_ok junk alo ahi blo bhi besti bestj bestsize :
  good_block a b alo ahi blo bhi (besti, bestj, bestsize) →
  good_block a b alo ahi blo bhi
    (besti, bestj, extend_right a b junk ahi bhi besti bestj bestsize).
Proof.
intros Hgood. unfold extend_right. apply extend_right_go_ok; [|done].
destruct Hgood as (H1 & H2 & _). simpl in *. lia.
Qed.

(** [find_longest_match] returns a block of the region, and the block is a
    match *)
Lemma find_longest_match_good alo ahi blo bhi :
  alo ≤ ahi → blo ≤ bhi →
  good_block a b alo ahi blo bhi (find_longest_match a b alo ahi blo bhi).
Proof.
intros Ha Hb. unfold find_longest_match.
pose proof (scan_rows_ok alo ahi blo bhi (ahi - alo) alo (∅, (alo, blo, 0))) as Hscan.
destruct (foldl (scan_row a b blo bhi) (∅, (alo, blo, 0)) (seq alo (ahi - alo))).2
  as [[besti bestj] bestsize].
assert (H0 : good_block a b alo ahi blo bhi (besti, bestj, bestsize)).
{ apply Hscan; [lia|lia| |].
  - intros j k Hl. simpl in Hl. by rewrite lookup_empty in Hl.
  - repeat split; simpl; try lia. intros d Hd. lia. }
pose proof (extend_left_ok false _ _ _ _ _ _ _ H0) as H1.
destruct (extend_left a b false alo blo besti bestj bestsize)
  as [[besti1 bestj1] bestsize1].
pose proof (extend_right_ok false _ _ _ _ _ _ _ H1) as H2.
pose proof (extend_left_ok true _ _ _ _ _ _ _ H2) as H3.
destruct (extend_left a b true alo blo besti1 bestj1
            (extend_right a b false ahi bhi besti1 bestj1 bestsize1))
  as [[besti2 bestj2] bestsize2].
by apply extend_right_ok.
Qed.

(** *** The queue loop *)

Lemma total_snoc ms m : total (ms ++ [m]) = total ms + size_of m.
Proof. unfold total. rewrite sum_list_with_app. simpl. lia. Qed.

Lemma total_cons m ms : total (m :: ms) = size_of m + total ms.
Proof. reflexivity. Qed.

Lemma total_nil : total [] = 0.
Proof. reflexivity. Qed.

(** the blocks found in a queue of regions cannot be longer than the
    regions allow *)
Lemma blocks_loop_total_le fuel queue acc res :
  Forall region_wf queue →
  blocks_loop a b fuel queue acc = Some res →
  total res ≤ total acc + sum_list_with cap queue.
Proof.
revert queue acc res.
induction fuel as [|fuel IH]; intros queue acc res Hwf Hres;
  destruct queue as [|[[[alo ahi] blo] bhi] queue]; simpl in Hres;
  try discriminate; try (injection Hres as <-; simpl; lia).
apply Forall_cons in Hwf as [[Hwa Hwb] Hwf].
pose proof (find_longest_match_good alo ahi blo bhi Hwa Hwb) as Hgood.
destruct (find_longest_match a b alo ahi blo bhi) as [[i j] k].
destruct Hgood as (H1 & H2 & H3 & H4 & _). simpl in H1, H2, H3, H4.
destruct (k =? 0)%nat eqn:Hk.
{ apply IH in Hres; [|done]. simpl. lia. }
apply Nat.eqb_neq in Hk.
destruct ((alo <? i)%nat && (blo <? j)%nat) eqn:HL;
  destruct ((i + k <? ahi)%nat && (j + k <? bhi)%nat) eqn:HR;
  apply IH in Hres;
  try (repeat (apply Forall_cons; split); try done; simpl; lia);
  rewrite total_snoc in Hres; unfold cap, size_of in *; simpl in *; lia.
Qed.

Lemma cap_le_need (queue : list Region) :
  sum_list_with cap queue ≤ sum_list_with need queue.
Proof.
induction queue as [|r queue IH]; simpl; [done|].
assert (cap r ≤ need r) by (unfold cap, need; lia). lia.
Qed.

Lemma same_slices_join alo ahi blo bhi i j k :
  alo ≤ i → i + k ≤ ahi → blo ≤ j → j + k ≤ bhi →
  i - alo = j - blo → ahi - (i + k) = bhi - (j + k) →
  (∀ d, d < i - alo → a !! (alo + d) = b !! (blo + d)) →
  is_match a b i j k →
  (∀ d, d < ahi - (i + k) → a !! (i + k + d) = b !! (j + k + d)) →
  same_slices a b (alo, ahi, blo, bhi).
Proof.
intros H1 H2 H3 H4 HL HR Hleft Hmid Hright. split; [lia|].
intros d Hd.
destruct (decide (d < i - alo)) as [Hd1|Hd1]; [by apply Hleft|].
destruct (decide (d < i - alo + k)) as [Hd2|Hd2].
- destruct (Hmid (d - (i - alo))) as (x & Hx1 & Hx2); [lia|].
  replace (alo + d) with (i + (d - (i - alo))) by lia.
  replace (blo + d) with (j + (d - (i - alo))) by lia.
  by rewrite Hx1, Hx2.
- replace (alo + d) with (i + k + (d - (i - alo) - k)) by lia.
  replace (blo + d) with (j + k + (d - (i - alo) - k)) by lia.
  apply Hright. lia.
Qed.

Lemma same_slices_empty alo ahi blo bhi :
  ahi - alo = 0 → bhi - blo = 0 → same_slices a b (alo, ahi, blo, bhi).
Proof. intros Ha Hb. split; [lia|]. intros d Hd. lia. Qed.

(** when the blocks found fill the regions of the queue entirely, the two
    slices of every region are equal *)
Lemma blocks_loop_full fuel queue acc res :
  Forall region_wf queue →
  blocks_loop a b fuel queue acc = Some res →
  total acc + sum_list_with need queue ≤ total res →
  Forall (same_slices a b) queue.
Proof.
revert queue acc res.
induction fuel as [|fuel IH]; intros queue acc res Hwf Hres Hfull;
  destruct queue as [|[[[alo ahi] blo] bhi] queue]; simpl in Hres;
  try discriminate; try constructor.
all: apply Forall_cons in Hwf as [[Hwa Hwb] Hwf].
all: pose proof (find_longest_match_good alo ahi blo bhi Hwa Hwb) as Hgood.
all: destruct (find_longest_match a b alo ahi blo bhi) as [[i j] k].
all: destruct Hgood as (H1 & H2 & H3 & H4 & Hm); simpl in H1, H2, H3, H4, Hm.
all: pose proof (cap_le_need queue) as Hcn.
all: simpl in Hfull; unfold need at 1 in Hfull; simpl in Hfull.
all: destruct (k =? 0)%nat eqn:Hk;
  [ pose proof (blocks_loop_total_le _ _ _ _ Hwf Hres) as Hle
  | apply Nat.eqb_neq in Hk ].
- apply same_slices_empty; lia.
- set (L := (alo <? i)%nat && (blo <? j)%nat) in *.
  set (R := (i + k <? ahi)%nat && (j + k <? bhi)%nat) in *.
  set (queue' :=
         if R then (i + k, ahi, j + k, bhi) :: (if L then (alo, i, blo, j) :: queue else queue)
         else (if L then (alo, i, blo, j) :: queue else queue)) in *.
  assert (Hwf' : Forall region_wf queue').
  { subst queue'. destruct R, L; repeat (apply Forall_cons; split); try done;
      simpl; lia. }
  pose proof (blocks_loop_total_le _ _ _ _ Hwf' Hres) as Hle.
  rewrite total_snoc in Hle. unfold size_of in Hle. simpl in Hle.
  assert (HL : L = false → i - alo = 0 ∨ j - blo = 0).
  { subst L. intros [Hf|Hf]%andb_false_iff; apply Nat.ltb_ge in Hf; lia. }
  assert (HR : R = false → ahi - (i + k) = 0 ∨ bhi - (j + k) = 0).
  { subst R. intros [Hf|Hf]%andb_false_iff; apply Nat.ltb_ge in Hf; lia. }
  assert (Hsum : sum_list_with cap queue' ≤
                 sum_list_with cap queue
                 + (i - alo) `min` (j - blo)
                 + (ahi - (i + k)) `min` (bhi - (j + k))).
  { subst queue'. destruct R, L; simpl; unfold cap; simpl; lia. }
  assert (Heq : i - alo = j - blo ∧ ahi - (i + k) = bhi - (j + k)
                ∧ sum_list_with need queue ≤ sum_list_with cap queue) by lia.
  destruct Heq as (HeL & HeR & Hq).
  assert (Hneed : sum_list_with need queue' =
                  sum_list_with need queue + (i - alo) + (ahi - (i + k))).
  { subst queue'. destruct R eqn:ER, L eqn:EL; simpl; unfold need; simpl;
      try specialize (HL eq_refl); try specialize (HR eq_refl); lia. }
  assert (Hall : Forall (same_slices a b) queue').
  { eapply IH; [exact Hwf'|exact Hres|]. rewrite total_snoc. unfold size_of.
    simpl. lia. }
  apply (same_slices_join alo ahi blo bhi i j k); try done.
  + destruct L eqn:EL.
    * assert (Hin : (alo, i, blo, j) ∈ queue').
      { subst queue'. destruct R; [right; left|left]. }
      rewrite Forall_forall in Hall. apply Hall in Hin. by destruct Hin.
    * specialize (HL eq_refl). intros d Hd. lia.
  + destruct R eqn:ER.
    * assert (Hin : (i + k, ahi, j + k, bhi) ∈ queue') by (subst queue'; left).
      rewrite Forall_forall in Hall. apply Hall in Hin. by destruct Hin.
    * specialize (HR eq_refl). intros d Hd. lia.
- eapply IH; [exact Hwf|exact Hres|lia].
- set (L := (alo <? i)%nat && (blo <? j)%nat) in *.
  set (R := (i + k <? ahi)%nat && (j + k <? bhi)%nat) in *.
  set (queue' :=
         if R then (i + k, ahi, j + k, bhi) :: (if L then (alo, i, blo, j) :: queue else queue)
         else (if L then (alo, i, blo, j) :: queue else queue)) in *.
  assert (Hwf' : Forall region_wf queue').
  { subst queue'. destruct R, L; repeat (apply Forall_cons; split); try done;
      simpl; lia. }
  pose proof (blocks_loop_total_le _ _ _ _ Hwf' Hres) as Hle.
  rewrite total_snoc in Hle. unfold size_of in Hle. simpl in Hle.
  assert (HL : L = false → i - alo = 0 ∨ j - blo = 0).
  { subst L. intros [Hf|Hf]%andb_false_iff; apply Nat.ltb_ge in Hf; lia. }
  assert (HR : R = false → ahi - (i + k) = 0 ∨ bhi - (j + k) = 0).
  { subst R. intros [Hf|Hf]%andb_false_iff; apply Nat.ltb_ge in Hf; lia. }
  assert (Hsum : sum_list_with cap queue' ≤
                 sum_list_with cap queue
                 + (i - alo) `min` (j - blo)
                 + (ahi - (i + k)) `min` (bhi - (j + k))).
  { subst queue'. destruct R, L; simpl; unfold cap; simpl; lia. }
  assert (Heq : i - alo = j - blo ∧ ahi - (i + k) = bhi - (j + k)
                ∧ sum_list_with need queue ≤ sum_list_with cap queue) by lia.
  destruct Heq as (HeL & HeR & Hq).
  assert (Hneed : sum_list_with need queue' =
                  sum_list_with need queue + (i - alo) + (ahi - (i + k))).
  { subst queue'. destruct R eqn:ER, L eqn:EL; simpl; unfold need; simpl;
      try specialize (HL eq_refl); try specialize (HR eq_refl); lia. }
  assert (Hall : Forall (same_slices a b) queue').
  { eapply IH; [exact Hwf'|exact Hres|]. rewrite total_snoc. unfold size_of.
    simpl. lia. }
  assert (Hsub : ∀ r, r ∈ queue → r ∈ queue').
  { intros r Hr. subst queue'. destruct R, L; repeat (try done; right). }
  rewrite Forall_forall in Hall. apply Forall_forall. auto.
Qed.

(** the queue loop empties the queue: each iteration takes a region off
    and puts back regions that are shorter by the block found *)
Lemma blocks_loop_terminates fuel queue acc :
  Forall region_wf queue →
  sum_list_with (λ r, 2 * span_a r + 1) queue ≤ fuel →
  is_Some (blocks_loop a b fuel queue acc).
Proof.
revert queue acc.
induction fuel as [|fuel IH]; intros queue acc Hwf Hfuel;
  destruct queue as [|[[[alo ahi] blo] bhi] queue]; simpl in *;
  try done; try lia.
apply Forall_cons in Hwf as [[Hwa Hwb] Hwf].
pose proof (find_longest_match_good alo ahi blo bhi Hwa Hwb) as Hgood.
destruct (find_longest_match a b alo ahi blo bhi) as [[i j] k].
destruct Hgood as (H1 & H2 & H3 & H4 & _). simpl in H1, H2, H3, H4.
destruct (k =? 0)%nat eqn:Hk.
{ apply IH; [done|lia]. }
apply Nat.eqb_neq in Hk.
destruct ((alo <? i)%nat && (blo <? j)%nat),
         ((i + k <? ahi)%nat && (j + k <? bhi)%nat);
  apply IH; try (repeat (apply Forall_cons; split); try done; simpl; lia);
  simpl; lia.
Qed.

Lemma found_blocks_loop :
  blocks_loop a b (2 * length a + 1) [(0, length a, 0, length b)] []
  = Some (found_blocks a b).
Proof.
unfold found_blocks.
destruct (blocks_loop_terminates (2 * length a + 1)
            [(0, length a, 0, length b)] []) as [res Hres].
- repeat constructor; simpl; lia.
- simpl. lia.
- by rewrite Hres.
Qed.

Lemma collapse_loop_total (ms : list Match) (st : Match * list Match) :
  size_of (foldl collapse_step st ms).1 + total (foldl collapse_step st ms).2
  = size_of st.1 + total st.2 + total ms.
Proof.
revert st. induction ms as [|[[i2 j2] k2] ms IH]; intros [[[i1 j1] k1] na].
- cbn [foldl]. rewrite total_nil. lia.
- cbn [foldl]. rewrite IH, total_cons. unfold collapse_step.
  destruct ((i1 + k1 =? i2)%nat && (j1 + k1 =? j2)%nat).
  + unfold size_of. simpl. lia.
  + destruct (0 <? k1)%nat eqn:Hk.
    * cbn [fst snd]. rewrite total_snoc. unfold size_of. simpl. lia.
    * apply Nat.ltb_ge in Hk. unfold size_of. simpl. lia.
Qed.

(** sorting the blocks and merging adjacent ones keeps the sum of sizes *)
Lemma get_matching_blocks_total :
  total (get_matching_blocks a b) = total (found_blocks a b).
Proof.
unfold get_matching_blocks.
pose proof (collapse_loop_total (merge_sort match_le (found_blocks a b))
              ((0, 0, 0), [])) as Hc.
destruct (foldl collapse_step ((0, 0, 0), [])
            (merge_sort match_le (found_blocks a b))) as [[[i1 j1] k1] na].
assert (Hp : total (merge_sort match_le (found_blocks a b))
             = total (found_blocks a b)).
{ unfold total. by rewrite merge_sort_Permutation. }
cbn [fst snd] in Hc. rewrite Hp, total_nil in Hc.
unfold size_of in Hc. cbn [fst snd] in Hc.
rewrite total_snoc. unfold size_of at 1. cbn [fst snd].
destruct (0 <? k1)%nat eqn:Hk.
- rewrite total_snoc. unfold size_of. cbn [fst snd]. lia.
- apply Nat.ltb_ge in Hk. lia.
Qed.

Lemma found_blocks_total_le :
  total (found_blocks a b) ≤ length a `min` length b.
Proof.
assert (Hwf : Forall region_wf [(0, length a, 0, length b)]).
{ repeat constructor; simpl; lia. }
pose proof (blocks_loop_total_le _ _ _ _ Hwf found_blocks_loop) as H.
rewrite total_nil in H. simpl in H. unfold cap in H. simpl in H. lia.
Qed.

Lemma found_blocks_full :
  length a ≤ total (found_blocks a b) →
  length b ≤ total (found_blocks a b) →
  a = b.
Proof.
intros Ha Hb.
assert (Hwf : Forall region_wf [(0, length a, 0, length b)]).
{ repeat constructor; simpl; lia. }
pose proof (blocks_loop_full _ _ _ _ Hwf found_blocks_loop) as H.
apply Forall_singleton in H as [Hlen Hall].
- apply list_eq. intros d.
  destruct (decide (d < length a)) as [Hd|Hd].
  + apply (Hall d). lia.
  + rewrite !lookup_ge_None_2 by lia. done.
- rewrite total_nil. simpl. unfold need. simpl. lia.
Qed.

End difflib_facts.

Section ratio_facts.
Import Difflib.

Lemma Q2Qc_le (q r : Q) : (q <= r)%Q → (Q2Qc q ≤ Q2Qc r)%Qc.
Proof. intros H. unfold Qcle. simpl. by rewrite !Qred_correct. Qed.

Lemma Zpos_of_nat (n : nat) : 0 < n → Z.pos (Pos.of_nat n) = Z.of_nat n.
Proof.
intros Hn. rewrite <- (Nat2Pos.id n) at 2 by lia.
by rewrite positive_nat_Z.
Qed.

Lemma calculate_ratio_range (matches len : nat) :
  2 * matches ≤ len →
  (0 ≤ calculate_ratio matches len)%Qc ∧ (calculate_ratio matches len ≤ 1)%Qc.
Proof.
intros Hm. unfold calculate_ratio.
destruct (0 <? len)%nat eqn:Hlen.
- apply Nat.ltb_lt in Hlen. split; apply Q2Qc_le; unfold Qle; simpl.
  + lia.
  + rewrite Zpos_of_nat by done. lia.
- split; [|apply Qcle_refl]. by apply Q2Qc_le.
Qed.

Lemma calculate_ratio_one (matches len : nat) :
  calculate_ratio matches len = 1%Qc → 2 * matches = len ∨ len = 0.
Proof.
unfold calculate_ratio. destruct (0 <? len)%nat eqn:Hlen.
- apply Nat.ltb_lt in Hlen. intros H. apply Q2Qc_eq_iff in H.
  unfold Qeq in H. simpl in H. rewrite Zpos_of_nat in H by done. lia.
- apply Nat.ltb_ge in Hlen. intros _. lia.
Qed.

Lemma ratio_total (a b : list ascii) :
  ratio a b = calculate_ratio (total (found_blocks a b)) (length a + length b).
Proof.
unfold ratio. fold (total (get_matching_blocks a b)).
by rewrite get_matching_blocks_total.
Qed.

Lemma ratio_range (a b : list ascii) :
  (0 ≤ ratio a b)%Qc ∧ (ratio a b ≤ 1)%Qc.
Proof.
rewrite ratio_total. apply calculate_ratio_range.
pose proof (found_blocks_total_le a b). lia.
Qed.

Lemma ratio_one_identical (a b : list ascii) : ratio a b = 1%Qc → a = b.
Proof.
rewrite ratio_total. intros H%calculate_ratio_one.
pose proof (found_blocks_total_le a b) as Hle.
destruct H as [H|H].
- apply found_blocks_full; lia.
- destruct a, b; simpl in H; try lia. done.
Qed.

(** with nothing to compare against, nothing matches *)
Lemma ratio_empty_r (a : list ascii) : a ≠ [] → ratio a [] = 0%Qc.
Proof.
intros Ha. rewrite ratio_total.
pose proof (found_blocks_total_le a []) as Hle. simpl in Hle.
assert (total (found_blocks a []) = 0) as -> by lia.
unfold calculate_ratio. destruct a as [|x a]; [done|]. simpl.
apply Qc_is_canon. reflexivity.
Qed.

Lemma lower_empty s : Py.lower s = "" → s = "".
Proof. destruct s; [done|discriminate]. Qed.

Lemma list_ascii_of_string_inj s t :
  list_ascii_of_string s = list_ascii_of_string t → s = t.
Proof.
intros H. rewrite <- (string_of_list_ascii_of_string s),
  <- (string_of_list_ascii_of_string t). by rewrite H.
Qed.

(** C8 (as amended): the similarity ratio lies between 0 and 1 and is 1
    only when the two compared strings are identical; this holds for the
    ratio of any two strings and so for the one [auto_match_clients]
    computes on the lowercased names.  Symmetry is not claimed. *)
Theorem similarity_range_identity (client folder : string) :
  ((0 ≤ RoutingEngine.similarity client folder)%Qc
   ∧ (RoutingEngine.similarity client folder ≤ 1)%Qc)
  ∧ (RoutingEngine.similarity client folder = 1%Qc →
     Py.lower client = Py.lower folder)
  ∧ ∀ a b : string,
      ((0 ≤ str_ratio a b)%Qc ∧ (str_ratio a b ≤ 1)%Qc)
      ∧ (str_ratio a b = 1%Qc → a = b).
Proof.
assert (H : ∀ a b : string,
      ((0 ≤ str_ratio a b)%Qc ∧ (str_ratio a b ≤ 1)%Qc)
      ∧ (str_ratio a b = 1%Qc → a = b)).
{ intros a b. unfold str_ratio. split; [apply ratio_range|].
  intros Hone. by apply list_ascii_of_string_inj, ratio_one_identical. }
unfold RoutingEngine.similarity. split; [apply H|]. split; [apply H|apply H].
Qed.

(** C8 (counterexample to the symmetry): comparing "tide" with "diet" gives
    1/4, comparing "diet" with "tide" gives 1/2. *)
Lemma similarity_not_symmetric :
  RoutingEngine.similarity "tide" "diet" = Q2Qc (Qmake 1 4)
  ∧ RoutingEngine.similarity "diet" "tide" = Q2Qc (Qmake 1 2)
  ∧ (RoutingEngine.similarity "tide" "diet"
     < RoutingEngine.similarity "diet" "tide")%Qc.
Proof.
split; [|split].
- apply Qc_is_canon. vm_compute. reflexivity.
- apply Qc_is_canon. vm_compute. reflexivity.
- vm_compute. reflexivity.
Qed.

End ratio_facts.

Section auto_match_facts.
Import RoutingEngine.
Variable path_join : string → string → string.

Lemma auto_match_step_entry cfg folders (matches : gmap string match_info) client :
  auto_match_step path_join cfg folders matches client =
  match client_entry path_join cfg folders client with
  | Some e => <[client := e]> matches
  | None => matches
  end.
Proof.
unfold auto_match_step, client_entry, ConfigManager.get_client_art_folders,
  ConfigManager.get_art_root_path.
destruct (bool_decide _); [done|].
destruct (best_match_loop (similarity client) folders) as [[best|] r]; [|done].
by destruct (Py.truthy best).
Qed.

Lemma auto_match_loop_lookup cfg folders clients (matches : gmap string match_info) c :
  foldl (auto_match_step path_join cfg folders) matches clients !! c =
  if decide (c ∈ clients)
  then match client_entry path_join cfg folders c with
       | Some e => Some e
       | None => matches !! c
       end
  else matches !! c.
Proof.
revert matches. induction clients as [|c' clients IH]; intros matches.
- simpl. destruct (decide (c ∈ [])) as [H|_]; [inversion H|done].
- cbn [foldl]. rewrite IH, auto_match_step_entry.
  destruct (decide (c = c')) as [->|Hne].
  + rewrite (decide_True (P := c' ∈ c' :: clients)) by left.
    destruct (client_entry path_join cfg folders c') as [e|].
    * rewrite lookup_insert_eq. by destruct (decide _).
    * by destruct (decide _).
  + assert (Hl : (match client_entry path_join cfg folders c' with
                  | Some e => <[c' := e]> matches
                  | None => matches
                  end) !! c = matches !! c).
    { destruct (client_entry path_join cfg folders c'); [|done].
      by rewrite lookup_insert_ne. }
    rewrite Hl.
    destruct (decide (c ∈ clients)) as [Hin|Hnin].
    * rewrite decide_True by (by right). done.
    * rewrite decide_False; [done|].
      intros [?|?]%elem_of_cons; done.
Qed.

Lemma auto_match_clients_lookup cfg clients folders c :
  auto_match_clients path_join cfg clients folders !! c =
  if decide (c ∈ clients) then client_entry path_join cfg folders c else None.
Proof.
unfold auto_match_clients. rewrite auto_match_loop_lookup.
destruct (decide (c ∈ clients)); [|done].
by destruct (client_entry path_join cfg folders c).
Qed.

(** an empty folder name scores above the threshold only against an empty
    client name *)
Lemma similarity_empty_folder client :
  (threshold < similarity client "")%Qc → client = "".
Proof.
unfold similarity, Difflib.str_ratio. intros H.
destruct (decide (list_ascii_of_string (Py.lower client) = [])) as [He|Hne].
- apply lower_empty. by apply list_ascii_of_string_inj.
- simpl in H. rewrite (ratio_empty_r _ Hne) in H. by vm_compute in H.
Qed.

(** C6: [auto_match_clients] records nothing for a client that is not in the
    list or already has an art-folder mapping; what it records for a client
    is the folder of greatest similarity, the first one in the folder list
    among those of equal similarity, and its similarity strictly exceeds
    0.6; it records nothing when no folder exceeds 0.6, and it does record
    the first best folder when that one exceeds 0.6 (the client name or the
    folder name being non-empty). *)
Theorem auto_match_clients_best cfg clients folders client :
  let result := auto_match_clients path_join cfg clients folders !! client in
  (client ∉ clients ∨ is_Some (ConfigManager.client_art_folders cfg !! client) →
   result = None)
  ∧ (∀ m, result = Some m →
       client ∈ clients
       ∧ ConfigManager.client_art_folders cfg !! client = None
       ∧ ratio m = similarity client (folder m)
       ∧ (threshold < ratio m)%Qc
       ∧ full_path m = path_join (ConfigManager.art_root_path cfg) (folder m)
       ∧ ∃ pre post,
           folders = pre ++ folder m :: post
           ∧ (∀ f, f ∈ pre → (similarity client f < ratio m)%Qc)
           ∧ (∀ f, f ∈ post → (similarity client f ≤ ratio m)%Qc))
  ∧ (client ∈ clients →
     ConfigManager.client_art_folders cfg !! client = None →
     (∀ f, f ∈ folders → (similarity client f ≤ threshold)%Qc) →
     result = None)
  ∧ (∀ pre best post,
       client ∈ clients →
       ConfigManager.client_art_folders cfg !! client = None →
       folders = pre ++ best :: post →
       (threshold < similarity client best)%Qc →
       (∀ f, f ∈ pre → (similarity client f < similarity client best)%Qc) →
       (∀ f, f ∈ post → (similarity client f ≤ similarity client best)%Qc) →
       client ≠ "" ∨ best ≠ "" →
       result = Some {| folder := best; ratio := similarity client best;
                        full_path :=
                          path_join (ConfigManager.art_root_path cfg) best |}).
Proof.
cbv zeta. rewrite auto_match_clients_lookup. unfold client_entry.
split; [|split; [|split]].
- intros [Hnin|Hsome].
  + by rewrite decide_False.
  + rewrite bool_decide_eq_true_2 by done. by destruct (decide _).
- intros m Hm.
  destruct (decide (client ∈ clients)) as [Hin|]; [|done].
  destruct (bool_decide (is_Some _)) eqn:Hex; [done|].
  apply bool_decide_eq_false in Hex.
  assert (Hnone : ConfigManager.client_art_folders cfg !! client = None).
  { destruct (ConfigManager.client_art_folders cfg !! client); [|done].
    exfalso. apply Hex. eauto. }
  pose proof (best_match_loop_inv (similarity client) folders) as Hinv.
  destruct (best_match_loop (similarity client) folders) as [[best|] r];
    [|done].
  destruct (Py.truthy best); [|done]. injection Hm as <-. simpl.
  unfold loop_inv in Hinv. simpl in Hinv.
  destruct Hinv as (-> & Hth & pre & post & Hf & Hpre & Hpost).
  repeat split; try done. eauto.
- intros Hin Hnone Hall. rewrite decide_True by done.
  rewrite bool_decide_eq_false_2 by (rewrite Hnone; by intros [? ?]).
  by rewrite best_match_loop_none.
- intros pre best post Hin Hnone -> Hth Hpre Hpost Hne.
  rewrite decide_True by done.
  rewrite bool_decide_eq_false_2 by (rewrite Hnone; by intros [? ?]).
  rewrite best_match_loop_first_best by done.
  assert (Hb : best ≠ "").
  { intros ->. destruct Hne as [Hc|Hb]; [|done].
    apply Hc. by apply similarity_empty_folder. }
  unfold Py.truthy. by rewrite bool_decide_eq_false_2.
Qed.

End auto_match_facts.

(** the example of the specification, and the one case in which a folder
    above the threshold is not recorded *)
Lemma auto_match_clients_examples :
  RoutingEngine.folder <$>
    (RoutingEngine.auto_match_clients Example.join (Example.config [] [] true)
       ["Acme Corp"] ["Acme_Corp_Art"; "Other"] !! "Acme Corp")
  = Some "Acme_Corp_Art"
  ∧ RoutingEngine.auto_match_clients Example.join (Example.config [] [] true)
      ["Zzz"] ["Other"] !! "Zzz" = None
  ∧ RoutingEngine.auto_match_clients Example.join (Example.config [] [] true)
      [""] [""] !! "" = None.
Proof. vm_compute. auto. Qed.

(** ** The testable properties of the specification, on the example data *)

Lemma matches_job_examples :
  RoutingRule.matches_job
    (RoutingRule.from_dict (Example.rule "A" "Normal" [("Finish", "Matte")]))
    Example.matte_job = true
  ∧ RoutingRule.matches_job
      (RoutingRule.from_dict
         (Example.rule "A" "Normal" [("Finish", "Matte"); ("Print Mode", "Flatbed")]))
      Example.matte_job = false
  ∧ RoutingRule.matches_job
      (RoutingRule.from_dict (Example.rule "A" "Normal" []))
      Example.matte_job = false.
Proof. vm_compute. auto. Qed.

Lemma determine_target_folder_examples :
  RoutingEngine.determine_target_folder
    (Example.config
       [Example.rule "First" "Normal" [("Finish", "Matte")];
        Example.rule "Second" "Normal" [("Media Group", "Vinyl")]] [] true)
    Example.matte_job = Some "First"
  ∧ RoutingEngine.determine_target_folder
      (Example.config
         [Example.rule "Low" "Low" [("Finish", "Matte")];
          Example.rule "One" "High" [("Finish", "Matte")];
          Example.rule "Two" "High" [("Media Group", "Vinyl")]] [] true)
      Example.matte_job = Some "One"
  ∧ RoutingEngine.determine_target_folder (Example.config [] [] true)
      Example.matte_job = None.
Proof. vm_compute. auto. Qed.

Lemma generate_examples :
  FilenameGenerator.generate "11-03-26"
    (list_to_map [("job_suffix", "1001"); ("client", "Acme & Co");
                  ("size_w", "24"); ("size_h", "36"); ("finish", " NONE ");
                  ("mirror", "No")])
    ["job_number"; "client"; "size"; "quantity"; "finish"; "mirror"; "date"]
    (list_to_map [("date", false)])
  = "TIT1001_Acme_and_Co_24x36_QTY1.pdf"
  ∧ FilenameGenerator.generate "11-03-26" ∅ ["size"; "client"] ∅
    = "untitled.pdf".
Proof. vm_compute. auto. Qed.

(** characters above U+007F: the no-break space U+00A0 and NEL U+0085
    are white space, E with acute is lowered from U+00C9 to U+00E9 *)
Lemma code_point_examples :
  Py.strip (String "160" (String "a" (String "133" ""))) = "a"
  ∧ Py.all_space (String "160" "") = true
  ∧ Py.lower (String "201" (String "T" (String "201" "")))
    = String "233" (String "t" (String "233" ""))
  ∧ Py.upper (String "223" (String "233" "")) = String "S" (String "S" (String "201" ""))
  ∧ FilenameGenerator.generate "11-03-26"
      {[ "client" := String "160" "" ]} ["client"] ∅ = "untitled.pdf"
  ∧ RoutingEngine.folder <$>
      (RoutingEngine.auto_match_clients Example.join
         (Example.config [] [] true)
         [String "201" (String "T" (String "201" ""))]
         [String "233" (String "t" (String "233" ""))]
       !! String "201" (String "T" (String "201" "")))
    = Some (String "233" (String "t" (String "233" "")))
  ∧ RoutingRule.validate
      {| RoutingRule.target_folder := String "160" "";
         RoutingRule.priority := "Normal";
         RoutingRule.criteria := {[ "Finish" := "Matte" ]};
         RoutingRule.auto_generated := false |}
    = (false, ["Target folder is required"])
  ∧ Job.validate (λ _, true) (λ _, true)
      {| Job.job_prefix := "TIT"; Job.job_suffix := "1";
         Job.client := String "160" ""; Job.file_path := "/in/art.pdf";
         Job.size_w := "24"; Job.size_h := "36"; Job.quantity := "1";
         Job.printer := "Canon"; Job.print_mode := "Roll";
         Job.ssds_mode := "SS"; Job.media_group := "Vinyl";
         Job.media := "Glossy"; Job.job_type := "Standard";
         Job.bleed := "None"; Job.registration := "None";
         Job.rotation := "None"; Job.finish := "Matte";
         Job.grommets := "None"; Job.pole_pockets := "None";
         Job.mirror := "No"; Job.custom_text := "";
         Job.inject_metadata := true; Job.quickset_override := false;
         Job.quickset := "QuickSet1" |}
    = (false, ["Client name is required"]).
Proof. vm_compute. auto 10. Qed.

(** a client made of a no-break space is blank: the art-copy step does
    not apply, although the client has a mapping and the folder exists *)
Lemma art_copy_blank_client_example :
  RoutingEngine.copy_to_client_art_folder Example.join
    (Example.config [] [(String "160" "", "/art/Blank")] true)
    ({[ "/art/Blank"; "/in/art.pdf" ]} : gset string) "/in/art.pdf" "art.pdf"
    {| Job.job_prefix := "TIT"; Job.job_suffix := "1";
       Job.client := String "160" ""; Job.file_path := "/in/art.pdf";
       Job.size_w := "24"; Job.size_h := "36"; Job.quantity := "1";
       Job.printer := "Canon"; Job.print_mode := "Roll";
       Job.ssds_mode := "SS"; Job.media_group := "Vinyl";
       Job.media := "Glossy"; Job.job_type := "Standard";
       Job.bleed := "None"; Job.registration := "None";
       Job.rotation := "None"; Job.finish := "Matte";
       Job.grommets := "None"; Job.pole_pockets := "None";
       Job.mirror := "No"; Job.custom_text := "";
       Job.inject_metadata := true; Job.quickset_override := false;
       Job.quickset := "QuickSet1" |}
  = (RoutingEngine.not_applicable, {[ "/art/Blank"; "/in/art.pdf" ]}).
Proof. reflexivity. Qed.

(** * Further properties of the code *)

Section list_helpers.

Lemma lookup_List_map {A B} (f : A → B) (l : list A) (i : nat) :
  map f l !! i = f <$> l !! i.
Proof.
revert i. induction l as [|x l IH]; intros [|i]; simpl; try done.
Qed.

Lemma elem_of_List_map {A B} (f : A → B) (l : list A) (y : B) :
  y ∈ map f l ↔ ∃ x, y = f x ∧ x ∈ l.
Proof.
rewrite list_elem_of_In, in_map_iff. setoid_rewrite list_elem_of_In.
naive_solver.
Qed.

End list_helpers.

Section rule_relations.
Implicit Types (r o : RoutingRule.t) (j : Job.t).

Lemma common_loop_spec (c1 c2 : gmap string string) keys :
  RoutingRule.common_loop c1 c2 keys = true ↔
  ∀ k, k ∈ keys → c1 !! k = c2 !! k.
Proof.
induction keys as [|key keys IH]; simpl.
- split; [intros _ k H; inversion H|done].
- destruct (decide (c1 !! key ≠ c2 !! key)) as [Hne|Heq].
  + split; [done|]. intros H. exfalso. apply Hne, H. left.
  + apply dec_stable in Heq. rewrite IH. split.
    * intros H k [->|Hk]%elem_of_cons; auto.
    * intros H k Hk. apply H. by right.
Qed.

Lemma conflicts_with_spec r o :
  RoutingRule.conflicts_with r o = true ↔
  RoutingRule.target_folder r ≠ RoutingRule.target_folder o
  ∧ (∃ k, is_Some (RoutingRule.criteria r !! k)
          ∧ is_Some (RoutingRule.criteria o !! k))
  ∧ ∀ k v w, RoutingRule.criteria r !! k = Some v →
             RoutingRule.criteria o !! k = Some w → v = w.
Proof.
unfold RoutingRule.conflicts_with.
destruct (decide (RoutingRule.target_folder r = RoutingRule.target_folder o))
  as [Ht|Ht].
{ split; [done|]. by intros [? _]. }
destruct (decide (dom (RoutingRule.criteria r) ∩ dom (RoutingRule.criteria o)
                  = (∅ : gset string))) as [He|Hne].
{ split; [done|]. intros (_ & (k & Hk1 & Hk2) & _). exfalso.
  assert (Hin : k ∈ dom (RoutingRule.criteria r) ∩ dom (RoutingRule.criteria o)).
  { apply elem_of_intersection. by rewrite !elem_of_dom. }
  rewrite He in Hin. by apply not_elem_of_empty in Hin. }
rewrite common_loop_spec. split.
- intros H. split; [done|]. split.
  + apply set_choose_L in Hne as [k Hk].
    apply elem_of_intersection in Hk as [Hk1 Hk2].
    exists k. by rewrite <- !elem_of_dom.
  + intros k v w Hv Hw.
    assert (Hk : k ∈ elements (dom (RoutingRule.criteria r)
                               ∩ dom (RoutingRule.criteria o))).
    { apply elem_of_elements, elem_of_intersection.
      rewrite !elem_of_dom. eauto. }
    apply H in Hk. congruence.
- intros (_ & _ & H) k Hk.
  apply elem_of_elements, elem_of_intersection in Hk as [Hk1 Hk2].
  apply elem_of_dom in Hk1 as [v Hv]. apply elem_of_dom in Hk2 as [w Hw].
  rewrite Hv, Hw. f_equal. by eapply H.
Qed.

(** X1: two rules conflict exactly when their target folders differ, they
    have at least one criterion key in common and they require the same
    value for every common key; the relation is symmetric, and no rule
    conflicts with itself. *)
Theorem conflicts_with_symmetric r o :
  (RoutingRule.conflicts_with r o = true ↔
     RoutingRule.target_folder r ≠ RoutingRule.target_folder o
     ∧ (∃ k, is_Some (RoutingRule.criteria r !! k)
             ∧ is_Some (RoutingRule.criteria o !! k))
     ∧ ∀ k v w, RoutingRule.criteria r !! k = Some v →
                RoutingRule.criteria o !! k = Some w → v = w)
  ∧ RoutingRule.conflicts_with r o = RoutingRule.conflicts_with o r
  ∧ RoutingRule.conflicts_with r r = false.
Proof.
split; [apply conflicts_with_spec|]. split.
- assert (H : ∀ a b, RoutingRule.conflicts_with a b = true →
                     RoutingRule.conflicts_with b a = true).
  { intros a b (Ht & (k & Hk1 & Hk2) & Hv)%conflicts_with_spec.
    apply conflicts_with_spec. split; [done|]. split; [eauto|].
    intros k' v w Hv' Hw'. symmetry. by eapply Hv. }
  destruct (RoutingRule.conflicts_with r o) eqn:H1,
           (RoutingRule.conflicts_with o r) eqn:H2; try done.
  + apply H in H1. congruence.
  + apply H in H2. congruence.
- unfold RoutingRule.conflicts_with. by rewrite decide_True.
Qed.

(** X2: two rules with different target folders that match the same job
    and have a criterion key in common are reported as conflicting. *)
Theorem matching_rules_conflict r o j k :
  RoutingRule.matches_job r j = true →
  RoutingRule.matches_job o j = true →
  RoutingRule.target_folder r ≠ RoutingRule.target_folder o →
  is_Some (RoutingRule.criteria r !! k) →
  is_Some (RoutingRule.criteria o !! k) →
  RoutingRule.conflicts_with r o = true.
Proof.
intros [_ Hr]%matches_job_spec [_ Ho]%matches_job_spec Ht Hk1 Hk2.
apply conflicts_with_spec. split; [done|]. split; [eauto|].
intros k' v w Hv Hw. apply Hr in Hv. apply Ho in Hw. congruence.
Qed.

Lemma matching_rules_conflict_witness :
  RoutingRule.conflicts_with
    (RoutingRule.from_dict (Example.rule "A" "Normal" [("Finish", "Matte")]))
    (RoutingRule.from_dict
       (Example.rule "B" "High" [("Finish", "Matte"); ("Media Group", "Vinyl")]))
  = true.
Proof.
apply (matching_rules_conflict _ _ Example.matte_job "Finish").
- vm_compute. reflexivity.
- vm_compute. reflexivity.
- discriminate.
- vm_compute. eauto.
- vm_compute. eauto.
Defined.

Lemma validate_items_errors items r :
  (RoutingRule.validate_items items r).2 =
  validate_head_errors r
  ++ map (λ kv, msg_empty_value kv.1)
       (List.filter (λ kv, Py.all_space kv.2) items).
Proof.
unfold RoutingRule.validate_items, validate_head_errors. cbn [snd].
assert (Ht : Py.truthy (Py.strip (RoutingRule.target_folder r))
             = negb (Py.all_space (RoutingRule.target_folder r))).
{ unfold Py.truthy. destruct (Py.all_space _) eqn:Hs.
  - apply strip_empty_iff in Hs. by rewrite (bool_decide_eq_true_2 _ Hs).
  - rewrite bool_decide_eq_false_2; [done|].
    intros H%strip_empty_iff. congruence. }
rewrite Ht.
assert (Hloop : ∀ (items : list (string * string)) (errors : list string),
  foldl (λ errs kv,
           if negb (Py.truthy kv.2) || bool_decide (Py.strip kv.2 = "")
           then errs ++ ["Criteria '" +:+ kv.1 +:+ "' has empty value"]
           else errs) errors items
  = errors ++ map (λ kv, msg_empty_value kv.1)
                (List.filter (λ kv, Py.all_space kv.2) items)).
{ clear. induction items as [|kv items IH]; intros errors; simpl.
  - by rewrite app_nil_r.
  - rewrite IH.
    assert (Hb : negb (Py.truthy kv.2) || bool_decide (Py.strip kv.2 = "")
                 = Py.all_space kv.2).
    { rewrite <- blank_test. unfold Py.truthy.
      by rewrite !negb_involutive. }
    rewrite Hb. destruct (Py.all_space kv.2); [|done].
    simpl. by rewrite <- app_assoc. }
rewrite Hloop. f_equal.
destruct (Py.all_space (RoutingRule.target_folder r)); simpl;
  destruct (decide (RoutingRule.criteria r = ∅)); simpl;
  by case_bool_decide.
Qed.

Lemma validate_items_flag items r :
  (RoutingRule.validate_items items r).1 = true
  ↔ (RoutingRule.validate_items items r).2 = [].
Proof.
unfold RoutingRule.validate_items. cbn [fst snd].
match goal with |- bool_decide (length ?l = 0) = true ↔ _ =>
  destruct l; simpl; split; done end.
Qed.

Lemma rule_validate_items_spec items r :
  (∀ k v, (k, v) ∈ items ↔ RoutingRule.criteria r !! k = Some v) →
  (RoutingRule.validate_items items r).1 = true ↔
  Py.all_space (RoutingRule.target_folder r) = false
  ∧ RoutingRule.criteria r ≠ ∅
  ∧ RoutingRule.priority r ∈ ["High"; "Normal"; "Low"]
  ∧ ∀ k v, RoutingRule.criteria r !! k = Some v → Py.all_space v = false.
Proof.
intros Hitems. rewrite validate_items_flag, validate_items_errors.
unfold validate_head_errors.
assert (Hmap : ∀ l : list (string * string),
          map (λ kv, msg_empty_value kv.1) l = [] ↔ l = []).
{ intros [|? ?]; simpl; split; done. }
split.
- intros H. apply app_eq_nil in H as [H1 H4].
  apply app_eq_nil in H1 as [H1 H3]. apply app_eq_nil in H1 as [H1 H2].
  apply Hmap in H4.
  split; [by destruct (Py.all_space (RoutingRule.target_folder r))|].
  split; [by destruct (decide (RoutingRule.criteria r = ∅))|].
  split; [by case_bool_decide|].
  intros k v Hkv. apply Hitems in Hkv.
  exact (proj1 (filter_nil_iff _ _) H4 (k, v) Hkv).
- intros (H1 & H2 & H3 & H4). rewrite H1.
  rewrite decide_False by done. rewrite bool_decide_eq_true_2 by done.
  simpl. apply Hmap, filter_nil_iff. intros [k v] Hkv.
  apply (H4 k). by apply Hitems.
Qed.

Lemma rule_validate_spec r :
  (RoutingRule.validate r).1 = true ↔
  Py.all_space (RoutingRule.target_folder r) = false
  ∧ RoutingRule.criteria r ≠ ∅
  ∧ RoutingRule.priority r ∈ ["High"; "Normal"; "Low"]
  ∧ ∀ k v, RoutingRule.criteria r !! k = Some v → Py.all_space v = false.
Proof.
apply rule_validate_items_spec. intros k v. apply elem_of_map_to_list.
Qed.

(** X3: a rule passes [validate] exactly when its target folder is not
    blank (empty or white space only), it has at least one criterion, its
    priority is High, Normal or Low, and no criterion requires a blank
    value; the flag is true exactly when the list of errors is empty.
    The list of errors holds, in this order, the message on the target
    folder, the one on missing criteria, the one on the priority, and one
    message for each entry with a blank value, in the order in which the
    entries are iterated; the verdict is the same for every such order. *)
Theorem rule_validate_valid_iff r :
  ((RoutingRule.validate r).1 = true ↔
     Py.all_space (RoutingRule.target_folder r) = false
     ∧ RoutingRule.criteria r ≠ ∅
     ∧ RoutingRule.priority r ∈ ["High"; "Normal"; "Low"]
     ∧ ∀ k v, RoutingRule.criteria r !! k = Some v → Py.all_space v = false)
  ∧ ((RoutingRule.validate r).1 = true ↔ (RoutingRule.validate r).2 = [])
  ∧ (∀ items,
       (RoutingRule.validate_items items r).2 =
         (if Py.all_space (RoutingRule.target_folder r)
          then ["Target folder is required"] else [])
         ++ (if decide (RoutingRule.criteria r = ∅)
             then ["At least one criteria is required"] else [])
         ++ (if bool_decide (RoutingRule.priority r ∈ ["High"; "Normal"; "Low"])
             then [] else ["Priority must be High, Normal, or Low"])
         ++ map (λ kv, "Criteria '" +:+ kv.1 +:+ "' has empty value")
              (List.filter (λ kv, Py.all_space kv.2) items)
       ∧ ((RoutingRule.validate_items items r).1 = true
          ↔ (RoutingRule.validate_items items r).2 = []))
  ∧ (∀ items,
       (∀ k v, (k, v) ∈ items ↔ RoutingRule.criteria r !! k = Some v) →
       (RoutingRule.validate_items items r).1 = (RoutingRule.validate r).1).
Proof.
split; [apply rule_validate_spec|].
split; [apply validate_items_flag|]. split.
- intros items. split; [|apply validate_items_flag].
  rewrite validate_items_errors. unfold validate_head_errors.
  by rewrite <- !app_assoc.
- intros items Hitems.
  pose proof (rule_validate_items_spec items r Hitems) as H1.
  pose proof (rule_validate_spec r) as H2.
  destruct (RoutingRule.validate_items items r).1,
           (RoutingRule.validate r).1; try done.
  + symmetry. apply H2, H1. done.
  + apply H1, H2. done.
Qed.

End rule_relations.

Section file_step_outcomes.
Context {FS : Type} `{!FileSystem FS}.
Variable path_join : string → string → string.
Import RoutingEngine.

(** X13: [route_to_hotfolder] fails fast, leaving the file system as it
    was, when the hotfolder root is unset or missing and when the printer
    folder is missing (it never creates a printer folder); it reports
    success exactly when root and printer folder exist and both
    [makedirs] on the target folder and the copy into it raise nothing,
    and then reports the target path and no error. *)
Theorem route_to_hotfolder_outcome cfg (fs : FS) file_path name job :
  let root := ConfigManager.hotfolder_root cfg in
  let printer_path :=
    path_join root (ConfigManager.get_printer_folder_name cfg (Job.printer job)) in
  let target_path :=
    path_join printer_path (target_or_default (determine_target_folder cfg job)) in
  let out := route_to_hotfolder path_join cfg fs file_path name job in
  (root = "" ∨ path_exists fs root = false →
   out = (failed "Hotfolder root not set or doesn't exist", fs))
  ∧ (root ≠ "" → path_exists fs root = true →
     path_exists fs printer_path = false →
     out = (failed ("Printer folder doesn't exist: " +:+ printer_path), fs))
  ∧ (success out.1 = Some true ↔
       root ≠ "" ∧ path_exists fs root = true
       ∧ path_exists fs printer_path = true
       ∧ (makedirs fs target_path).1 = None
       ∧ (copy2 (makedirs fs target_path).2 file_path
            (path_join target_path name)).1 = None)
  ∧ (success out.1 = Some true →
     path out.1 = Some target_path ∧ error out.1 = None
     ∧ out.2 = (copy2 (makedirs fs target_path).2 file_path
                  (path_join target_path name)).2)
  ∧ (success out.1 ≠ Some true → success out.1 = Some false
     ∧ path out.1 = None ∧ is_Some (error out.1)).
Proof.
cbv zeta. unfold route_to_hotfolder, ConfigManager.get_hotfolder_root, Py.truthy.
destruct (decide (ConfigManager.hotfolder_root cfg = "")) as [Hr|Hr].
{ rewrite (bool_decide_eq_true_2 _ Hr). simpl. naive_solver. }
rewrite (bool_decide_eq_false_2 _ Hr). simpl.
destruct (path_exists fs (ConfigManager.hotfolder_root cfg)) eqn:He; simpl;
  [|naive_solver].
destruct (path_exists fs (path_join _ _)) eqn:Hp; simpl; [|naive_solver].
destruct (makedirs fs _) as [[e|] fs1] eqn:Hm; simpl; [naive_solver|].
destruct (copy2 fs1 _ _) as [[e|] fs2] eqn:Hc; simpl; naive_solver.
Qed.

(** X15: [copy_to_client_art_folder] reports success exactly when the
    client is not blank, has an art-folder mapping, the mapped folder exists
    and the copy raises nothing, and then reports the mapped folder as path;
    a [PermissionError] and any other exception of the copy give different
    messages; when the step does not apply or the folder is missing the file
    system is left as it was. *)
Theorem copy_to_client_art_folder_outcome cfg (fs : FS) file_path name job :
  let out := copy_to_client_art_folder path_join cfg fs file_path name job in
  let mapped := ConfigManager.client_art_folders cfg !! Job.client job in
  (success out.1 = Some true ↔
     Py.all_space (Job.client job) = false
     ∧ ∃ art_folder,
         mapped = Some art_folder ∧ path_exists fs art_folder = true
         ∧ (copy2 fs file_path (path_join art_folder name)).1 = None)
  ∧ (success out.1 = Some true → path out.1 = mapped ∧ error out.1 = None)
  ∧ (∀ art_folder e,
       Py.all_space (Job.client job) = false →
       mapped = Some art_folder → path_exists fs art_folder = true →
       (copy2 fs file_path (path_join art_folder name)).1 = Some e →
       success out.1 = Some false
       ∧ error out.1 =
           Some (match e with
                 | PermissionError msg =>
                     "Permission denied accessing art folder: " +:+ msg
                 | OtherError msg => "Art folder copy failed: " +:+ msg
                 end))
  ∧ (success out.1 = None ∨
     (∃ art_folder, mapped = Some art_folder ∧ path_exists fs art_folder = false) →
     out.2 = fs).
Proof.
cbv zeta. unfold copy_to_client_art_folder, ConfigManager.get_client_art_folders.
rewrite blank_test.
destruct (Py.all_space (Job.client job)) eqn:Hc; simpl; [naive_solver|].
destruct (ConfigManager.client_art_folders cfg !! Job.client job)
  as [art_folder|] eqn:Hm; simpl; [|naive_solver].
destruct (path_exists fs art_folder) eqn:He; simpl.
2:{ split; [|split; [|split]]; try done.
    - split; [done|]. intros (_ & a & [= <-] & ? & _). congruence.
    - intros a e' _ [= <-]. congruence. }
destruct (copy2 fs file_path (path_join art_folder name)) as [[[msg|msg]|] fs1] eqn:Hcp;
  simpl.
- split; [|split; [|split]]; try done.
  + split; [done|]. intros (_ & a & [= <-] & _ & Hn). by rewrite Hcp in Hn.
  + intros a e' _ [= <-] _. rewrite Hcp. simpl. by intros [= <-].
  + intros [?|(a & [= <-] & ?)]; [done|congruence].
- split; [|split; [|split]]; try done.
  + split; [done|]. intros (_ & a & [= <-] & _ & Hn). by rewrite Hcp in Hn.
  + intros a e' _ [= <-] _. rewrite Hcp. simpl. by intros [= <-].
  + intros [?|(a & [= <-] & ?)]; [done|congruence].
- split; [|split; [|split]]; try done.
  + split; [|done]. intros _. split; [done|]. exists art_folder. by rewrite Hcp.
  + intros a e' _ [= <-] _. rewrite Hcp. simpl. done.
  + intros [?|(a & [= <-] & ?)]; [done|congruence].
Qed.

(** X14: the overall success of [process_file] is [True] exactly when the
    hotfolder step or the art-copy step reports [True], [False] exactly
    when both report [False], and [None] exactly when the hotfolder step
    reports [False] and the art-copy step [None] (not applicable, or art
    copying disabled); the art-copy step, when enabled, runs on the file
    system the hotfolder step left, whatever that step reported, and the
    result carries the filename it was given. *)
Theorem process_file_overall cfg (fs : FS) file_path name job :
  let out := process_file path_join cfg fs file_path name job in
  let hot := route_to_hotfolder path_join cfg fs file_path name job in
  (overall_success out.1 = Some true ↔
     success (hotfolder out.1) = Some true ∨ success (art_copy out.1) = Some true)
  ∧ (overall_success out.1 = Some false ↔
       success (hotfolder out.1) = Some false
       ∧ success (art_copy out.1) = Some false)
  ∧ hotfolder out.1 = hot.1
  ∧ (ConfigManager.enable_art_copy cfg = true →
     (art_copy out.1, out.2) =
       copy_to_client_art_folder path_join cfg hot.2 file_path name job)
  ∧ filename out.1 = name
  ∧ (overall_success out.1 = None ↔
       success (hotfolder out.1) = Some false
       ∧ success (art_copy out.1) = None)
  ∧ (ConfigManager.enable_art_copy cfg = false →
     art_copy out.1 = not_applicable ∧ out.2 = hot.2
     ∧ overall_success out.1 ≠ Some false).
Proof.
cbv zeta. unfold process_file, ConfigManager.is_art_copy_enabled.
pose proof (route_to_hotfolder_success path_join cfg fs file_path name job)
  as [b Hb].
destruct (route_to_hotfolder path_join cfg fs file_path name job)
  as [hot fs1] eqn:Hhot. simpl in Hb.
destruct (ConfigManager.enable_art_copy cfg) eqn:Hen; simpl.
- destruct (copy_to_client_art_folder path_join cfg fs1 file_path name job)
    as [art fs2]. simpl. rewrite Hb.
  destruct b, (success art) as [[]|]; simpl; naive_solver.
- rewrite Hb. destruct b; simpl; naive_solver.
Qed.

End file_step_outcomes.

Section config_lookups.
Import ConfigManager.

Lemma printer_folder_loop_first items pre folder pdata post name :
  items = pre ++ (folder, pdata) :: post →
  display_of (folder, pdata) = name →
  (∀ fp, fp ∈ pre → display_of fp ≠ name) →
  printer_folder_loop items name = folder.
Proof.
intros -> Hd Hpre. induction pre as [|[f p] pre IH]; simpl.
- unfold display_of in Hd. simpl in Hd. by rewrite bool_decide_eq_true_2.
- rewrite bool_decide_eq_false_2.
  + apply IH. intros fp Hfp. apply Hpre. by right.
  + apply (Hpre (f, p)). left.
Qed.

Lemma printer_folder_loop_unknown items name :
  (∀ fp, fp ∈ items → display_of fp ≠ name) →
  printer_folder_loop items name = name.
Proof.
induction items as [|[f p] items IH]; intros Hall; simpl; [done|].
rewrite bool_decide_eq_false_2.
- apply IH. intros fp Hfp. apply Hall. by right.
- apply (Hall (f, p)). left.
Qed.

Lemma printer_folder_loop_known items name fp :
  fp ∈ items → display_of fp = name →
  ∃ pdata, (printer_folder_loop items name, pdata) ∈ items
           ∧ display_of (printer_folder_loop items name, pdata) = name.
Proof.
induction items as [|[f p] items IH]; intros Hin Hd; [inversion Hin|].
simpl. destruct (decide (default f (display_name p) = name)) as [He|Hne].
- rewrite bool_decide_eq_true_2 by done. exists p. split; [left|done].
- rewrite bool_decide_eq_false_2 by done.
  apply elem_of_cons in Hin as [->|Hin]; [done|].
  destruct (IH Hin Hd) as (pdata & H1 & H2). exists pdata. split; [by right|done].
Qed.

(** X11: [get_printer_folder_name] returns the folder of the first printer
    whose display name (its folder name when it has none) is the given one
    and returns the given name unchanged when there is none; every name
    that [get_active_printers] lists resolves to a configured folder with
    that display name. *)
Theorem get_printer_folder_name_lookup cfg name :
  (∀ pre folder pdata post,
     printers cfg = pre ++ (folder, pdata) :: post →
     display_of (folder, pdata) = name →
     (∀ fp, fp ∈ pre → display_of fp ≠ name) →
     get_printer_folder_name cfg name = folder)
  ∧ ((∀ fp, fp ∈ printers cfg → display_of fp ≠ name) →
     get_printer_folder_name cfg name = name)
  ∧ (name ∈ get_active_printers cfg →
     ∃ pdata,
       (get_printer_folder_name cfg name, pdata) ∈ printers cfg
       ∧ display_of (get_printer_folder_name cfg name, pdata) = name).
Proof.
unfold get_printer_folder_name. split; [|split].
- intros pre folder pdata post. apply printer_folder_loop_first.
- apply printer_folder_loop_unknown.
- unfold get_active_printers. intros Hin.
  apply list_elem_of_omap in Hin as (fp & Hfp & Hd).
  destruct (default true (active fp.2)); [|done]. injection Hd as Hd.
  by apply (printer_folder_loop_known _ _ fp).
Qed.

Lemma add_routing_rule_rules cfg printer rule q :
  routing_rules (add_routing_rule cfg printer rule) !! q =
  if decide (q = printer)
  then Some (default [] (routing_rules cfg !! printer) ++ [rule])
  else routing_rules cfg !! q.
Proof.
unfold add_routing_rule. simpl.
destruct (decide (q = printer)) as [->|Hne].
- rewrite lookup_alter_eq.
  destruct (routing_rules cfg !! printer) as [l|] eqn:Hl.
  + by rewrite Hl.
  + by rewrite lookup_insert_eq.
- rewrite lookup_alter_ne by done.
  destruct (routing_rules cfg !! printer); [done|].
  by rewrite lookup_insert_ne.
Qed.

(** X12: [add_routing_rule] stores, under the printer's key, the old rule
    list (empty when there was none) with the rule appended, and leaves
    the lists of the other printers unchanged.  For a printer name that is
    not empty [get_routing_rules] then returns that list; for the empty
    name it returns the whole mapping, as it always does.  A job of
    another printer is routed as before, and a job that was routed to some
    folder is still routed. *)
Theorem add_routing_rule_lookup cfg printer rule :
  (printer ≠ "" →
   get_routing_rules (add_routing_rule cfg printer rule) printer =
   PrinterRules (default [] (routing_rules cfg !! printer) ++ [rule]))
  ∧ (∀ q, q ≠ printer →
          routing_rules (add_routing_rule cfg printer rule) !! q
          = routing_rules cfg !! q)
  ∧ (∀ job, Job.printer job ≠ printer →
            RoutingEngine.determine_target_folder
              (add_routing_rule cfg printer rule) job
            = RoutingEngine.determine_target_folder cfg job)
  ∧ (∀ job, is_Some (RoutingEngine.determine_target_folder cfg job) →
            is_Some (RoutingEngine.determine_target_folder
                       (add_routing_rule cfg printer rule) job))
  ∧ routing_rules (add_routing_rule cfg printer rule) !! printer
    = Some (default [] (routing_rules cfg !! printer) ++ [rule])
  ∧ (printer = "" →
     get_routing_rules (add_routing_rule cfg printer rule) printer =
     AllRules (routing_rules (add_routing_rule cfg printer rule))).
Proof.
assert (H5 : routing_rules (add_routing_rule cfg printer rule) !! printer
             = Some (default [] (routing_rules cfg !! printer) ++ [rule])).
{ rewrite add_routing_rule_rules. by rewrite decide_True. }
assert (H6 : printer = "" →
     get_routing_rules (add_routing_rule cfg printer rule) printer =
     AllRules (routing_rules (add_routing_rule cfg printer rule))).
{ intros ->. reflexivity. }
assert (H1 : printer ≠ "" →
   get_routing_rules (add_routing_rule cfg printer rule) printer =
   PrinterRules (default [] (routing_rules cfg !! printer) ++ [rule])).
{ intros Hp. rewrite get_routing_rules_selected by done.
  rewrite add_routing_rule_rules. by rewrite decide_True. }
assert (H3 : ∀ job, Job.printer job ≠ printer →
            RoutingEngine.determine_target_folder
              (add_routing_rule cfg printer rule) job
            = RoutingEngine.determine_target_folder cfg job).
{ intros job Hne.
  destruct (decide (Job.printer job = "")) as [He|Hs].
  - by rewrite !determine_target_folder_no_printer.
  - rewrite (determine_target_folder_printer_rules _ job _
               (get_routing_rules_selected _ _ Hs)).
    rewrite (determine_target_folder_printer_rules cfg job _
               (get_routing_rules_selected _ _ Hs)).
    rewrite add_routing_rule_rules. by rewrite decide_False. }
split; [done|]. split.
{ intros q Hq. rewrite add_routing_rule_rules. by rewrite decide_False. }
split; [done|]. split; [|done].
intros job Hsome.
destruct (decide (Job.printer job = printer)) as [Heq|Hne].
2:{ by rewrite H3. }
destruct (decide (printer = "")) as [He|Hs].
{ rewrite determine_target_folder_no_printer in Hsome by congruence.
  by destruct Hsome. }
destruct (RoutingEngine.determine_target_folder
            (add_routing_rule cfg printer rule) job) eqn:Hnew; [eauto|].
exfalso.
assert (Hold : RoutingEngine.determine_target_folder cfg job = None).
{ rewrite <- Heq in Hs.
  apply (determine_target_folder_none_iff cfg job _
           (get_routing_rules_selected _ _ Hs)).
  apply matching_of_nil_iff. intros r Hr.
  rewrite <- Heq in H1. specialize (H1 Hs).
  rewrite Heq in H1.
  assert (Hp : get_routing_rules (add_routing_rule cfg printer rule)
                 (Job.printer job)
               = PrinterRules (default [] (routing_rules cfg !! printer) ++ [rule]))
    by (by rewrite Heq).
  apply (determine_target_folder_none_iff _ job _ Hp) in Hnew.
  rewrite matching_of_nil_iff in Hnew. apply Hnew.
  rewrite map_app. apply elem_of_app. left. by rewrite <- Heq. }
rewrite Hold in Hsome. by destruct Hsome.
Qed.

End config_lookups.

Section job_facts.
Context {FS : Type} `{!FileSystem FS}.
Variable path_join : string → string → string.

Lemma base_criteria_lookup j k v :
  (list_to_map (base_criteria j) : gmap string string) !! k = Some v
  ↔ (k, v) ∈ base_criteria j.
Proof.
symmetry. apply elem_of_list_to_map.
unfold base_criteria. simpl.
apply (bool_decide_unpack _). by vm_compute.
Qed.

Lemma base_criteria_not_ssds j v : (("SSDS Mode" : string), v) ∉ base_criteria j.
Proof.
unfold base_criteria. rewrite !elem_of_cons, elem_of_nil.
intros H. repeat destruct H as [H|H]; try discriminate; done.
Qed.

Lemma get_routing_criteria_lookup j k v :
  Job.get_routing_criteria j !! k = Some v ↔
  Job.kept_value v = true
  ∧ ((k, v) ∈ base_criteria j
     ∨ (k = "SSDS Mode" ∧ Job.print_mode j = "Flatbed"
        ∧ v = Job.ssds_mode j)).
Proof.
unfold Job.get_routing_criteria.
fold (base_criteria j). rewrite map_lookup_filter_Some. cbn [snd].
destruct (decide (Job.print_mode j = "Flatbed")) as [Hf|Hf].
- destruct (decide (k = "SSDS Mode")) as [->|Hk].
  + rewrite lookup_insert_eq. split.
    * intros [[= <-] ?]. split; [done|]. by right.
    * intros [? [Hin|(_ & _ & ->)]]; [|done].
      by apply base_criteria_not_ssds in Hin.
  + rewrite lookup_insert_ne by done. rewrite base_criteria_lookup.
    split; [intros [? ?]; split; [done|by left]|].
    intros [? [?|(? & _)]]; done.
- rewrite base_criteria_lookup.
  split; [intros [? ?]; split; [done|by left]|].
  intros [? [?|(_ & ? & _)]]; done.
Qed.

(** X16: the derived criteria of a job are exactly its ten attributes
    whose value is not empty, "None" or "No", and in addition the entry
    "SSDS Mode" for a Flatbed job whose duplex mode is not such a value;
    a job that is not Flatbed never has an "SSDS Mode" criterion. *)
Theorem get_routing_criteria_entries j k v :
  (Job.get_routing_criteria j !! k = Some v ↔
     Job.kept_value v = true
     ∧ ((k, v) ∈ base_criteria j
        ∨ (k = "SSDS Mode" ∧ Job.print_mode j = "Flatbed"
           ∧ v = Job.ssds_mode j)))
  ∧ (Job.print_mode j ≠ "Flatbed" →
     Job.get_routing_criteria j !! "SSDS Mode" = None).
Proof.
split; [apply get_routing_criteria_lookup|].
intros Hf. destruct (Job.get_routing_criteria j !! "SSDS Mode") as [w|] eqn:Hw;
  [|done].
apply get_routing_criteria_lookup in Hw as [_ [Hin|(_ & ? & _)]]; [|done].
by apply base_criteria_not_ssds in Hin.
Qed.

(** X17: a job passes [validate] exactly when a file is selected, the
    client is not blank, a printer is selected, both dimensions parse as
    floats and the quantity parses as an integer.  For such a job the
    configuration manager hands the routing engine the rule list of the
    job's printer, and the art-copy step is not applicable only when the
    client has no art-folder mapping. *)
Theorem job_validate_valid_iff (parses_float parses_int : string → bool) j :
  ((Job.validate parses_float parses_int j).1 = true ↔
     Job.file_path j ≠ "" ∧ Py.all_space (Job.client j) = false
     ∧ Job.printer j ≠ ""
     ∧ parses_float (Job.size_w j) = true ∧ parses_float (Job.size_h j) = true
     ∧ parses_int (Job.quantity j) = true)
  ∧ ((Job.validate parses_float parses_int j).1 = true ↔
     (Job.validate parses_float parses_int j).2 = [])
  ∧ ((Job.validate parses_float parses_int j).1 = true →
     ∀ cfg (fs : FS) file_path name,
       ConfigManager.get_routing_rules cfg (Job.printer j)
       = ConfigManager.PrinterRules
           (default [] (ConfigManager.routing_rules cfg !! Job.printer j))
       ∧ (RoutingEngine.success
            (RoutingEngine.copy_to_client_art_folder path_join cfg fs
               file_path name j).1 = None
          ↔ ConfigManager.client_art_folders cfg !! Job.client j = None)).
Proof.
assert (Hiff : (Job.validate parses_float parses_int j).1 = true ↔
     Job.file_path j ≠ "" ∧ Py.all_space (Job.client j) = false
     ∧ Job.printer j ≠ ""
     ∧ parses_float (Job.size_w j) = true ∧ parses_float (Job.size_h j) = true
     ∧ parses_int (Job.quantity j) = true).
{ unfold Job.validate. cbn [fst].
  assert (Ht : Py.truthy (Py.strip (Job.client j))
               = negb (Py.all_space (Job.client j))).
  { unfold Py.truthy. destruct (Py.all_space _) eqn:Hs.
    - apply strip_empty_iff in Hs. by rewrite (bool_decide_eq_true_2 _ Hs).
    - rewrite bool_decide_eq_false_2; [done|].
      intros H%strip_empty_iff. congruence. }
  rewrite Ht. unfold Py.truthy.
  destruct (decide (Job.file_path j = "")) as [H1|H1];
    [rewrite (bool_decide_eq_true_2 _ H1)|rewrite (bool_decide_eq_false_2 _ H1)];
  destruct (Py.all_space (Job.client j));
  (destruct (decide (Job.printer j = "")) as [H3|H3];
    [rewrite (bool_decide_eq_true_2 _ H3)|rewrite (bool_decide_eq_false_2 _ H3)]);
  destruct (parses_float (Job.size_w j)), (parses_float (Job.size_h j)),
    (parses_int (Job.quantity j)); simpl; naive_solver. }
split; [done|]. split.
{ unfold Job.validate. cbn [fst snd].
  match goal with |- bool_decide (length ?l = 0) = true ↔ _ =>
    destruct l; simpl; split; done end. }
intros Hv cfg fs file_path name.
apply Hiff in Hv as (_ & Hc & Hp & _).
split; [by apply get_routing_rules_selected|].
rewrite copy_to_client_art_folder_none. rewrite Hc. naive_solver.
Qed.

End job_facts.

Section dry_run_facts.
Import RoutingEngine.

Lemma matching_rule_infos_map rules job :
  matching_rule_infos (map RoutingRule.from_dict rules) job
  = map info_of (matching_of rules job).
Proof.
unfold matching_rule_infos, matching_of.
generalize (imap pair (map RoutingRule.from_dict rules)). intros items.
assert (H : ∀ acc,
  foldl (λ infos (ir : nat * RoutingRule.t),
           if RoutingRule.matches_job ir.2 job
           then infos ++ [{| m_index := ir.1;
                             m_target_folder := RoutingRule.target_folder ir.2;
                             m_criteria := RoutingRule.criteria ir.2;
                             m_priority := RoutingRule.priority ir.2 |}]
           else infos) acc items
  = acc ++ map info_of
             (List.filter (λ ir, RoutingRule.matches_job ir.2 job) items)).
{ induction items as [|ir items IH]; intros acc; simpl.
  - by rewrite app_nil_r.
  - rewrite IH. destruct (RoutingRule.matches_job ir.2 job); [|done].
    simpl. by rewrite <- app_assoc. }
apply H.
Qed.

Lemma matching_of_elem rules job i r :
  (i, r) ∈ matching_of rules job ↔
  (RoutingRule.from_dict <$> rules !! i) = Some r
  ∧ RoutingRule.matches_job r job = true.
Proof.
unfold matching_of. rewrite list_elem_of_In, filter_In, <- list_elem_of_In.
rewrite elem_of_lookup_imap. simpl. split.
- intros [(i' & r' & [= -> ->] & Hl) Hm]. by rewrite <- lookup_List_map.
- intros [Hl Hm]. split; [|done]. exists i, r. split; [done|].
  by rewrite lookup_List_map.
Qed.

Lemma determine_target_folder_in_matching cfg job rules tf :
  ConfigManager.get_routing_rules cfg (Job.printer job)
    = ConfigManager.PrinterRules rules →
  determine_target_folder cfg job = Some tf →
  ∃ ir, ir ∈ matching_of rules job ∧ RoutingRule.target_folder ir.2 = tf.
Proof.
intros Hr. rewrite (determine_target_folder_printer_rules cfg job rules Hr).
destruct (1 <? length (matching_of rules job))%nat.
- destruct (sort_by_priority (matching_of rules job)) as [|ir rest] eqn:Hs;
    [done|].
  intros [= <-]. exists ir. split; [|done].
  rewrite <- (sort_by_priority_perm (matching_of rules job)), Hs. left.
- destruct (matching_of rules job) as [|ir rest]; [done|].
  intros [= <-]. exists ir. split; [left|done].
Qed.

Lemma test_job_routing_selected cfg job :
  Job.printer job ≠ "" →
  test_job_routing cfg job =
  Some {| t_job_criteria := Job.get_routing_criteria job;
          t_target_folder := determine_target_folder cfg job;
          t_matching_rules :=
            map info_of
              (matching_of
                 (default [] (ConfigManager.routing_rules cfg !! Job.printer job))
                 job);
          t_printer := Job.printer job;
          t_success := bool_decide (determine_target_folder cfg job ≠ None) |}.
Proof.
intros Hs. unfold test_job_routing.
rewrite (get_routing_rules_selected cfg _ Hs).
destruct (default [] (ConfigManager.routing_rules cfg !! Job.printer job))
  as [|d rules]; [done|].
cbv zeta. by rewrite matching_rule_infos_map.
Qed.

Lemma imap_pair_from {A} (n : nat) (l : list A) (x : nat * A) :
  x ∈ imap (λ i y, (n + i, y)) l → n ≤ x.1.
Proof.
intros (i & y & -> & _)%elem_of_lookup_imap. simpl. lia.
Qed.

Lemma filter_imap_sorted {A} (f : nat * A → bool) (n : nat) (l : list A) :
  StronglySorted lt
    (map fst (List.filter f (imap (λ i y, (n + i, y)) l))).
Proof.
revert n. induction l as [|y l IH]; intros n; [constructor|].
cbn [imap List.filter].
assert (Hext : imap ((λ i y, (n + i, y)) ∘ S) l
               = imap (λ i y, (S n + i, y)) l).
{ apply imap_ext. intros i z _. simpl. f_equal. lia. }
rewrite Hext. destruct (f (n + 0, y)); [|apply IH].
cbn [map fst]. constructor; [apply IH|].
apply Forall_forall. intros k Hk.
apply elem_of_List_map in Hk as (x & -> & Hx).
apply list_elem_of_In, filter_In in Hx as [Hx _].
apply (proj2 (list_elem_of_In _ _)), imap_pair_from in Hx. lia.
Qed.

Lemma matching_of_sorted rules job :
  StronglySorted lt (map m_index (map info_of (matching_of rules job))).
Proof.
rewrite map_map. unfold matching_of.
assert (Hpair : imap pair (map RoutingRule.from_dict rules)
                = imap (λ i y, (0 + i, y)) (map RoutingRule.from_dict rules))
  by (by apply imap_ext).
rewrite Hpair.
apply (filter_imap_sorted (λ ir, RoutingRule.matches_job ir.2 job) 0).
Qed.

(** X10: the dry run [test_job_routing] fails only for an empty printer
    name with a non-empty rules mapping.  Otherwise it reports the folder
    [determine_target_folder] returns, success exactly when at least one
    rule matches; the rules it lists are exactly the matching rules of the
    printer, each with its position, target, criteria and priority, in
    the order of the configuration (the list is the configured list,
    numbered from 0, with the rules that do not match left out, so the
    positions increase along it); and the folder reported is the target
    of one of them. *)
Theorem test_job_routing_consistent cfg job :
  match test_job_routing cfg job with
  | None => Job.printer job = "" ∧ ConfigManager.routing_rules cfg ≠ ∅
  | Some r =>
      t_target_folder r = determine_target_folder cfg job
      ∧ t_printer r = Job.printer job
      ∧ t_job_criteria r = Job.get_routing_criteria job
      ∧ (t_success r = true ↔ t_matching_rules r ≠ [])
      ∧ (t_success r = true ↔ is_Some (t_target_folder r))
      ∧ (∀ tf, t_target_folder r = Some tf →
               ∃ m, m ∈ t_matching_rules r ∧ m_target_folder m = tf)
      ∧ (∀ m, m ∈ t_matching_rules r ↔
              ∃ rule,
                (RoutingRule.from_dict <$>
                   default [] (ConfigManager.routing_rules cfg !! Job.printer job)
                     !! m_index m) = Some rule
                ∧ Job.printer job ≠ ""
                ∧ RoutingRule.matches_job rule job = true
                ∧ m = info_of (m_index m, rule))
      ∧ t_matching_rules r =
          map info_of
            (List.filter (λ ir, RoutingRule.matches_job ir.2 job)
               (imap pair
                  (map RoutingRule.from_dict
                     (if decide (Job.printer job = "") then []
                      else default []
                             (ConfigManager.routing_rules cfg
                                !! Job.printer job)))))
      ∧ StronglySorted lt (map m_index (t_matching_rules r))
  end.
Proof.
destruct (decide (Job.printer job = "")) as [He|Hs].
- unfold test_job_routing, ConfigManager.get_routing_rules, Py.truthy.
  rewrite (bool_decide_eq_true_2 _ He). simpl.
  destruct (decide (ConfigManager.routing_rules cfg = ∅)) as [Hm|Hm]; [|done].
  simpl. rewrite determine_target_folder_no_printer by done.
  split; [done|]. split; [done|]. split; [done|].
  split; [split; done|]. split; [split; [done|by intros [? ?]]|].
  split; [done|]. split; [|split; [done|constructor]].
  intros m. split.
  + intros H. inversion H.
  + intros (rule & _ & ? & _). done.
- rewrite (test_job_routing_selected cfg job Hs).
  pose proof (get_routing_rules_selected cfg _ Hs) as Hr.
  set (rules := default [] (ConfigManager.routing_rules cfg !! Job.printer job)) in *.
  pose proof (determine_target_folder_none_iff cfg job rules Hr) as Hnone.
  cbn [t_target_folder t_printer t_job_criteria t_success t_matching_rules].
  split; [done|]. split; [done|]. split; [done|].
  assert (Hsucc : bool_decide (determine_target_folder cfg job ≠ None) = true
                  ↔ matching_of rules job ≠ []).
  { rewrite bool_decide_eq_true. by rewrite Hnone. }
  split; [|split; [|split; [|split; [|split]]]].
  + rewrite Hsucc. destruct (matching_of rules job); simpl; split; done.
  + rewrite bool_decide_eq_true.
    destruct (determine_target_folder cfg job); split; try done; eauto;
      try (by intros [? ?]).
  + intros tf Htf.
    destruct (determine_target_folder_in_matching cfg job rules tf Hr Htf)
      as (ir & Hin & Ht).
    exists (info_of ir). split; [|done]. apply elem_of_List_map. eauto.
  + intros m. rewrite elem_of_List_map. split.
    * intros ([i r] & -> & Hin). apply matching_of_elem in Hin as [Hl Hm].
      exists r. simpl. done.
    * intros (rule & Hl & _ & Hm & Heq).
      exists (m_index m, rule). split; [done|]. by apply matching_of_elem.
  + reflexivity.
  + apply matching_of_sorted.
Qed.

End dry_run_facts.

Section coverage_facts.
Import RoutingEngine.

Lemma covered_values_spec key (rules : list RoutingRule.t) (v : string) :
  v ∈ covered_values key rules ↔
  v ≠ "" ∧ ∃ r, r ∈ rules ∧ RoutingRule.criteria r !! key = Some v.
Proof.
unfold covered_values.
assert (H : ∀ (rules : list RoutingRule.t) (acc : gset string),
  v ∈ foldl (λ covered rule,
           match RoutingRule.criteria rule !! key with
           | Some v => if Py.truthy v then {[v]} ∪ covered else covered
           | None => covered
           end) acc rules
  ↔ v ∈ acc ∨ (v ≠ "" ∧ ∃ r, r ∈ rules ∧ RoutingRule.criteria r !! key = Some v)).
{ clear rules. induction rules as [|r rules IH]; intros acc; simpl.
  - split; [by left|]. intros [?|(_ & r & Hr & _)]; [done|inversion Hr].
  - rewrite IH. split.
    + intros [Hacc|(Hne & r' & Hr' & Hk)].
      * destruct (RoutingRule.criteria r !! key) as [w|] eqn:Hw; [|by left].
        unfold Py.truthy in Hacc.
        destruct (decide (w = "")) as [->|Hwne].
        { rewrite bool_decide_eq_true_2 in Hacc by done. by left. }
        rewrite bool_decide_eq_false_2 in Hacc by done. simpl in Hacc.
        apply elem_of_union in Hacc as [->%elem_of_singleton|?]; [|by left].
        right. split; [done|]. exists r. split; [left|done].
      * right. split; [done|]. exists r'. split; [by right|done].
    + intros [Hacc|(Hne & r' & Hr' & Hk)].
      * left. destruct (RoutingRule.criteria r !! key) as [w|]; [|done].
        destruct (Py.truthy w); [|done]. apply elem_of_union. by right.
      * apply elem_of_cons in Hr' as [->|Hr'].
        -- left. rewrite Hk. unfold Py.truthy.
           rewrite bool_decide_eq_false_2 by done. simpl.
           apply elem_of_union. left. by apply elem_of_singleton.
        -- right. split; [done|]. eauto. }
rewrite H. split.
- intros [Hin|?]; [|done]. by apply not_elem_of_empty in Hin.
- intros ?. by right.
Qed.

Lemma gaps_loop_filter type prefix (covered : gset string) values gaps :
  gaps_loop type prefix covered values gaps =
  gaps ++ map (λ v, {| gap_type := type; gap_value := v;
                       gap_description := prefix +:+ v +:+ "'" |})
              (List.filter (λ v, bool_decide (v ∉ covered)) values).
Proof.
unfold gaps_loop. revert gaps.
induction values as [|v values IH]; intros gaps; simpl.
- by rewrite app_nil_r.
- rewrite IH. destruct (decide (v ∈ covered)) as [Hin|Hnin].
  + by rewrite bool_decide_eq_false_2 by (intros ?; done).
  + rewrite bool_decide_eq_true_2 by done. simpl. by rewrite <- app_assoc.
Qed.

Lemma find_coverage_gaps_filter (m : ConfigManager.media)
    (rules : list RoutingRule.t) (printer : string) :
  find_coverage_gaps m rules printer =
  map (λ v, {| gap_type := "Media Group"; gap_value := v;
               gap_description :=
                 "No routing rules for media group '" +:+ v +:+ "'" |})
      (List.filter (λ v, bool_decide (v ∉ covered_values "Media Group" rules))
         (map fst (ConfigManager.get_media_config m printer)))
  ++ map (λ v, {| gap_type := "Job Type"; gap_value := v;
                  gap_description :=
                    "No routing rules for job type '" +:+ v +:+ "'" |})
       (List.filter (λ v, bool_decide (v ∉ covered_values "Job Type" rules))
          ["Standard"; "Rush"; "Reprint"]).
Proof.
unfold find_coverage_gaps. by rewrite !gaps_loop_filter.
Qed.

(** X8: [find_coverage_gaps] reports a media-group gap for a value exactly
    when the value is a media group of the printer's media configuration
    and no rule requires it as "Media Group" (or the value is the empty
    string), and a job-type gap exactly for those of Standard, Rush and
    Reprint that no rule requires as "Job Type"; it reports nothing else. *)
Theorem find_coverage_gaps_spec (m : ConfigManager.media)
    (rules : list RoutingRule.t) (printer : string) (g : gap) :
  g ∈ find_coverage_gaps m rules printer ↔
  (g = {| gap_type := "Media Group"; gap_value := gap_value g;
          gap_description :=
            "No routing rules for media group '" +:+ gap_value g +:+ "'" |}
   ∧ gap_value g ∈ map fst (ConfigManager.get_media_config m printer)
   ∧ (gap_value g = "" ∨
      ∀ r, r ∈ rules →
           RoutingRule.criteria r !! "Media Group" ≠ Some (gap_value g)))
  ∨ (g = {| gap_type := "Job Type"; gap_value := gap_value g;
            gap_description :=
              "No routing rules for job type '" +:+ gap_value g +:+ "'" |}
     ∧ gap_value g ∈ ["Standard"; "Rush"; "Reprint"]
     ∧ ∀ r, r ∈ rules →
            RoutingRule.criteria r !! "Job Type" ≠ Some (gap_value g)).
Proof.
rewrite find_coverage_gaps_filter.
rewrite elem_of_app, !elem_of_List_map.
assert (Hcov : ∀ key v,
  bool_decide (v ∉ covered_values key rules) = true ↔
  (v = "" ∨ ∀ r, r ∈ rules → RoutingRule.criteria r !! key ≠ Some v)).
{ intros key v. rewrite bool_decide_eq_true, covered_values_spec. split.
  - intros H. destruct (decide (v = "")) as [|Hne]; [by left|]. right.
    intros r Hr Hk. apply H. split; [done|]. eauto.
  - intros [->|H] [Hne (r & Hr & Hk)]; [done|]. by apply (H r). }
split.
- intros [(v & -> & Hin)|(v & -> & Hin)].
  + left. cbn [gap_value]. split; [done|].
    apply list_elem_of_In, filter_In in Hin as [Hin Hc].
    apply list_elem_of_In in Hin. split; [by apply elem_of_List_map|].
    exact (proj1 (Hcov _ _) Hc).
  + right. cbn [gap_value]. split; [done|].
    apply list_elem_of_In, filter_In in Hin as [Hin Hc].
    apply list_elem_of_In in Hin. split; [done|].
    destruct (proj1 (Hcov _ _) Hc) as [->|Hc']; [|done].
    rewrite !elem_of_cons, elem_of_nil in Hin.
    destruct Hin as [|[|[|]]]; done.
- intros [(Hg & Hin & Hc)|(Hg & Hin & Hc)].
  + left. exists (gap_value g). split; [done|].
    apply list_elem_of_In, filter_In.
    split; [by apply list_elem_of_In, elem_of_List_map|].
    exact (proj2 (Hcov _ _) Hc).
  + right. exists (gap_value g). split; [done|].
    apply list_elem_of_In, filter_In. split; [by apply list_elem_of_In|].
    apply (proj2 (Hcov "Job Type" (gap_value g))). by right.
Qed.

Lemma folder_loop_partition rules folders (st : folders_state) :
  foldl (folder_step rules) st folders =
  (st.1.1.1 ++ map (info_for rules)
     (List.filter (λ n, negb (rules_for rules n =? 0)%nat) folders),
   st.1.1.2 ++
     List.filter (λ n, (rules_for rules n =? 0)%nat
                       && bool_decide (detect_folder_attributes n = ∅)) folders,
   st.1.2 ++ map (info_for rules)
     (List.filter (λ n, (rules_for rules n =? 0)%nat
                        && negb (bool_decide (detect_folder_attributes n = ∅)))
        folders),
   st.2 ++ map (λ n, (n, rules_for rules n))
     (List.filter (λ n, (1 <? rules_for rules n)%nat) folders)).
Proof.
revert st. induction folders as [|n folders IH]; intros [[[ma un] au] co].
- simpl. by rewrite !app_nil_r.
- cbn [foldl]. rewrite IH. clear IH. unfold folder_step. cbv beta iota zeta.
  fold (rules_for rules n).
  change {| f_folder := n; f_rules := rules_for rules n;
            f_detected := detect_folder_attributes n |}
    with (info_for rules n).
  cbn [List.filter].
  destruct (rules_for rules n =? 0)%nat eqn:H0;
    [ assert (H1 : (1 <? rules_for rules n)%nat = false)
        by (apply Nat.eqb_eq in H0; by rewrite H0);
      rewrite H1;
      destruct (decide (detect_folder_attributes n = ∅)) as [He|He];
      [ rewrite (bool_decide_eq_true_2 _ He)
      | rewrite (bool_decide_eq_false_2 _ He) ]
    | destruct (1 <? rules_for rules n)%nat eqn:H1 ];
    cbn [fst snd negb andb map app]; by rewrite <- ?app_assoc.
Qed.

Lemma partition_length {A} (p q : A → bool) (l : list A) :
  length (List.filter (λ x, negb (p x)) l)
  + length (List.filter (λ x, p x && q x) l)
  + length (List.filter (λ x, p x && negb (q x)) l) = length l.
Proof.
induction l as [|x l IH]; simpl; [done|].
destruct (p x), (q x); simpl; lia.
Qed.

Lemma quality_loop_total rules (q : rule_quality) :
  let q' := foldl quality_step q rules in
  good q' = good q + length (List.filter RoutingRule.is_specific rules)
  ∧ good q' + fair q' + poor q' = good q + fair q + poor q + length rules
  ∧ poor q' = poor q
      + length (List.filter
                  (λ r, bool_decide (RoutingRule.criteria r = ∅)) rules).
Proof.
revert q. induction rules as [|r rules IH]; intros q; simpl.
- lia.
- destruct (IH (quality_step q r)) as (H1 & H2 & H3).
  rewrite H2, H1, H3. clear H1 H2 H3.
  unfold quality_step, RoutingRule.is_specific, RoutingRule.get_criteria_count.
  assert (Hz : size (RoutingRule.criteria r) = 0 ↔ RoutingRule.criteria r = ∅)
    by apply map_size_empty_iff.
  destruct (decide (RoutingRule.criteria r = ∅)) as [He|He].
  + rewrite (bool_decide_eq_true_2 _ He).
    apply Hz in He. rewrite He. simpl. lia.
  + rewrite (bool_decide_eq_false_2 _ He).
    destruct (size (RoutingRule.criteria r)) as [|[|[|n]]] eqn:Hs; simpl;
      try lia. exfalso. by apply He, Hz.
Qed.

Lemma analysis_describes (m : ConfigManager.media) (printer : string)
    (folders : list string) (rules : list RoutingRule.t) :
  ∃ a,
    (let '(mapped, unmapped, auto_detected, conflicting) :=
       foldl (folder_step rules) ([], [], [], []) folders in
     Some {| an_printer := printer;
             total_folders := length folders;
             total_rules := length rules;
             mapped_folders := mapped;
             unmapped_folders := unmapped;
             auto_detected_folders := auto_detected;
             conflicting_rules := conflicting;
             coverage_gaps := find_coverage_gaps m rules printer;
             quality := foldl quality_step {| good := 0; fair := 0; poor := 0 |}
                          rules |}) = Some a
    ∧ describes m printer folders rules a.
Proof.
rewrite folder_loop_partition. cbn [fst snd app].
eexists. split; [reflexivity|]. unfold describes.
cbn [total_rules total_folders mapped_folders unmapped_folders
     auto_detected_folders conflicting_rules coverage_gaps quality].
pose proof (quality_loop_total rules {| good := 0; fair := 0; poor := 0 |})
  as (Hg & Hsum & Hp). cbv zeta in Hg, Hsum, Hp. simpl in Hg, Hsum, Hp.
repeat split; try done.
rewrite !length_map.
apply (partition_length (λ n, (rules_for rules n =? 0)%nat)).
Qed.

Lemma analyze_routing_setup_selected cfg (m : ConfigManager.media)
    (printer : string) (folders : list string) :
  printer ≠ "" →
  ∃ a, analyze_routing_setup cfg m printer folders = Some a
       ∧ describes m printer folders
           (map RoutingRule.from_dict
              (default [] (ConfigManager.routing_rules cfg !! printer))) a.
Proof.
intros Hs. unfold analyze_routing_setup.
rewrite (get_routing_rules_selected cfg _ Hs). apply analysis_describes.
Qed.

(** X9: [analyze_routing_setup] fails only for an empty printer name with
    a non-empty rules mapping.  Otherwise every folder is classified once:
    mapped when some rule targets it, auto-detected when none does and the
    name yields detected attributes, unmapped when neither; the three
    lists add up to the number of folders, the folders with more than one
    rule are the conflicting ones, and the three quality counts add up to
    the number of rules, "good" counting the rules with three criteria or
    more and "poor" those without criteria. *)
Theorem analyze_routing_setup_partition cfg (m : ConfigManager.media)
    (printer : string) (folders : list string) :
  match analyze_routing_setup cfg m printer folders with
  | None => printer = "" ∧ ConfigManager.routing_rules cfg ≠ ∅
  | Some a =>
      ∃ rules,
        (printer ≠ "" →
         rules = map RoutingRule.from_dict
                   (default [] (ConfigManager.routing_rules cfg !! printer)))
        ∧ (printer = "" → rules = [])
        ∧ total_rules a = length rules
        ∧ total_folders a = length folders
        ∧ length (mapped_folders a) + length (unmapped_folders a)
          + length (auto_detected_folders a) = total_folders a
        ∧ mapped_folders a =
            map (info_for rules)
              (List.filter (λ n, negb (rules_for rules n =? 0)%nat) folders)
        ∧ unmapped_folders a =
            List.filter (λ n, (rules_for rules n =? 0)%nat
                              && bool_decide (detect_folder_attributes n = ∅))
              folders
        ∧ auto_detected_folders a =
            map (info_for rules)
              (List.filter
                 (λ n, (rules_for rules n =? 0)%nat
                       && negb (bool_decide (detect_folder_attributes n = ∅)))
                 folders)
        ∧ conflicting_rules a =
            map (λ n, (n, rules_for rules n))
              (List.filter (λ n, (1 <? rules_for rules n)%nat) folders)
        ∧ good (quality a) + fair (quality a) + poor (quality a)
          = total_rules a
        ∧ good (quality a) = length (List.filter RoutingRule.is_specific rules)
        ∧ poor (quality a) =
            length (List.filter
                      (λ r, bool_decide (RoutingRule.criteria r = ∅)) rules)
        ∧ coverage_gaps a = find_coverage_gaps m rules printer
  end.
Proof.
destruct (decide (printer = "")) as [He|Hs].
- unfold analyze_routing_setup, ConfigManager.get_routing_rules, Py.truthy.
  rewrite (bool_decide_eq_true_2 _ He). cbn [negb].
  destruct (decide (ConfigManager.routing_rules cfg = ∅)) as [Hm|Hm]; [|done].
  destruct (analysis_describes m printer folders []) as (a & -> & Ha).
  exists []. split; [done|]. split; [done|]. exact Ha.
- destruct (analyze_routing_setup_selected cfg m printer folders Hs)
    as (a & -> & Ha).
  eexists. split; [done|]. split; [done|]. exact Ha.
Qed.

Lemma rules_for_app rules rules' name :
  rules_for (rules ++ rules') name
  = rules_for rules name + rules_for rules' name.
Proof. unfold rules_for. by rewrite List.filter_app, length_app. Qed.

Lemma covered_values_app key rules rules' v :
  v ∈ covered_values key rules → v ∈ covered_values key (rules ++ rules').
Proof.
rewrite !covered_values_spec. intros (Hv & r & Hr & Hk). split; [done|].
exists r. split; [|done]. apply elem_of_app. by left.
Qed.

(** X20: once [add_routing_rule] has stored a rule for a printer, the
    analysis of that printer counts one rule more, lists the target
    folder of the rule (when it is among the folders) as mapped and no
    longer as unmapped or auto-detected, reports no new unmapped folder
    and no new coverage gap, and reports no gap for the media group or
    the job type that the rule requires. *)
Theorem add_routing_rule_analysis cfg (m : ConfigManager.media)
    (printer : string) (rule : RoutingRule.data) (folders : list string) :
  printer ≠ "" →
  ∃ before after,
    analyze_routing_setup cfg m printer folders = Some before
    ∧ analyze_routing_setup (ConfigManager.add_routing_rule cfg printer rule)
        m printer folders = Some after
    ∧ total_rules after = S (total_rules before)
    ∧ (RoutingRule.target_folder (RoutingRule.from_dict rule) ∈ folders →
       RoutingRule.target_folder (RoutingRule.from_dict rule)
         ∈ map f_folder (mapped_folders after)
       ∧ (RoutingRule.target_folder (RoutingRule.from_dict rule)
            ∉ unmapped_folders after)
       ∧ (RoutingRule.target_folder (RoutingRule.from_dict rule)
            ∉ map f_folder (auto_detected_folders after)))
    ∧ (∀ name, name ∈ unmapped_folders after →
               name ∈ unmapped_folders before)
    ∧ (∀ name, name ∈ map f_folder (mapped_folders before) →
               name ∈ map f_folder (mapped_folders after))
    ∧ (∀ g, g ∈ coverage_gaps after → g ∈ coverage_gaps before)
    ∧ (∀ key v g,
         (key = "Media Group" ∨ key = "Job Type") →
         RoutingRule.criteria (RoutingRule.from_dict rule) !! key = Some v →
         v ≠ "" → g ∈ coverage_gaps after →
         gap_type g = key → gap_value g ≠ v).
Proof.
intros Hs.
destruct (analyze_routing_setup_selected cfg m printer folders Hs)
  as (before & Hb & Hbefore).
destruct (analyze_routing_setup_selected
            (ConfigManager.add_routing_rule cfg printer rule) m printer
            folders Hs) as (after & Ha & Hafter).
exists before, after. split; [done|]. split; [done|].
unfold describes in Hbefore, Hafter.
set (old := map RoutingRule.from_dict
              (default [] (ConfigManager.routing_rules cfg !! printer))) in *.
set (r := RoutingRule.from_dict rule) in *.
assert (Hrules :
  map RoutingRule.from_dict
    (default [] (ConfigManager.routing_rules
                   (ConfigManager.add_routing_rule cfg printer rule)
                 !! printer)) = old ++ [r]).
{ rewrite add_routing_rule_rules, decide_True by done. simpl.
  by rewrite map_app. }
rewrite Hrules in Hafter. clear Hrules.
destruct Hbefore as (Hb1 & _ & _ & Hb4 & Hb5 & _ & _ & _ & _ & _ & Hb11).
destruct Hafter as (Ha1 & _ & _ & Ha4 & Ha5 & Ha6 & _ & _ & _ & _ & Ha11).
assert (Hr : ∀ name, rules_for (old ++ [r]) name
                     = rules_for old name
                       + (if bool_decide (RoutingRule.target_folder r = name)
                          then 1 else 0)).
{ intros name. rewrite rules_for_app. f_equal. unfold rules_for. simpl.
  by destruct (bool_decide _). }
assert (Hself : rules_for (old ++ [r]) (RoutingRule.target_folder r) ≠ 0).
{ rewrite Hr, bool_decide_eq_true_2 by done. lia. }
split; [|split; [|split; [|split; [|split]]]].
- rewrite Ha1, Hb1, length_app. simpl. lia.
- intros Hin. split; [|split].
  + rewrite Ha4. apply elem_of_List_map.
    exists (info_for (old ++ [r]) (RoutingRule.target_folder r)).
    split; [done|]. apply elem_of_List_map. eexists. split; [done|].
    apply list_elem_of_In, filter_In. split; [by apply list_elem_of_In|].
    by destruct (rules_for _ _).
  + rewrite Ha5. intros H%list_elem_of_In%filter_In. destruct H as [_ H].
    by destruct (rules_for _ _).
  + rewrite Ha6. intros H%elem_of_List_map. destruct H as (fi & Hf & H).
    apply elem_of_List_map in H as (n & -> & H). cbn [info_for f_folder] in Hf.
    subst n. apply list_elem_of_In, filter_In in H as [_ H].
    by destruct (rules_for _ _).
- intros name. rewrite Ha5, Hb5, !list_elem_of_In, !filter_In.
  intros [Hin H]. split; [done|]. rewrite Hr in H.
  destruct (rules_for old name); [|done].
  by destruct (bool_decide (RoutingRule.target_folder r = name)),
       (bool_decide (detect_folder_attributes name = ∅)).
- intros name. rewrite Ha4, Hb4, !elem_of_List_map.
  intros (fi & -> & H). apply elem_of_List_map in H as (n & -> & H).
  apply list_elem_of_In, filter_In in H as [Hin H].
  exists (info_for (old ++ [r]) n). split; [done|].
  apply elem_of_List_map. exists n. split; [done|].
  apply list_elem_of_In, filter_In. split; [done|]. rewrite Hr.
  by destruct (rules_for old n).
- intros g. rewrite Ha11, Hb11, !find_coverage_gaps_filter, !elem_of_app,
    !elem_of_List_map.
  intros [(v & -> & H)|(v & -> & H)]; [left|right]; exists v; (split; [done|]);
    apply list_elem_of_In, filter_In in H as [Hin H];
    apply list_elem_of_In, filter_In; (split; [done|]);
    apply bool_decide_eq_true in H; apply bool_decide_eq_true;
    intros Hc; apply H; by apply covered_values_app.
- intros key v g Hkey Hv Hne. rewrite Ha11, find_coverage_gaps_filter,
    elem_of_app, !elem_of_List_map.
  assert (Hcov : v ∈ covered_values key (old ++ [r])).
  { apply covered_values_spec. split; [done|]. exists r.
    split; [|done]. apply elem_of_app. right. by left. }
  intros [(w & -> & H)|(w & -> & H)] Ht Hw; cbn [gap_type gap_value] in Ht, Hw;
    subst key w; apply list_elem_of_In, filter_In in H as [_ H];
    apply bool_decide_eq_true in H; done.
Qed.

Lemma add_routing_rule_analysis_witness :
  ∃ before after,
    analyze_routing_setup (Example.config [] [] true)
      {| ConfigManager.media_config := [];
         ConfigManager.printer_media_config := ∅ |} "Canon" ["Matte"]
      = Some before
    ∧ analyze_routing_setup
        (ConfigManager.add_routing_rule (Example.config [] [] true) "Canon"
           {| RoutingRule.d_target_folder := Some "Matte";
              RoutingRule.d_priority := None;
              RoutingRule.d_criteria := None;
              RoutingRule.d_auto_generated := None |})
        {| ConfigManager.media_config := [];
           ConfigManager.printer_media_config := ∅ |} "Canon" ["Matte"]
      = Some after
    ∧ total_rules after = S (total_rules before).
Proof.
destruct (add_routing_rule_analysis (Example.config [] [] true)
            {| ConfigManager.media_config := [];
               ConfigManager.printer_media_config := ∅ |} "Canon"
            {| RoutingRule.d_target_folder := Some "Matte";
               RoutingRule.d_priority := None;
               RoutingRule.d_criteria := None;
               RoutingRule.d_auto_generated := None |} ["Matte"])
  as (before & after & H1 & H2 & H3 & _); [done|].
exists before, after. auto.
Defined.

End coverage_facts.

Section string_facts.

Lemma elem_of_chars_app (c : ascii) (a b : string) :
  c ∈ list_ascii_of_string (a +:+ b) ↔
  c ∈ list_ascii_of_string a ∨ c ∈ list_ascii_of_string b.
Proof.
induction a as [|x a IH]; simpl.
- rewrite elem_of_nil. tauto.
- rewrite !elem_of_cons, IH. tauto.
Qed.

Lemma contains_char (c : ascii) (s : string) :
  Py.contains (String c "") s = true ↔ c ∈ list_ascii_of_string s.
Proof.
induction s as [|x s IH]; simpl.
- rewrite elem_of_nil. split; [done|tauto].
- rewrite elem_of_cons, <- IH. destruct (decide (c = x)) as [->|Hne].
  + split; [by left|]. intros _. by destruct s.
  + simpl. split; [by right|]. by intros [?|?].
Qed.

Lemma contains_char_false (c : ascii) (s : string) :
  Py.contains (String c "") s = false ↔ c ∉ list_ascii_of_string s.
Proof.
rewrite <- contains_char. by destruct (Py.contains (String c "") s).
Qed.

Lemma replace_go_chars (c : ascii) old new k s :
  c ∈ list_ascii_of_string (Py.replace_go old new k s) →
  c ∈ list_ascii_of_string new ∨ c ∈ list_ascii_of_string s.
Proof.
revert k. induction s as [|x s IH]; intros k; simpl.
- by right.
- rewrite elem_of_cons. destruct k as [|k].
  + destruct (Py.startswith old (String x s)).
    * rewrite elem_of_chars_app. intros [?|H]; [by left|].
      apply IH in H. tauto.
    * simpl. rewrite elem_of_cons. intros [?|H]; [tauto|].
      apply IH in H. tauto.
  + intros H. apply IH in H. tauto.
Qed.

(** a replacement whose new text lacks [c] does not bring [c] in *)
Lemma replace_keeps_out (c : ascii) old new s :
  c ∉ list_ascii_of_string new →
  c ∉ list_ascii_of_string s →
  c ∉ list_ascii_of_string (Py.replace old new s).
Proof.
intros Hn Hs H. apply replace_go_chars in H. tauto.
Qed.

(** replacing the character [c] removes every [c] *)
Lemma replace_removes (c : ascii) new s :
  c ∉ list_ascii_of_string new →
  c ∉ list_ascii_of_string (Py.replace (String c "") new s).
Proof.
intros Hn. unfold Py.replace. induction s as [|x s IH]; simpl.
- apply not_elem_of_nil.
- destruct (decide (c = x)) as [->|Hne].
  + rewrite elem_of_chars_app. tauto.
  + simpl. rewrite elem_of_cons. tauto.
Qed.

Lemma replace_nonempty (c : ascii) new s :
  new ≠ "" → s ≠ "" → Py.replace (String c "") new s ≠ "".
Proof.
intros Hn Hs. destruct s as [|x s]; [done|]. unfold Py.replace. simpl.
destruct (decide (c = x)); [|done]. by destruct new.
Qed.

Lemma replace_go_length_le old k s :
  String.length (Py.replace_go old "_" k s) ≤ String.length s.
Proof.
revert k. induction s as [|x s IH]; intros k; [done|].
cbn [Py.replace_go]. destruct k as [|k].
- destruct (Py.startswith old (String x s)).
  + specialize (IH (String.length old - 1)).
    set (r := Py.replace_go _ _ _ _) in *.
    change (S (String.length r) ≤ S (String.length s)). lia.
  + specialize (IH 0). cbn [String.length]. lia.
- specialize (IH k). cbn [String.length]. lia.
Qed.

(** one pass of the loop shortens a string that holds two underscores
    in a row *)
Lemma replace_double_shorter s :
  Py.contains "__" s = true →
  String.length (Py.replace "__" "_" s) < String.length s.
Proof.
unfold Py.replace. induction s as [|x s IH]; [done|].
cbn [Py.contains Py.replace_go].
destruct (Py.startswith "__" (String x s)) eqn:Hst.
- intros _. destruct s as [|y s].
  { simpl in Hst. by destruct (decide _). }
  pose proof (replace_go_length_le "__" 0 s).
  change (S (String.length (Py.replace_go "__" "_" 0 s))
          < S (S (String.length s))). lia.
- simpl. intros H. apply IH in H. simpl. lia.
Qed.

Lemma collapse_underscores_done fuel s :
  String.length s ≤ fuel →
  Py.contains "__" (FilenameGenerator.collapse_underscores fuel s) = false.
Proof.
revert s. induction fuel as [|fuel IH]; intros s Hlen; simpl.
- by destruct s; [|simpl in Hlen; lia].
- destruct (Py.contains "__" s) eqn:Hc; [|done].
  apply IH. pose proof (replace_double_shorter s Hc). lia.
Qed.

Lemma collapse_underscores_chars (c : ascii) fuel s :
  c ∉ list_ascii_of_string "_" →
  c ∉ list_ascii_of_string s →
  c ∉ list_ascii_of_string (FilenameGenerator.collapse_underscores fuel s).
Proof.
intros Hc. revert s. induction fuel as [|fuel IH]; intros s Hs; simpl; [done|].
destruct (Py.contains "__" s); [|done].
by apply IH, replace_keeps_out.
Qed.

Lemma contains_cons sub x s :
  Py.contains sub (String x s) =
  Py.startswith sub (String x s) || Py.contains sub s.
Proof. done. Qed.

Lemma startswith_trans a b c :
  Py.startswith a b = true → Py.startswith b c = true →
  Py.startswith a c = true.
Proof.
revert b c. induction a as [|x a IH]; intros b c; [done|].
destruct b as [|y b]; [done|]. destruct c as [|z c]; [done|]. simpl.
destruct (decide (x = y)) as [->|]; [|done].
destruct (decide (y = z)) as [->|]; [|done]. apply IH.
Qed.

(** a string holds what a prefix of it holds *)
Lemma contains_prefix sub p s :
  Py.startswith p s = true → Py.contains sub p = true →
  Py.contains sub s = true.
Proof.
revert s. induction p as [|x p IH]; intros s Hp.
- simpl. rewrite orb_false_r. destruct sub; [|done]. intros _. by destruct s.
- destruct s as [|y s]; [done|]. simpl in Hp.
  destruct (decide (x = y)) as [->|]; [|done].
  rewrite !contains_cons, !orb_true_iff. intros [H|H].
  + left. apply (startswith_trans _ (String y p)); [done|].
    simpl. by rewrite decide_True.
  + right. by apply IH.
Qed.

Lemma lstrip_char_contains sub c s :
  Py.contains sub (Py.lstrip_char c s) = true → Py.contains sub s = true.
Proof.
induction s as [|x s IH]; [done|]. cbn [Py.lstrip_char].
destruct (decide (x = c)); [|done].
intros H. rewrite contains_cons, (IH H). apply orb_true_r.
Qed.

Lemma lstrip_char_chars (a c : ascii) s :
  a ∈ list_ascii_of_string (Py.lstrip_char c s) → a ∈ list_ascii_of_string s.
Proof.
induction s as [|x s IH]; [done|]. cbn [Py.lstrip_char].
destruct (decide (x = c)); [|done]. simpl. rewrite elem_of_cons. tauto.
Qed.

Lemma lstrip_char_head c s t : Py.lstrip_char c s ≠ String c t.
Proof.
induction s as [|x s IH]; [done|]. cbn [Py.lstrip_char].
destruct (decide (x = c)); [done|]. congruence.
Qed.

Lemma rstrip_char_cons c x s :
  Py.rstrip_char c (String x s) = ""
  ∨ Py.rstrip_char c (String x s) = String x (Py.rstrip_char c s).
Proof.
cbn [Py.rstrip_char]. destruct (Py.rstrip_char c s).
- destruct (decide (x = c)); [by left|by right].
- by right.
Qed.

Lemma rstrip_char_prefix c s : Py.startswith (Py.rstrip_char c s) s = true.
Proof.
induction s as [|x s IH]; [done|].
destruct (rstrip_char_cons c x s) as [->| ->]; [done|].
simpl. by rewrite decide_True.
Qed.

Lemma rstrip_char_chars (a c : ascii) s :
  a ∈ list_ascii_of_string (Py.rstrip_char c s) → a ∈ list_ascii_of_string s.
Proof.
induction s as [|x s IH].
- done.
- destruct (rstrip_char_cons c x s) as [->| ->]; simpl.
  + by intros ?%elem_of_nil.
  + rewrite !elem_of_cons. tauto.
Qed.

Lemma rstrip_char_last c s t : Py.rstrip_char c s ≠ t +:+ String c "".
Proof.
revert t. induction s as [|x s IH]; intros t.
- by destruct t.
- cbn [Py.rstrip_char]. destruct (Py.rstrip_char c s) as [|y r] eqn:Hr.
  + destruct (decide (x = c)); [by destruct t|].
    destruct t as [|z [|? ?]]; simpl; intros [=]; done.
  + destruct t as [|z t]; simpl; [by intros [=]|].
    intros [= -> Ht]. by apply (IH t).
Qed.

Lemma rstrip_char_head c s t :
  (∀ t, s ≠ String c t) → Py.rstrip_char c s ≠ String c t.
Proof.
intros Hs. destruct s as [|x s]; [done|].
destruct (rstrip_char_cons c x s) as [->| ->]; [done|].
intros [= -> _]. by apply (Hs s).
Qed.

Lemma double_underscore_ext r :
  Py.contains "__" (r +:+ ".pdf") = Py.contains "__" r.
Proof.
induction r as [|x r IH]; [done|].
change (String x r +:+ ".pdf") with (String x (r +:+ ".pdf")).
rewrite !contains_cons, IH. f_equal.
simpl. destruct (decide ("_"%char = x)); [|done]. by destruct r.
Qed.

Lemma append_ext_eq r : r +:+ ".pdf" = ".pdf" ↔ r = "".
Proof.
split; [|by intros ->]. intros H.
assert (Hl : String.length (r +:+ ".pdf") = 4) by by rewrite H.
destruct r as [|x r]; [done|]. exfalso. revert Hl. clear H. simpl.
assert (H : ∀ r, 4 ≤ String.length (r +:+ ".pdf")).
{ clear. induction r; simpl; lia. }
specialize (H r). lia.
Qed.

Lemma join_chars (a c : ascii) parts :
  a ∈ list_ascii_of_string (Py.join (String c "") parts) →
  a = c ∨ ∃ p, p ∈ parts ∧ a ∈ list_ascii_of_string p.
Proof.
induction parts as [|p parts IH]; [by intros ?%elem_of_nil|].
destruct parts as [|q parts].
- simpl. intros H. right. exists p. split; [by left|done].
- change (Py.join (String c "") (p :: q :: parts))
    with (p +:+ String c "" +:+ Py.join (String c "") (q :: parts)).
  rewrite !elem_of_chars_app. simpl list_ascii_of_string at 2.
  rewrite elem_of_cons, elem_of_nil. intros [H|[[H|[]]|H]].
  + right. exists p. split; [by left|done].
  + by left.
  + destruct (IH H) as [?|(p' & Hp' & Ha)]; [by left|].
    right. exists p'. split; [by right|done].
Qed.

Lemma join_nonempty sep p parts :
  p ≠ "" → Py.join sep (p :: parts) ≠ "".
Proof.
intros Hp. destruct parts; simpl; [done|]. by destruct p.
Qed.

Lemma join_split_char c s : Py.join (String c "") (Py.split_char c s) = s.
Proof.
induction s as [|x s IH]; [done|]. cbn [Py.split_char].
destruct (decide (x = c)) as [->|Hne].
- destruct (Py.split_char c s) as [|p ps] eqn:Hsp.
  + by destruct s; simpl in Hsp; [|destruct (decide _), (Py.split_char _ _)].
  + change (Py.join (String c "") ("" :: p :: ps))
      with ("" +:+ String c "" +:+ Py.join (String c "") (p :: ps)).
    by rewrite IH.
- destruct (Py.split_char c s) as [|p ps] eqn:Hsp.
  + by destruct s; simpl in Hsp; [|destruct (decide _), (Py.split_char _ _)].
  + rewrite <- IH. destruct ps; [done|]. done.
Qed.

Lemma split_char_parts (c : ascii) s p :
  p ∈ Py.split_char c s → c ∉ list_ascii_of_string p.
Proof.
revert p. induction s as [|x s IH]; intros p; cbn [Py.split_char].
- intros ->%list_elem_of_singleton. apply not_elem_of_nil.
- destruct (decide (x = c)) as [->|Hne].
  + intros [->|H]%elem_of_cons; [apply not_elem_of_nil|by apply IH].
  + destruct (Py.split_char c s) as [|q qs].
    * intros ->%list_elem_of_singleton. simpl.
      rewrite elem_of_cons, elem_of_nil. naive_solver.
    * intros [->|H]%elem_of_cons.
      -- simpl. rewrite elem_of_cons. intros [?|?]; [done|].
         apply (IH q); [by left|done].
      -- apply IH. by right.
Qed.

End string_facts.

Section sanitize_facts.
Import FilenameGenerator.

Lemma replacements_remove (c : ascii) clean :
  c ∈ replaced_chars →
  c ∉ list_ascii_of_string
        (foldl (λ clean on, Py.replace on.1 on.2 clean) clean replacements).
Proof.
unfold replaced_chars. rewrite !elem_of_cons, elem_of_nil.
cbn [foldl replacements fst snd]. unfold char_str.
intros H. repeat destruct H as [->|H]; [..|done];
  repeat first
    [ apply replace_removes; apply (bool_decide_unpack _); by vm_compute
    | apply replace_keeps_out;
        [ apply (bool_decide_unpack _); by vm_compute | ] ].
Qed.

Lemma sanitize_component_chars (c : ascii) component :
  c ∈ replaced_chars →
  c ∉ list_ascii_of_string (sanitize_component component).
Proof.
intros Hc. unfold sanitize_component.
destruct (negb (Py.truthy component)); [apply not_elem_of_nil|].
cbv zeta. unfold Py.strip_char. intros H.
apply rstrip_char_chars, lstrip_char_chars in H. revert H.
apply collapse_underscores_chars.
- apply (bool_decide_unpack _). revert Hc. unfold replaced_chars.
  rewrite !elem_of_cons, elem_of_nil. intros H.
  repeat destruct H as [->|H]; [..|done]; by vm_compute.
- by apply replacements_remove.
Qed.

Lemma sanitize_component_no_double component :
  Py.contains "__" (sanitize_component component) = false.
Proof.
unfold sanitize_component.
destruct (negb (Py.truthy component)); [done|]. cbv zeta.
set (clean := foldl _ _ _).
destruct (Py.contains "__" (Py.strip_char "_" _)) eqn:H; [|done].
unfold Py.strip_char in H.
apply (contains_prefix _ _ _ (rstrip_char_prefix _ _)) in H.
apply lstrip_char_contains in H.
by rewrite collapse_underscores_done in H.
Qed.

(** X4: whatever the component, the text that [sanitize_component]
    returns holds none of the characters of the replacement table, no
    two underscores in a row, and neither starts nor ends with an
    underscore; in particular the loop that collapses underscores ends
    within as many passes as the text has characters. *)
Theorem sanitize_component_clean (component : string) :
  (∀ c, c ∈ replaced_chars →
        Py.contains (char_str c) (sanitize_component component) = false)
  ∧ Py.contains "__" (sanitize_component component) = false
  ∧ (∀ t, sanitize_component component ≠ "_" +:+ t)
  ∧ (∀ t, sanitize_component component ≠ t +:+ "_").
Proof.
split; [|split; [|split]].
- intros c Hc. apply contains_char_false. by apply sanitize_component_chars.
- apply sanitize_component_no_double.
- intros t. unfold sanitize_component.
  destruct (negb (Py.truthy component)); [done|]. cbv zeta.
  unfold Py.strip_char. apply rstrip_char_head. intros t'.
  apply lstrip_char_head.
- intros t. unfold sanitize_component.
  destruct (negb (Py.truthy component)); [by destruct t|]. cbv zeta.
  unfold Py.strip_char. apply rstrip_char_last.
Qed.

(** X5: a sanitized component followed by the extension passes every
    check of [validate_filename] on characters and on double
    underscores: the only flags it can get are "only extension" (the
    component sanitizes to nothing), "too long" and "reserved". *)
Theorem sanitize_component_validates (component : string) :
  (validate_filename (sanitize_component component +:+ ".pdf")).2 =
  (if bool_decide (sanitize_component component = "")
   then [msg_only_extension] else [])
  ++ (if (200 <? String.length (sanitize_component component +:+ ".pdf"))%nat
      then [msg_too_long] else [])
  ++ (if bool_decide
           (Py.upper (Py.replace ".pdf" ""
                        (sanitize_component component +:+ ".pdf"))
            ∈ reserved_names)
      then [msg_reserved
              (Py.upper (Py.replace ".pdf" ""
                           (sanitize_component component +:+ ".pdf")))]
      else []).
Proof.
rewrite validate_filename_all_issues. cbn [snd]. unfold code_issues.
set (r := sanitize_component component).
assert (Hne : r +:+ ".pdf" ≠ "") by by destruct r.
rewrite (bool_decide_eq_false_2 _ Hne).
assert (Hext : bool_decide (r +:+ ".pdf" = ".pdf") = bool_decide (r = ""))
  by (apply bool_decide_ext, append_ext_eq).
rewrite Hext.
assert (Hchars : List.filter
                   (λ c, Py.contains (char_str c) (r +:+ ".pdf"))
                   invalid_chars = []).
{ apply filter_nil_iff. intros c Hc. apply contains_char_false.
  rewrite elem_of_chars_app. intros [H|H].
  - revert H. apply sanitize_component_chars.
    revert Hc. unfold invalid_chars, replaced_chars.
    rewrite !elem_of_cons, !elem_of_nil. naive_solver.
  - revert Hc H. unfold invalid_chars. rewrite !elem_of_cons, !elem_of_nil.
    intros Hc. repeat destruct Hc as [->|Hc]; [..|done];
      simpl; rewrite !elem_of_cons, elem_of_nil; naive_solver. }
rewrite Hchars, double_underscore_ext. subst r.
rewrite sanitize_component_no_double.
simpl. by rewrite app_nil_r.
Qed.

End sanitize_facts.

Section generate_facts.
Import FilenameGenerator.

Lemma clean_part_chars part :
  ((" " : ascii) ∉ list_ascii_of_string (clean_part part))
  ∧ (("&" : ascii) ∉ list_ascii_of_string (clean_part part)).
Proof.
unfold clean_part. split.
- apply replace_keeps_out; [apply (bool_decide_unpack _); by vm_compute|].
  apply replace_removes. apply (bool_decide_unpack _); by vm_compute.
- apply replace_removes. apply (bool_decide_unpack _); by vm_compute.
Qed.

Lemma clean_part_nonempty part : part ≠ "" → clean_part part ≠ "".
Proof.
intros H. unfold clean_part. apply replace_nonempty; [done|].
by apply replace_nonempty.
Qed.

Lemma spec_survives_nonempty today job_data flags key :
  spec_survives today job_data flags key = true →
  resolved today job_data key ≠ "".
Proof.
unfold spec_survives. cbv zeta. rewrite !andb_true_iff, !bool_decide_eq_true.
tauto.
Qed.

(** X6: the name that [generate] returns is a non-empty stem followed by
    ".pdf"; the stem holds neither a space nor an ampersand; so
    [validate_filename] never reports the name as empty or as only an
    extension, and never reports a character that [generate] replaces. *)
Theorem generate_stem today job_data components_order include_flags :
  ∃ stem,
    generate today job_data components_order include_flags = stem +:+ ".pdf"
    ∧ stem ≠ ""
    ∧ Py.contains " " stem = false
    ∧ Py.contains "&" stem = false
    ∧ (validate_filename
         (generate today job_data components_order include_flags)).2 =
      map msg_invalid_char
        (List.filter (λ c, Py.contains (char_str c) (stem +:+ ".pdf"))
           invalid_chars)
      ++ (if (200 <? String.length (stem +:+ ".pdf"))%nat
          then [msg_too_long] else [])
      ++ (if bool_decide
               (Py.upper (Py.replace ".pdf" "" (stem +:+ ".pdf"))
                ∈ reserved_names)
          then [msg_reserved
                  (Py.upper (Py.replace ".pdf" "" (stem +:+ ".pdf")))]
          else [])
      ++ (if Py.contains "__" stem then [msg_double_underscore] else []).
Proof.
assert (Hval : ∀ stem, stem ≠ "" →
  (validate_filename (stem +:+ ".pdf")).2 =
      map msg_invalid_char
        (List.filter (λ c, Py.contains (char_str c) (stem +:+ ".pdf"))
           invalid_chars)
      ++ (if (200 <? String.length (stem +:+ ".pdf"))%nat
          then [msg_too_long] else [])
      ++ (if bool_decide
               (Py.upper (Py.replace ".pdf" "" (stem +:+ ".pdf"))
                ∈ reserved_names)
          then [msg_reserved
                  (Py.upper (Py.replace ".pdf" "" (stem +:+ ".pdf")))]
          else [])
      ++ (if Py.contains "__" stem then [msg_double_underscore] else [])).
{ intros stem Hs. rewrite validate_filename_all_issues. cbn [snd].
  unfold code_issues.
  assert (Hne : stem +:+ ".pdf" ≠ "") by by destruct stem.
  rewrite (bool_decide_eq_false_2 _ Hne).
  assert (Hext : stem +:+ ".pdf" ≠ ".pdf") by by rewrite append_ext_eq.
  rewrite (bool_decide_eq_false_2 _ Hext).
  by rewrite double_underscore_ext. }
unfold generate. cbv zeta. rewrite generate_loop_filter. cbn [app].
unfold default_extension.
destruct (List.filter _ components_order) as [|key keys] eqn:Hf.
- exists "untitled". split; [done|]. split; [done|].
  split; [done|]. split; [done|]. by apply Hval.
- cbn [map]. set (parts := _ :: _).
  assert (Hkey : spec_survives today job_data include_flags key = true).
  { assert (Hin : In key (List.filter
                            (spec_survives today job_data include_flags)
                            components_order)) by (rewrite Hf; by left).
    by apply filter_In in Hin as [_ ?]. }
  assert (Hparts : ∀ p, p ∈ parts →
            ((" " : ascii) ∉ list_ascii_of_string p)
            ∧ (("&" : ascii) ∉ list_ascii_of_string p)).
  { intros p Hp. subst parts.
    apply elem_of_cons in Hp as [->|Hp]; [apply clean_part_chars|].
    apply elem_of_List_map in Hp as (k & -> & _). apply clean_part_chars. }
  assert (Hstem : Py.join "_" parts ≠ "").
  { subst parts. apply join_nonempty, clean_part_nonempty.
    by apply (spec_survives_nonempty _ _ include_flags). }
  exists (Py.join "_" parts). split; [done|]. split; [done|].
  split; [|split; [|by apply Hval]].
  + apply contains_char_false. intros H.
    apply join_chars in H as [?|(p & Hp & H)]; [done|].
    by apply (proj1 (Hparts p Hp)).
  + apply contains_char_false. intros H.
    apply join_chars in H as [?|(p & Hp & H)]; [done|].
    by apply (proj2 (Hparts p Hp)).
Qed.

(** X18: [analyze_filename] reports the verdict and the issues of
    [validate_filename]; for a non-empty name the estimated parts hold no
    underscore, joined by underscores they give back the name with every
    ".pdf" removed, and there is one component per part, carrying its
    position and the part itself; for the empty name both lists are
    empty. *)
Theorem analyze_filename_parts (filename : string) :
  (a_is_valid (analyze_filename filename),
   a_issues (analyze_filename filename)) = validate_filename filename
  ∧ a_filename (analyze_filename filename) = filename
  ∧ (filename = "" →
     a_components (analyze_filename filename) = []
     ∧ a_estimated_parts (analyze_filename filename) = [])
  ∧ (filename ≠ "" →
     Py.join "_" (a_estimated_parts (analyze_filename filename))
       = Py.replace ".pdf" "" filename
     ∧ a_estimated_parts (analyze_filename filename) ≠ []
     ∧ (∀ p, p ∈ a_estimated_parts (analyze_filename filename) →
             Py.contains "_" p = false)
     ∧ map value (a_components (analyze_filename filename))
       = a_estimated_parts (analyze_filename filename)
     ∧ map index (a_components (analyze_filename filename))
       = seq 0 (length (a_estimated_parts (analyze_filename filename)))).
Proof.
unfold analyze_filename, Py.truthy, default_extension.
destruct (validate_filename filename) as [is_valid issues].
destruct (decide (filename = "")) as [->|Hne].
- simpl. split; [done|]. split; [done|]. split; [done|]. by intros [].
- rewrite (bool_decide_eq_false_2 _ Hne). cbn [negb].
  cbn [a_is_valid a_issues a_filename a_components a_estimated_parts].
  split; [done|]. split; [done|]. split; [done|]. intros _.
  set (parts := Py.split_char _ _).
  split; [apply join_split_char|]. split.
  { subst parts. destruct (Py.replace ".pdf" "" filename) as [|x s]; [done|].
    cbn [Py.split_char]. by destruct (decide _), (Py.split_char _ _). }
  split.
  { intros p Hp. apply contains_char_false. by apply split_char_parts in Hp. }
  clearbody parts. split.
  + apply list_eq. intros i. rewrite lookup_List_map, list_lookup_imap.
    by destruct (parts !! i).
  + apply list_eq. intros i. rewrite lookup_List_map, list_lookup_imap.
    destruct (parts !! i) eqn:Hi; simpl.
    * apply lookup_lt_Some in Hi. by rewrite lookup_seq_lt.
    * apply lookup_ge_None in Hi. by rewrite lookup_seq_ge.
Qed.

End generate_facts.

Section detection_facts.
Import RoutingEngine.

Lemma lower_char_space c : Py.is_space (Py.lower_char c) = Py.is_space c.
Proof. by destruct c as [[] [] [] [] [] [] [] []]. Qed.

Lemma lower_all_space s : Py.all_space (Py.lower s) = Py.all_space s.
Proof.
induction s as [|c s IH]; [done|]. simpl. by rewrite lower_char_space, IH.
Qed.

Lemma contains_all_space c kw s :
  Py.all_space s = true → Py.is_space c = false →
  Py.contains (String c kw) s = false.
Proof.
intros Hs Hc. induction s as [|x s IH]; [done|].
simpl in Hs. apply andb_true_iff in Hs as [Hx Hs].
rewrite contains_cons, (IH Hs), orb_false_r. simpl.
destruct (decide (c = x)) as [->|]; [congruence|done].
Qed.

Lemma detect_folder_attributes_blank name :
  Py.all_space name = true → detect_folder_attributes name = ∅.
Proof.
intros Hs. rewrite <- lower_all_space in Hs.
pose proof (λ c kw, contains_all_space c kw _ Hs) as H.
cbv delta [detect_folder_attributes]. cbv beta.
repeat lazymatch goal with
| |- (let x := ?e in @?b x) = ∅ =>
    let y := fresh "d" in
    pose (y := e); change (b y = ∅); cbv beta
end.
repeat match goal with
| d := _ : gmap string string |- _ =>
    assert (d = ∅)
      by (unfold d;
          repeat match goal with
            | f := _ : string → bool |- _ => unfold f
            end;
          rewrite ?H by reflexivity; cbn [orb andb]; first [done|assumption]);
    clearbody d
end.
unfold media_keywords. cbn [media_loop].
rewrite !H by reflexivity. assumption.
Qed.

Lemma detectable_insert k v (d : gmap string string) :
  (k, v) ∈ detectable →
  (∀ k' v', d !! k' = Some v' → (k', v') ∈ detectable) →
  ∀ k' v', <[k:=v]> d !! k' = Some v' → (k', v') ∈ detectable.
Proof.
intros Hkv Hd k' v' [[<- <-]|[_ H]]%lookup_insert_Some; auto.
Qed.

Lemma detect_folder_attributes_detectable name k v :
  detect_folder_attributes name !! k = Some v → (k, v) ∈ detectable.
Proof.
revert k v. cbv delta [detect_folder_attributes]. cbv beta.
repeat lazymatch goal with
| |- ∀ k v, (let x := ?e in @?b x) !! k = Some v → _ =>
    let y := fresh "d" in
    pose (y := e);
    change (∀ k v, (b y) !! k = Some v → (k, v) ∈ detectable); cbv beta
end.
repeat match goal with
| d := _ : gmap string string |- _ =>
    assert (∀ k v, d !! k = Some v → (k, v) ∈ detectable)
      by (unfold d;
          repeat match goal with
            | |- ∀ k v, (if ?b then _ else _) !! k = Some v → _ => destruct b
            end;
          first [ assumption
                | by intros ? ? ?%lookup_empty_Some
                | apply detectable_insert;
                  [apply (bool_decide_unpack _); by vm_compute|assumption] ]);
    clearbody d
end.
unfold media_keywords. cbn [media_loop].
repeat match goal with
  | |- ∀ k v, (if ?b then _ else _) !! k = Some v → _ => destruct b
  end;
  first [ assumption
        | apply detectable_insert;
          [apply (bool_decide_unpack _); by vm_compute|assumption] ].
Qed.

Lemma detectable_values k v :
  (k, v) ∈ detectable → Py.all_space v = false ∧ Job.kept_value v = true.
Proof.
unfold detectable. rewrite !elem_of_cons, elem_of_nil. intros H.
repeat destruct H as [[= -> ->]|H]; [..|done]; by vm_compute.
Qed.

(** X7: [detect_folder_attributes] only ever produces attribute pairs of
    a fixed table, none with a blank value and none with a value that a
    job drops from its criteria; it detects nothing in a blank name; and
    [create_auto_routing_rule] accepts the detected attributes of a
    folder exactly when there are any. *)
Theorem detect_folder_attributes_entries (name : string) :
  (∀ k v, detect_folder_attributes name !! k = Some v →
          (k, v) ∈ detectable
          ∧ Py.all_space v = false ∧ Job.kept_value v = true)
  ∧ (Py.all_space name = true → detect_folder_attributes name = ∅)
  ∧ (create_auto_routing_rule name (detect_folder_attributes name) = true
     ↔ detect_folder_attributes name ≠ ∅).
Proof.
split; [|split].
- intros k v H%detect_folder_attributes_detectable.
  split; [done|]. by apply detectable_values in H.
- apply detect_folder_attributes_blank.
- unfold create_auto_routing_rule.
  destruct (decide (detect_folder_attributes name = ∅)) as [He|Hne];
    [done|].
  split; [done|]. intros _.
  set (rule := RoutingRule.mk _ _ _ _).
  assert (Hv : (RoutingRule.validate rule).1 = true).
  { apply rule_validate_spec. subst rule.
    cbn [RoutingRule.target_folder RoutingRule.criteria RoutingRule.priority].
    split; [|split; [done|split]].
    - destruct (Py.all_space name) eqn:Hs; [|done].
      by apply detect_folder_attributes_blank in Hs.
    - rewrite !elem_of_cons. tauto.
    - intros k v H%detect_folder_attributes_detectable.
      exact (proj1 (detectable_values _ _ H)). }
  destruct (RoutingRule.validate rule) as [[] ?]; done.
Qed.

(** X19: a rule whose criteria are the detected attributes of a folder
    can be satisfied: the job that carries the detected values, its other
    attributes at their defaults, matches it. *)
Theorem detected_rule_matches (r : RoutingRule.t) (name : string) :
  RoutingRule.criteria r = detect_folder_attributes name →
  detect_folder_attributes name ≠ ∅ →
  RoutingRule.matches_job r (job_with (detect_folder_attributes name)) = true.
Proof.
intros Hr Hne. apply matches_job_spec. rewrite Hr. split; [done|].
intros k v Hkv. pose proof (detect_folder_attributes_detectable _ _ _ Hkv) as Hd.
apply get_routing_criteria_lookup.
split; [exact (proj2 (detectable_values _ _ Hd))|]. left.
revert Hkv. generalize (detect_folder_attributes name). intros d Hkv.
unfold base_criteria, job_with. cbn.
revert Hd Hkv. unfold detectable. rewrite !elem_of_cons, elem_of_nil.
intros Hd. repeat destruct Hd as [[= -> ->]|Hd]; [..|done];
  intros ->; cbn; tauto.
Qed.

Lemma detected_rule_matches_witness :
  RoutingRule.matches_job
    {| RoutingRule.target_folder := "Matte Banner";
       RoutingRule.priority := "Normal";
       RoutingRule.criteria := detect_folder_attributes "Matte Banner";
       RoutingRule.auto_generated := true |}
    (job_with (detect_folder_attributes "Matte Banner")) = true.
Proof.
apply (detected_rule_matches _ "Matte Banner"); [reflexivity|].
by vm_compute.
Defined.

End detection_facts.
